(** * gorker: a resizable worker pool (gorker.go)

    A shallow embedding of the dispatcher of [gorker.go] and the proofs of
    its specification.

    Go objects live in heaps indexed by their address: dispatchers, workers,
    [chan func()] channels, [chan error] channels and cancellable contexts.
    A pointer is the index of its object, so two handles to one dispatcher
    see each other's writes.  Every exported method is a function from the
    machine state to an outcome: it returns, it suspends (a channel
    operation or a WaitGroup wait that cannot proceed), or it panics.
    Goroutines started by the code are recorded in the state and advance by
    [step], one loop iteration at a time.

    Conventions.
    - Go's [int] is the 64-bit two's complement integer; products and
      differences are wrapped by [wrap].
    - A section guarded by [d.mu.Lock()] ... [d.mu.Unlock()] is one atomic
      piece of a method; the mutex itself carries no further state.
    - [sync.WaitGroup] is allocated once per dispatcher and never shared, so
      its counter is stored in the dispatcher record; the same holds for the
      [kill] channel of a worker.
    - A job is a total Go function; the results of the jobs invoked so far
      are kept in the ghost field [log]. *)

From Stdlib Require Import ZArith Lia Bool.
From stdpp Require Import base option list strings.

Set Default Proof Using "Type".

(** ** Machine integers *)

Definition int_min : Z := (- 2 ^ 63)%Z.
Definition int_max : Z := (2 ^ 63 - 1)%Z.

(** Two's complement reduction of an exact result to [int]. *)
Definition wrap (x : Z) : Z := ((x + 2 ^ 63) mod 2 ^ 64 - 2 ^ 63)%Z.

Definition int_mul (x y : Z) : Z := wrap (x * y).
Definition int_sub (x y : Z) : Z := wrap (x - y).

(** [bufferSizeLimit = 1000000.0] *)
Definition bufferSizeLimit : Z := 1000000%Z.

(** [defaultWorker = 3] *)
Definition defaultWorker : Z := 3%Z.

(** [maxAlloc] of the Go runtime, the size no allocation may exceed: [2^48]
    bytes on a 64-bit platform with 48-bit heap addresses (amd64, arm64). *)
Definition maxAlloc : Z := (2 ^ 48)%Z.

(** [make([]*worker, n)] returns: the length is not negative and [n]
    pointers of 8 bytes do not exceed [maxAlloc]; otherwise [make] panics
    ([makeslice: len out of range]) before it allocates. *)
Definition make_workers_ok (n : Z) : bool := (0 <=? n)%Z && (n * 8 <=? maxAlloc)%Z.

(** [int(math.Min(float64(x), bufferSizeLimit))].  For [0 <= x < 10^6] the
    trip through [float64] is exact, above it the minimum is the limit, and
    a negative [x] stays negative (its rounding to 53 bits does not matter:
    [make] panics on every negative size). *)
Definition bufsize (x : Z) : Z := Z.min x bufferSizeLimit.

(** ** Values *)

(** [error]: [None] is the nil error. *)
Definition error : Type := option string.

(** [func() error], the job handed to [Add]. *)
Definition Job : Type := unit -> error.

(** The closure [func() { ech <- job() }] built by [Add]. *)
Record closure : Type := Closure { c_ech : nat; c_job : Job }.

(** A [func()] value; [None] is nil. *)
Definition func : Type := option closure.

(** ** Channels *)

Record Chan (A : Type) : Type := MkChan {
  cap : Z;
  buf : list A;
  closed : bool
}.
Arguments MkChan {A} _ _ _.
Arguments cap {A} _.
Arguments buf {A} _.
Arguments closed {A} _.

(** [make(chan A, size)]: panics ([None]) on a negative size. *)
Definition make_chan {A : Type} (size : Z) : option (Chan A) :=
  if (size <? 0)%Z then None else Some (MkChan size [] false).

Inductive sent (A : Type) : Type :=
| SendOk (c : Chan A)
| SendBlocks
| SendPanics.
Arguments SendOk {A} _.
Arguments SendBlocks {A}.
Arguments SendPanics {A}.

(** [c <- x] with no receiver waiting: panics on a closed channel, proceeds
    while the buffer has room, suspends otherwise.  On a buffered channel
    that is all there is: a receiver only waits while the buffer is empty.
    An unbuffered channel (capacity 0) hands a value to a receiver that is
    already waiting; that hand-over is not modelled, so what is stated of a
    send that suspends is stated for buffered channels. *)
Definition chan_send {A : Type} (x : A) (c : Chan A) : sent A :=
  if closed c then SendPanics
  else if (Z.of_nat (length (buf c)) <? cap c)%Z
       then SendOk (MkChan (cap c) (buf c ++ [x]) (closed c))
       else SendBlocks.

Inductive received (A : Type) : Type :=
| RecvOk (x : A) (c : Chan A)
| RecvClosed
| RecvBlocks.
Arguments RecvOk {A} _ _.
Arguments RecvClosed {A}.
Arguments RecvBlocks {A}.

(** [<-c] with no sender waiting: the head of the buffer, the zero value at
    once when the channel is closed and drained, suspension otherwise. *)
Definition chan_recv {A : Type} (c : Chan A) : received A :=
  match buf c with
  | x :: rest => RecvOk x (MkChan (cap c) rest (closed c))
  | [] => if closed c then RecvClosed else RecvBlocks
  end.

(** ** Contexts *)

Inductive ctxref : Type :=
| Background
| Derived (i : nat).

Record Ctx : Type := MkCtx { parent : ctxref; cancelled : bool }.

(** ** Heap objects *)

Record worker : Type := MkWorker {
  dis : nat;
  kill : Chan unit;
  wrunning : bool
}.

Record Dispatcher : Type := MkDispatcher {
  running : bool;
  scaling : bool;
  resizing : bool;
  queue : list func;
  qin : nat;
  qout : nat;
  wg : Z;
  workerCount : Z;
  workers : list nat;
  ctx : ctxref;
  cancel : option nat
}.

(** The branch a [select] takes when several are ready. *)
Inductive pick : Type := PickKill | PickDone | PickJob.

(** Goroutines, each at the head of its loop. *)
Inductive Proc : Type :=
| PWorker (w : nat) (c : ctxref)
| PDrainIn (d old : nat) (tmpQueue : list func)
| PDrainOut (d old : nat) (tmpQueue : list func)
| PRelay (d : nat)
| PRelaySend (d out : nat) (job : func)
| PObserver (d : nat)
| PExit.

Record State : Type := MkState {
  diss : list Dispatcher;
  wkrs : list worker;
  chans : list (Chan func);
  echs : list (Chan error);
  ctxs : list Ctx;
  procs : list Proc;
  log : list error;
  instance : nat;
  once : bool
}.

(** ** Outcomes and sequencing *)

Inductive Res (A : Type) : Type :=
| Ok (a : A) (s : State)
| Blocked (s : State)
| Panic (s : State).
Arguments Ok {A} _ _.
Arguments Blocked {A} _.
Arguments Panic {A} _.

Definition M (A : Type) : Type := State -> Res A.

Definition ret {A : Type} (a : A) : M A := fun s => Ok a s.

Definition bind {A B : Type} (m : M A) (k : A -> M B) : M B :=
  fun s => match m s with
           | Ok a s' => k a s'
           | Blocked s' => Blocked s'
           | Panic s' => Panic s'
           end.

Notation "'let!' x ':=' m 'in' k" := (bind m (fun x => k))
  (at level 10, x name, m at level 100, k at level 200).
Notation "m '>>' k" := (bind m (fun _ => k))
  (at level 90, right associativity).

(** The state an outcome was reached in. *)
Definition res_state {A : Type} (r : Res A) : State :=
  match r with Ok _ s => s | Blocked s => s | Panic s => s end.

Definition panic {A : Type} : M A := fun s => Panic s.
Definition block {A : Type} : M A := fun s => Blocked s.

(** ** Heap access *)

Definition set_diss (f : list Dispatcher -> list Dispatcher) (s : State) : State :=
  MkState (f (diss s)) (wkrs s) (chans s) (echs s) (ctxs s) (procs s) (log s)
          (instance s) (once s).
Definition set_wkrs (f : list worker -> list worker) (s : State) : State :=
  MkState (diss s) (f (wkrs s)) (chans s) (echs s) (ctxs s) (procs s) (log s)
          (instance s) (once s).
Definition set_chans (f : list (Chan func) -> list (Chan func)) (s : State) : State :=
  MkState (diss s) (wkrs s) (f (chans s)) (echs s) (ctxs s) (procs s) (log s)
          (instance s) (once s).
Definition set_echs (f : list (Chan error) -> list (Chan error)) (s : State) : State :=
  MkState (diss s) (wkrs s) (chans s) (f (echs s)) (ctxs s) (procs s) (log s)
          (instance s) (once s).
Definition set_ctxs (f : list Ctx -> list Ctx) (s : State) : State :=
  MkState (diss s) (wkrs s) (chans s) (echs s) (f (ctxs s)) (procs s) (log s)
          (instance s) (once s).
Definition set_procs (f : list Proc -> list Proc) (s : State) : State :=
  MkState (diss s) (wkrs s) (chans s) (echs s) (ctxs s) (f (procs s)) (log s)
          (instance s) (once s).
Definition set_log (f : list error -> list error) (s : State) : State :=
  MkState (diss s) (wkrs s) (chans s) (echs s) (ctxs s) (procs s) (f (log s))
          (instance s) (once s).
Definition set_instance (i : nat) (s : State) : State :=
  MkState (diss s) (wkrs s) (chans s) (echs s) (ctxs s) (procs s) (log s)
          i (once s).
Definition set_once (b : bool) (s : State) : State :=
  MkState (diss s) (wkrs s) (chans s) (echs s) (ctxs s) (procs s) (log s)
          (instance s) b.

(** Dereferencing a pointer that holds no object panics. *)
Definition getD (d : nat) : M Dispatcher :=
  fun s => match diss s !! d with Some dd => Ok dd s | None => Panic s end.
Definition modD (d : nat) (f : Dispatcher -> Dispatcher) : M unit :=
  let! dd := getD d in fun s => Ok tt (set_diss <[d := f dd]> s).
Definition getW (w : nat) : M worker :=
  fun s => match wkrs s !! w with Some ww => Ok ww s | None => Panic s end.
Definition modW (w : nat) (f : worker -> worker) : M unit :=
  let! ww := getW w in fun s => Ok tt (set_wkrs <[w := f ww]> s).

(** Field updates of a dispatcher. *)
Definition with_running (b : bool) (x : Dispatcher) : Dispatcher :=
  MkDispatcher b (scaling x) (resizing x) (queue x) (qin x) (qout x) (wg x)
               (workerCount x) (workers x) (ctx x) (cancel x).
Definition with_scaling (b : bool) (x : Dispatcher) : Dispatcher :=
  MkDispatcher (running x) b (resizing x) (queue x) (qin x) (qout x) (wg x)
               (workerCount x) (workers x) (ctx x) (cancel x).
Definition with_queue (q : list func) (x : Dispatcher) : Dispatcher :=
  MkDispatcher (running x) (scaling x) (resizing x) q (qin x) (qout x) (wg x)
               (workerCount x) (workers x) (ctx x) (cancel x).
Definition with_queues (i o : nat) (x : Dispatcher) : Dispatcher :=
  MkDispatcher (running x) (scaling x) (resizing x) (queue x) i o (wg x)
               (workerCount x) (workers x) (ctx x) (cancel x).
Definition with_wg (n : Z) (x : Dispatcher) : Dispatcher :=
  MkDispatcher (running x) (scaling x) (resizing x) (queue x) (qin x) (qout x) n
               (workerCount x) (workers x) (ctx x) (cancel x).
Definition with_workerCount (n : Z) (x : Dispatcher) : Dispatcher :=
  MkDispatcher (running x) (scaling x) (resizing x) (queue x) (qin x) (qout x) (wg x)
               n (workers x) (ctx x) (cancel x).
Definition with_workers (ws : list nat) (x : Dispatcher) : Dispatcher :=
  MkDispatcher (running x) (scaling x) (resizing x) (queue x) (qin x) (qout x) (wg x)
               (workerCount x) ws (ctx x) (cancel x).
Definition with_ctx (c : ctxref) (k : option nat) (x : Dispatcher) : Dispatcher :=
  MkDispatcher (running x) (scaling x) (resizing x) (queue x) (qin x) (qout x) (wg x)
               (workerCount x) (workers x) c k.

Definition with_wrunning (b : bool) (x : worker) : worker :=
  MkWorker (dis x) (kill x) b.
Definition with_kill (k : Chan unit) (x : worker) : worker :=
  MkWorker (dis x) k (wrunning x).

(** ** Primitive operations *)

(** [make(chan func(), size)] *)
Definition make_func_chan (size : Z) : M nat :=
  fun s => match make_chan size with
           | Some c => Ok (length (chans s)) (set_chans (fun l => l ++ [c]) s)
           | None => Panic s
           end.

(** [make(chan error, size)] *)
Definition make_err_chan (size : Z) : M nat :=
  fun s => match make_chan size with
           | Some c => Ok (length (echs s)) (set_echs (fun l => l ++ [c]) s)
           | None => Panic s
           end.

(** [ch <- job] on a [chan func()] *)
Definition send_func (ch : nat) (job : func) : M unit :=
  fun s => match chans s !! ch with
           | None => Panic s
           | Some c =>
               match chan_send job c with
               | SendOk c' => Ok tt (set_chans <[ch := c']> s)
               | SendBlocks => Blocked s
               | SendPanics => Panic s
               end
           end.

(** [ech <- e] on a [chan error] *)
Definition send_err (ch : nat) (e : error) : M unit :=
  fun s => match echs s !! ch with
           | None => Panic s
           | Some c =>
               match chan_send e c with
               | SendOk c' => Ok tt (set_echs <[ch := c']> s)
               | SendBlocks => Blocked s
               | SendPanics => Panic s
               end
           end.

(** [&worker{dis: d, kill: make(chan struct{}, 1), running: false}] *)
Definition new_worker (d : nat) : M nat :=
  fun s => Ok (length (wkrs s))
              (set_wkrs (fun l => l ++ [MkWorker d (MkChan 1 [] false) false]) s).

(** [go f()] *)
Definition spawn (p : Proc) : M unit :=
  fun s => Ok tt (set_procs (fun l => l ++ [p]) s).

(** [d.wg.Add(delta)]: the counter moves first, a negative counter panics. *)
Definition wg_add (d : nat) (delta : Z) : M unit :=
  modD d (fun x => with_wg (wg x + delta) x) >>
  let! dd := getD d in
  if (wg dd <? 0)%Z then panic else ret tt.

(** [d.wg.Done()] *)
Definition wg_done (d : nat) : M unit := wg_add d (-1).

(** [d.wg.Wait()] *)
Definition wg_wait (d : nat) : M unit :=
  let! dd := getD d in
  if (wg dd =? 0)%Z then ret tt else block.

(** [context.WithCancel(c)] *)
Definition with_cancel (c : ctxref) : M nat :=
  fun s => Ok (length (ctxs s)) (set_ctxs (fun l => l ++ [MkCtx c false]) s).

(** The cancel function returned by [context.WithCancel]. *)
Definition cancel_ctx (i : nat) : M unit :=
  fun s => Ok tt (set_ctxs (fun l => match l !! i with
                                      | Some x => <[i := MkCtx (parent x) true]> l
                                      | None => l
                                      end) s).

Fixpoint done_fuel (fuel : nat) (cs : list Ctx) (c : ctxref) : bool :=
  match c with
  | Background => false
  | Derived i =>
      match cs !! i with
      | None => false
      | Some x =>
          cancelled x ||
          match fuel with
          | O => false
          | S fuel' => done_fuel fuel' cs (parent x)
          end
      end
  end.

(** [ctx.Done()] is ready: the context or one of its ancestors was cancelled. *)
Definition ctx_done (s : State) (c : ctxref) : bool :=
  done_fuel (length (ctxs s)) (ctxs s) c.

(** ** Workers *)

(** [func (w *worker) start(ctx context.Context)] *)
Definition start (w : nat) (c : ctxref) : M unit :=
  modW w (with_wrunning true) >>
  spawn (PWorker w c).

(** [func (w *worker) stop()] *)
Definition stop (w : nat) : M unit :=
  let! ww := getW w in
  match chan_send tt (kill ww) with
  | SendOk k => modW w (with_kill k) >> modW w (with_wrunning false)
  | SendBlocks => block
  | SendPanics => panic
  end.

(** Calling a [func()] value built by [Add]: [ech <- job()]. *)
Definition call (c : closure) : M unit :=
  let e := c_job c tt in
  (fun s => Ok tt (set_log (fun l => l ++ [e]) s)) >>
  send_err (c_ech c) e.

(** [func (w *worker) run(job func())].  The deferred [Done] runs when the
    body returns; a body that suspends has not returned. *)
Definition run (w : nat) (job : func) : M unit :=
  let! ww := getW w in
  match job with
  | Some c => call c
  | None => ret tt
  end >>
  wg_done (dis ww).

(** ** Construction *)

(** [func newDispatcher(maxWorker int) *Dispatcher].  The fields of the
    literal are evaluated in order: the two channels are made before the
    worker slice, and [make([]*worker, maxWorker)] panics on a length that
    is out of range.  The [maxWorker] nil entries of the slice are all
    overwritten by [New] before the dispatcher is returned; the model lets
    [New] build the slice entry by entry. *)
Definition newDispatcher (maxWorker : Z) : M nat :=
  let! i := make_func_chan (bufsize (int_mul maxWorker 100)) in
  let! o := make_func_chan (bufsize (int_mul maxWorker 100)) in
  if make_workers_ok maxWorker
  then fun s => Ok (length (diss s))
                   (set_diss (fun l => l ++ [MkDispatcher false false false [] i o 0
                                                        maxWorker [] Background None]) s)
  else panic.

(** [d.workers = append(d.workers, &worker{...})], [k] times. *)
Fixpoint grow (k : nat) (d : nat) : M unit :=
  match k with
  | O => ret tt
  | S k' =>
      let! w := new_worker d in
      modD d (fun x => with_workers (workers x ++ [w]) x) >>
      grow k' d
  end.

(** [func New(maxWorker int) *Dispatcher] *)
Definition New (maxWorker : Z) : M nat :=
  let maxWorker := if (maxWorker <? 1)%Z then 1%Z else maxWorker in
  let! d := newDispatcher maxWorker in
  grow (Z.to_nat maxWorker) d >>
  ret d.

(** ** Lifecycle *)

(** The loop [for i, w := range d.workers] of [StartWithContext]. *)
Fixpoint start_all (ws : list nat) (c : ctxref) : M unit :=
  match ws with
  | [] => ret tt
  | w :: rest =>
      let! ww := getW w in
      (if wrunning ww then ret tt else start w c) >>
      start_all rest c
  end.

(** [func (d *Dispatcher) StartWithContext(c context.Context) *Dispatcher] *)
Definition StartWithContext (d : nat) (c : ctxref) : M nat :=
  let! dd := getD d in
  let! i := with_cancel c in
  modD d (with_ctx (Derived i) (Some i)) >>
  start_all (workers dd) (Derived i) >>
  modD d (with_running true) >>
  ret d.

(** [func (d *Dispatcher) Start() *Dispatcher] *)
Definition Start (d : nat) : M nat := StartWithContext d Background.

(** [func (d *Dispatcher) Add(job func() error) chan error] *)
Definition Add (d : nat) (job : Job) : M nat :=
  let! ech := make_err_chan 1 in
  wg_add d 1 >>
  let! dd := getD d in
  send_func (qin dd) (Some (Closure ech job)) >>
  ret ech.

(** [func (d *Dispatcher) Wait()] *)
Definition Wait (d : nat) : M unit :=
  let! dd := getD d in
  if running dd then wg_wait d else ret tt.

(** [func (d *Dispatcher) Stop(immediately bool) *Dispatcher].  The
    assignment [d = New(len(d.workers))] rebinds the receiver variable; the
    object the caller's handle points to is not written by it. *)
Definition Stop (d : nat) (immediately : bool) : M nat :=
  let! dd := getD d in
  if negb (running dd) then ret d
  else
    (if negb immediately then Wait d else ret tt) >>
    match cancel dd with
    | Some i => cancel_ctx i
    | None => panic
    end >>
    modD d (with_running false) >>
    let! dd := getD d in
    let! d' := New (Z.of_nat (length (workers dd))) in
    ret d'.

(** ** Scaling *)

(** [func (d *Dispatcher) ScaleBuffer(size int) *Dispatcher].  Both [make]
    calls run with the mutex held.  Each of the two goroutines starts at the
    head of its [for job := range old] loop with an empty [tmpQueue]. *)
Definition ScaleBuffer (d : nat) (size : Z) : M nat :=
  let size := bufsize (int_mul size 100) in
  let! dd := getD d in
  let oldin := qin dd in
  let oldout := qout dd in
  let! i := make_func_chan size in
  let! o := make_func_chan size in
  modD d (with_queues i o) >>
  wg_add d 1 >>
  spawn (PDrainIn d oldin []) >>
  wg_add d 1 >>
  spawn (PDrainOut d oldout []) >>
  ret d.

(** [func (d *Dispatcher) UpScale(workerCount int) *Dispatcher].  The loop
    [for { if diff < 1 { break }; append; diff-- }] runs [diff] times. *)
Definition UpScale (d : nat) (workerCount : Z) : M nat :=
  ScaleBuffer d (int_mul workerCount 100) >>
  modD d (with_scaling true) >>
  let! dd := getD d in
  let diff := int_sub workerCount (Z.of_nat (length (workers dd))) in
  grow (Z.to_nat diff) d >>
  modD d (with_workerCount workerCount) >>
  let! dd := getD d in
  (if running dd then Start d >> ret tt else ret tt) >>
  modD d (with_scaling false) >>
  ret d.

(** The loop of [DownScale]: [k] is the number of iterations left ([diff]),
    [idx] the rotating index.  [append(d.workers[:idx], d.workers[idx+1:]...)]
    deletes entry [idx] and panics when [idx] is out of range. *)
Fixpoint shrink (k : nat) (d : nat) (idx : nat) : M unit :=
  match k with
  | O => ret tt
  | S k' =>
      let! dd := getD d in
      (if running dd then
         match workers dd !! idx with
         | None => panic
         | Some w =>
             let! ww := getW w in
             if wrunning ww then stop w else ret tt
         end
       else ret tt) >>
      (if (idx <? length (workers dd))%nat
       then modD d (with_workers (delete idx (workers dd)))
       else panic) >>
      let! dd := getD d in
      shrink k' d (if (length (workers dd) <=? S idx)%nat then O else S idx)
  end.

(** [func (d *Dispatcher) DownScale(workerCount int) *Dispatcher] *)
Definition DownScale (d : nat) (workerCount : Z) : M nat :=
  ScaleBuffer d (int_mul workerCount 100) >>
  modD d (with_scaling true) >>
  let! dd := getD d in
  let diff := int_sub (Z.of_nat (length (workers dd))) workerCount in
  shrink (Z.to_nat diff) d 0 >>
  modD d (with_workerCount workerCount) >>
  modD d (with_scaling false) >>
  ret d.

(** [func (d *Dispatcher) AutoScale() *Dispatcher] *)
Definition AutoScale (d : nat) : M nat :=
  let! dd := getD d in
  if (workerCount dd <? Z.of_nat (length (workers dd)))%Z
  then DownScale d (workerCount dd)
  else if (Z.of_nat (length (workers dd)) <? workerCount dd)%Z
       then UpScale d (workerCount dd)
       else ret d.

(** [func (d *Dispatcher) GetWorkerCount() int]: the loop spins until the
    condition holds; nothing in the call changes it. *)
Definition GetWorkerCount (d : nat) : M Z :=
  let! dd := getD d in
  if negb (scaling dd) && (Z.of_nat (length (workers dd)) =? workerCount dd)%Z
  then ret (Z.of_nat (length (workers dd)))
  else block.

(** [func (d *Dispatcher) Reset() *Dispatcher] *)
Definition Reset (d : nat) : M nat :=
  Stop d true >>
  let! dd := getD d in
  New (workerCount dd).

(** [func (d *Dispatcher) SafeReset() *Dispatcher] *)
Definition SafeReset (d : nat) : M nat :=
  let! dd := getD d in
  if negb (scaling dd) then Reset d else block.

(** [func (d *Dispatcher) QueueRunner() *Dispatcher] *)
Definition QueueRunner (d : nat) : M nat := spawn (PRelay d) >> ret d.

(** [func (d *Dispatcher) StartWorkerObserver() *Dispatcher] *)
Definition StartWorkerObserver (d : nat) : M nat := spawn (PObserver d) >> ret d.

(** ** The package-level instance *)

Definition empty_state : State := MkState [] [] [] [] [] [] [] 0 false.

(** [func init() { instance = New(defaultWorker) }] *)
Definition init_state : State :=
  match New defaultWorker empty_state with
  | Ok d s => set_instance d s
  | Blocked s => s
  | Panic s => s
  end.

Definition get_instance : M nat := fun s => Ok (instance s) s.

(** [func Get(maxWorker int) *Dispatcher] *)
Definition Get (maxWorker : Z) : M nat :=
  let maxWorker := if (maxWorker <? 1)%Z then 1%Z else maxWorker in
  (fun s => if once s then Ok tt s
            else (let! d := New maxWorker in
                  fun s' => Ok tt (set_once true (set_instance d s'))) s) >>
  let! inst := get_instance in
  modD inst (with_workerCount maxWorker) >>
  let! dd := getD inst in
  (if (Z.of_nat (length (workers dd)) =? maxWorker)%Z
   then ret tt else AutoScale inst >> ret tt) >>
  get_instance.

(** [func GetInstance() *Dispatcher] *)
Definition GetInstance : M nat := Get defaultWorker.

(** The package-level functions forward to [instance]. *)
Module Package.
Definition UpScale (workerCount : Z) : M nat :=
  let! inst := get_instance in UpScale inst workerCount.
Definition DownScale (workerCount : Z) : M nat :=
  let! inst := get_instance in DownScale inst workerCount.
Definition AutoScale : M nat := let! inst := get_instance in AutoScale inst.
Definition Start : M nat := let! inst := get_instance in Start inst.
Definition Add (job : Job) : M nat := let! inst := get_instance in Add inst job.
Definition Wait : M unit := let! inst := get_instance in Wait inst.
Definition Stop (immediately : bool) : M nat :=
  let! inst := get_instance in Stop inst immediately.
Definition Reset : M nat :=
  let! inst := get_instance in
  let! d := Reset inst in
  (fun s => Ok tt (set_instance d s)) >> ret d.
End Package.

(** ** Goroutines *)

Definition set_proc (i : nat) (p : Proc) : M unit :=
  fun s => Ok tt (set_procs <[i := p]> s).

(** [<-ch] on a [chan func()]: [Some job] for a received value, [None] when
    the channel is closed and drained. *)
Definition recv_func (ch : nat) : M (option func) :=
  fun s => match chans s !! ch with
           | None => Panic s
           | Some c =>
               match chan_recv c with
               | RecvOk job c' => Ok (Some job) (set_chans <[ch := c']> s)
               | RecvClosed => Ok None s
               | RecvBlocks => Blocked s
               end
           end.

(** One round of the [select] in the goroutine of [worker.start]. *)
Definition step_worker (i w : nat) (c : ctxref) (p : pick) : M unit :=
  match p with
  | PickKill =>
      let! ww := getW w in
      match chan_recv (kill ww) with
      | RecvOk _ k => modW w (with_kill k) >> set_proc i PExit
      | RecvClosed => set_proc i PExit
      | RecvBlocks => block
      end
  | PickDone =>
      fun s => if ctx_done s c then set_proc i PExit s else Blocked s
  | PickJob =>
      let! ww := getW w in
      let! dd := getD (dis ww) in
      let! r := recv_func (qout dd) in
      run w (match r with Some job => job | None => None end)
  end.

(** One round of [for job := range oldin], and what follows the loop. *)
Definition step_drain_in (i d old : nat) (tmpQueue : list func) : M unit :=
  let! r := recv_func old in
  match r with
  | Some job => set_proc i (PDrainIn d old (tmpQueue ++ [job]))
  | None =>
      modD d (fun x => with_queue (queue x ++ tmpQueue) x) >>
      wg_done d >>
      set_proc i PExit
  end.

(** One round of [for job := range oldout], and what follows the loop. *)
Definition step_drain_out (i d old : nat) (tmpQueue : list func) : M unit :=
  let! r := recv_func old in
  match r with
  | Some job => set_proc i (PDrainOut d old (tmpQueue ++ [job]))
  | None =>
      modD d (fun x => with_queue (tmpQueue ++ queue x) x) >>
      wg_done d >>
      set_proc i PExit
  end.

(** The first [select] of [QueueRunner]. *)
Definition step_relay (i d : nat) (p : pick) : M unit :=
  let! dd := getD d in
  match p with
  | PickKill => block
  | PickDone =>
      fun s => if ctx_done s (ctx dd) then set_proc i PExit s else Blocked s
  | PickJob =>
      let! r := recv_func (qin dd) in
      modD d (fun x => with_queue
                         (queue x ++ [match r with Some job => job | None => None end]) x) >>
      let! dd := getD d in
      match queue dd with
      | [] => ret tt
      | job :: _ => set_proc i (PRelaySend d (qout dd) job)
      end
  end.

(** The second [select] of [QueueRunner]: [d.qout <- d.queue[0]], its channel
    and value fixed when the [select] was entered. *)
Definition step_relay_send (i d out : nat) (job : func) : M unit :=
  send_func out job >>
  let! dd := getD d in
  match queue dd with
  | [] => panic
  | _ :: rest => modD d (with_queue rest)
  end >>
  set_proc i (PRelay d).

(** One round of the loop of [StartWorkerObserver]. *)
Definition step_observer (i d : nat) : M unit :=
  let! dd := getD d in
  fun s =>
    if ctx_done s (ctx dd) then set_proc i PExit s
    else if negb (workerCount dd =? Z.of_nat (length (workers dd)))%Z
            && negb (scaling dd)
         then (AutoScale d >> ret tt) s
         else Ok tt s.

(** Goroutine [i] takes one step. *)
Definition step (i : nat) (p : pick) : M unit :=
  fun s =>
    match procs s !! i with
    | Some (PWorker w c) => step_worker i w c p s
    | Some (PDrainIn d old tmp) => step_drain_in i d old tmp s
    | Some (PDrainOut d old tmp) => step_drain_out i d old tmp s
    | Some (PRelay d) => step_relay i d p s
    | Some (PRelaySend d out job) => step_relay_send i d out job s
    | Some (PObserver d) => step_observer i d s
    | Some PExit => Ok tt s
    | None => Ok tt s
    end.

(** ** Runs of the whole program *)

(** What a program does next: a call of the public interface by some
    goroutine of the caller, or a step of a goroutine of the pool. *)
Inductive Action : Type :=
| CallNew (maxWorker : Z)
| CallGet (maxWorker : Z)
| CallStart (d : nat) (c : ctxref)
| CallStop (d : nat) (immediately : bool)
| CallAdd (d : nat) (job : Job)
| CallWait (d : nat)
| CallUpScale (d : nat) (workerCount : Z)
| CallDownScale (d : nat) (workerCount : Z)
| CallAutoScale (d : nat)
| CallReset (d : nat)
| CallQueueRunner (d : nat)
| CallObserver (d : nat)
| Step (i : nat) (p : pick).

Definition forget {A : Type} (m : M A) : M unit := m >> ret tt.

Definition act (a : Action) : M unit :=
  match a with
  | CallNew n => forget (New n)
  | CallGet n => forget (Get n)
  | CallStart d c => forget (StartWithContext d c)
  | CallStop d b => forget (Stop d b)
  | CallAdd d job => forget (Add d job)
  | CallWait d => Wait d
  | CallUpScale d n => forget (UpScale d n)
  | CallDownScale d n => forget (DownScale d n)
  | CallAutoScale d => forget (AutoScale d)
  | CallReset d => forget (Reset d)
  | CallQueueRunner d => forget (QueueRunner d)
  | CallObserver d => forget (StartWorkerObserver d)
  | Step i p => step i p
  end.

(** A run: the actions in order.  A suspended call leaves its effects and
    the run goes on with the other goroutines; a panic ends the program. *)
Fixpoint exec (l : list Action) (s : State) : State :=
  match l with
  | [] => s
  | a :: rest =>
      match act a s with
      | Ok _ s' => exec rest s'
      | Blocked s' => exec rest s'
      | Panic s' => s'
      end
  end.

(** ** The demo program *)

(** The loop of a caller: [for _, job := range jobs { d.Add(job) }]. *)
Fixpoint add_all (d : nat) (jobs : list Job) : M unit :=
  match jobs with
  | [] => ret tt
  | job :: rest => Add d job >> add_all d rest
  end.

(** [func main()] of the demo as far as [dispatcher.Start()]; [jobs] are the
    closures its loop adds. *)
Definition main_to_Start (jobs : list Job) : M nat :=
  let! dispatcher := Get 3 in
  StartWorkerObserver dispatcher >>
  add_all dispatcher jobs >>
  Start dispatcher.

(** * Specification vocabulary

    The states the calls return in, the pure counterparts of their loops,
    and the predicates the theorems are stated with. *)

(** The largest worker count [New] accepts: [2^45], the longest slice of
    pointers within [maxAlloc].  Its buffer size [n * 100] is an [int]. *)
Definition max_new : Z := 35184372088832%Z.

(** The largest worker count whose buffer size [n * 100 * 100] is an [int]. *)
Definition max_scale : Z := 922337203685477%Z.

(** The worker built by [New] and [UpScale]. *)
Definition fresh_worker (d : nat) : worker := MkWorker d (MkChan 1 [] false) false.

(** The state [New] returns in: one more dispatcher, two more channels and
    [max n 1] more workers. *)
Definition New_state (n : Z) (s : State) : State :=
  let m := Z.max n 1 in
  MkState (diss s ++ [MkDispatcher false false false []
                        (length (chans s)) (S (length (chans s))) 0 m
                        (seq (length (wkrs s)) (Z.to_nat m)) Background None])
    (wkrs s ++ replicate (Z.to_nat m) (fresh_worker (length (diss s))))
    (chans s ++ [MkChan (Z.min (m * 100) bufferSizeLimit) [] false;
                 MkChan (Z.min (m * 100) bufferSizeLimit) [] false])
    (echs s) (ctxs s) (procs s) (log s) (instance s) (once s).

(** The state [ScaleBuffer] returns in: the queue pair of [d] replaced by two
    new channels of capacity [size], the counter raised by two, and the two
    draining goroutines holding the old channels. *)
Definition ScaleBuffer_state (d : nat) (size : Z) (dd : Dispatcher) (s : State) : State :=
  MkState
    (<[d := with_wg (wg dd + 2)
              (with_queues (length (chans s)) (S (length (chans s))) dd)]> (diss s))
    (wkrs s)
    (chans s ++ [MkChan size [] false; MkChan size [] false])
    (echs s) (ctxs s)
    (procs s ++ [PDrainIn d (qin dd) []; PDrainOut d (qout dd) []])
    (log s) (instance s) (once s).

(** The worker heap after the loop of [StartWithContext] over [ws]. *)
Fixpoint mark (ws : list nat) (l : list worker) : list worker :=
  match ws with
  | [] => l
  | w :: rest =>
      match l !! w with
      | Some ww =>
          if wrunning ww then mark rest l
          else mark rest (<[w := with_wrunning true ww]> l)
      | None => l
      end
  end.

(** The workers that loop starts, in order: those of [ws] not yet running. *)
Fixpoint to_start (ws : list nat) (l : list worker) : list nat :=
  match ws with
  | [] => []
  | w :: rest =>
      match l !! w with
      | Some ww =>
          if wrunning ww then to_start rest l
          else w :: to_start rest (<[w := with_wrunning true ww]> l)
      | None => []
      end
  end.

Definition allocated (ws : list nat) (l : list worker) : Prop :=
  forall w, w ∈ ws -> is_Some (l !! w).

(** The state [StartWithContext] returns in. *)
Definition Start_state (d : nat) (c : ctxref) (dd : Dispatcher) (s : State) : State :=
  let i := length (ctxs s) in
  MkState (<[d := with_running true (with_ctx (Derived i) (Some i) dd)]> (diss s))
    (mark (workers dd) (wkrs s)) (chans s) (echs s)
    (ctxs s ++ [MkCtx c false])
    (procs s ++ map (fun w => PWorker w (Derived i)) (to_start (workers dd) (wkrs s)))
    (log s) (instance s) (once s).

(** What every dispatcher built by this package satisfies: the WaitGroup
    counter is not negative, the length of the worker slice is an [int],
    every worker of the set is allocated with an empty [kill] channel of
    capacity one, a running dispatcher holds the cancel function of its
    lifecycle token, and the two queues are allocated. *)
Definition wf_dis (s : State) (d : nat) (dd : Dispatcher) : Prop :=
  diss s !! d = Some dd /\
  (0 <= wg dd)%Z /\
  (Z.of_nat (length (workers dd)) <= int_max)%Z /\
  (forall w, w ∈ workers dd ->
     exists ww, wkrs s !! w = Some ww /\ kill ww = MkChan 1 [] false) /\
  (running dd = true -> is_Some (cancel dd)) /\
  is_Some (chans s !! qin dd) /\ is_Some (chans s !! qout dd).

(** The dispatcher record of [d] when the loop of [UpScale] is over and the
    target count is written. *)
Definition UpScale_record (n : Z) (dd : Dispatcher) (s : State) : Dispatcher :=
  with_workerCount n
    (with_workers
       (workers dd ++
        seq (length (wkrs s)) (Z.to_nat (n - Z.of_nat (length (workers dd)))))
       (with_scaling true
          (with_wg (wg dd + 2)
             (with_queues (length (chans s)) (S (length (chans s))) dd)))).

(** The state at that point. *)
Definition UpScale_grown (d : nat) (n : Z) (dd : Dispatcher) (s : State) : State :=
  MkState (<[d := UpScale_record n dd s]> (diss s))
    (wkrs s ++ replicate (Z.to_nat (n - Z.of_nat (length (workers dd))))
                 (fresh_worker d))
    (chans s ++ [MkChan (Z.min (n * 10000) bufferSizeLimit) [] false;
                 MkChan (Z.min (n * 10000) bufferSizeLimit) [] false])
    (echs s) (ctxs s)
    (procs s ++ [PDrainIn d (qin dd) []; PDrainOut d (qout dd) []])
    (log s) (instance s) (once s).

(** The state [UpScale] returns in. *)
Definition UpScale_state (d : nat) (n : Z) (dd : Dispatcher) (s : State) : State :=
  if running dd
  then set_diss
         <[d := with_scaling false
                  (with_running true
                     (with_ctx (Derived (length (ctxs s))) (Some (length (ctxs s)))
                        (UpScale_record n dd s)))]>
         (Start_state d Background (UpScale_record n dd s) (UpScale_grown d n dd s))
  else set_diss <[d := with_scaling false (UpScale_record n dd s)]>
         (UpScale_grown d n dd s).

(** The index after one removal: [idx++; if idx >= len(d.workers) { idx = 0 }]. *)
Definition next_idx (len idx : nat) : nat :=
  if (len <=? S idx)%nat then O else S idx.

(** The worker set after [k] rounds of the loop of [DownScale] from [idx]. *)
Fixpoint kept (k idx : nat) (l : list nat) : list nat :=
  match k with
  | O => l
  | S k' => kept k' (next_idx (length (delete idx l)) idx) (delete idx l)
  end.

(** The workers those rounds remove, in order. *)
Fixpoint removed (k idx : nat) (l : list nat) : list nat :=
  match k with
  | O => []
  | S k' =>
      match l !! idx with
      | Some w => w :: removed k' (next_idx (length (delete idx l)) idx) (delete idx l)
      | None => []
      end
  end.

(** A worker after [stop]: one signal in [kill], the flag cleared. *)
Definition stopped (ww : worker) : worker :=
  MkWorker (dis ww) (MkChan 1 [tt] false) false.

(** The worker heap after [stop] on each worker of [ws] flagged running. *)
Fixpoint stop_all (ws : list nat) (l : list worker) : list worker :=
  match ws with
  | [] => l
  | w :: rest =>
      match l !! w with
      | Some ww =>
          if wrunning ww then stop_all rest (<[w := stopped ww]> l)
          else stop_all rest l
      | None => l
      end
  end.

(** Every worker of [ws] is allocated and, when flagged running, has room in
    its [kill] channel. *)
Definition stoppable (ws : list nat) (l : list worker) : Prop :=
  forall w, w ∈ ws ->
    exists ww, l !! w = Some ww /\ (wrunning ww = true -> kill ww = MkChan 1 [] false).

(** The state [DownScale] returns in. *)
Definition DownScale_state (d : nat) (n : Z) (dd : Dispatcher) (s : State) : State :=
  let k := Z.to_nat (Z.of_nat (length (workers dd)) - n) in
  MkState
    (<[d := with_scaling false
              (with_workerCount n
                 (with_workers (kept k 0 (workers dd))
                    (with_wg (wg dd + 2)
                       (with_queues (length (chans s)) (S (length (chans s))) dd))))]>
       (diss s))
    (if running dd then stop_all (removed k 0 (workers dd)) (wkrs s) else wkrs s)
    (chans s ++ [MkChan (Z.min (n * 10000) bufferSizeLimit) [] false;
                 MkChan (Z.min (n * 10000) bufferSizeLimit) [] false])
    (echs s) (ctxs s)
    (procs s ++ [PDrainIn d (qin dd) []; PDrainOut d (qout dd) []])
    (log s) (instance s) (once s).

(** A dispatcher built with five workers and started. *)
Definition five_started : State :=
  Start_state 0 Background
    (MkDispatcher false false false [] 0 1 0 5 [0; 1; 2; 3; 4] Background None)
    (New_state 5 empty_state).

(** The instance of [init], started and then stopped: the state the
    caller's handle 0 is left in. *)
Definition stopped_handle : State :=
  exec [CallStart 0 Background; CallStop 0 true] init_state.

(** The state the receiver of [Stop] is left in: the token cancelled, the
    flag cleared, nothing else written. *)
Definition Stop_handle_state (d i : nat) (dd : Dispatcher) (s : State) : State :=
  set_diss <[d := with_running false dd]>
    (set_ctxs (fun l => match l !! i with
                        | Some x => <[i := MkCtx (parent x) true]> l
                        | None => l
                        end) s).

(** The instance of [init], started: three running workers. *)
Definition three_started : State :=
  Start_state 0 Background
    (MkDispatcher false false false [] 0 1 0 3 [0; 1; 2] Background None)
    init_state.

(** The state [Add] returns in. *)
Definition Add_state (d : nat) (job : Job) (dd : Dispatcher) (c : Chan func)
    (s : State) : State :=
  MkState (<[d := with_wg (wg dd + 1) dd]> (diss s)) (wkrs s)
    (<[qin dd := MkChan (cap c)
                   (buf c ++ [Some (Closure (length (echs s)) job)]) (closed c)]>
       (chans s))
    (echs s ++ [MkChan 1 [] false]) (ctxs s) (procs s) (log s)
    (instance s) (once s).

(** The state [run] returns in after calling the closure of [Add]. *)
Definition run_state (e : nat) (job : Job) (d : nat) (dd : Dispatcher)
    (s : State) : State :=
  MkState (<[d := with_wg (wg dd - 1) dd]> (diss s)) (wkrs s) (chans s)
    (<[e := MkChan 1 [job tt] false]> (echs s)) (ctxs s) (procs s)
    (log s ++ [job tt]) (instance s) (once s).

(** A job that fails. *)
Definition failing_job : Job := fun _ => Some "boom"%string.

(** A dispatcher with one entry pending. *)
Definition one_pending : State :=
  Add_state 0 failing_job
    (MkDispatcher true false false [] 0 1 0 3 [0; 1; 2] (Derived 0) (Some 0))
    (MkChan 300 [] false) three_started.

Inductive drain_kind : Type := DrainIn | DrainOut.

(** Which draining loop a goroutine is in, if any: the kind of the loop, the
    dispatcher and the old channel it ranges over. *)
Definition drain_of (p : option Proc) : option (drain_kind * nat * nat) :=
  match p with
  | Some (PDrainIn d old _) => Some (DrainIn, d, old)
  | Some (PDrainOut d old _) => Some (DrainOut, d, old)
  | _ => None
  end.

(** No [chan func()] of the heap is closed. *)
Definition open_chans (s : State) : Prop :=
  forall i c, chans s !! i = Some c -> closed c = false.

(** From [s0] to [s]: no channel has been closed, and every goroutine that
    was in a draining loop is still in that loop. *)
Definition keeps (s0 s : State) : Prop :=
  open_chans s /\
  forall i k, drain_of (procs s0 !! i) = Some k -> drain_of (procs s !! i) = Some k.

(** [m] preserves [I], however the call ends. *)
Definition pres {A : Type} (I : State -> Prop) (m : M A) : Prop :=
  forall s, I s -> I (res_state (m s)).

(** Two jobs added to the instance of [init], then [UpScale(7)], then two
    rounds of the goroutine draining the old intake queue. *)
Definition two_jobs_drained : State :=
  exec [CallAdd 0 failing_job; CallAdd 0 failing_job; CallUpScale 0 7;
        Step 0 PickJob; Step 0 PickJob] init_state.

(** A worker count a caller passes. *)
Definition sane_count (n : Z) : Prop := (- max_scale <= n <= max_scale)%Z.

(** The worker counts of an action are in that range. *)
Definition sane (a : Action) : Prop :=
  match a with
  | CallNew n => sane_count n
  | CallGet n => sane_count n
  | CallUpScale _ n => sane_count n
  | CallDownScale _ n => sane_count n
  | _ => True
  end.

(** The workers [ws] are allocated, point back to [d] and have an empty
    [kill] channel. *)
Definition owned (s : State) (d : nat) (ws : list nat) : Prop :=
  forall w, w ∈ ws ->
    exists ww, wkrs s !! w = Some ww /\ dis ww = d /\ kill ww = MkChan 1 [] false.

(** The invariant of one dispatcher of the heap. *)
Definition wf_entry (s : State) (d : nat) (dd : Dispatcher) : Prop :=
  (0 <= wg dd)%Z /\
  (Z.of_nat (length (workers dd)) <= max_scale)%Z /\
  sane_count (workerCount dd) /\
  NoDup (workers dd) /\
  owned s d (workers dd) /\
  (running dd = true -> is_Some (cancel dd)) /\
  is_Some (chans s !! qin dd) /\ is_Some (chans s !! qout dd).

(** The invariant of the heap. *)
Definition wf_state (s : State) : Prop :=
  open_chans s /\ forall d dd, diss s !! d = Some dd -> wf_entry s d dd.

(** The states a program reaches from [init] by actions with sane worker
    counts; a panic ends it. *)
Inductive reachable : State -> Prop :=
| reach_init : reachable init_state
| reach_ok (a : Action) (s s' : State) :
    reachable s -> sane a -> act a s = Ok tt s' -> reachable s'
| reach_blocked (a : Action) (s s' : State) :
    reachable s -> sane a -> act a s = Blocked s' -> reachable s'.

(** [m] takes a state satisfying [P] to a result and state satisfying [Q],
    or suspends in a well-formed state, or panics. *)
Definition triple {A : Type} (P : State -> Prop) (m : M A)
    (Q : A -> State -> Prop) : Prop :=
  forall s, P s ->
    match m s with
    | Ok a s' => Q a s'
    | Blocked s' => wf_state s'
    | Panic _ => True
    end.

(** A call that leaves the invariant standing. *)
Definition inv {A : Type} (m : M A) : Prop := triple wf_state m (fun _ => wf_state).

(** A worker keeps its owner and the contents of its [kill] channel. *)
Definition same_worker (l l' : list worker) (w : nat) : Prop :=
  forall ww, l !! w = Some ww ->
    exists ww', l' !! w = Some ww' /\ dis ww' = dis ww /\ kill ww' = kill ww.

(** The closures [Add] builds for [jobs], the first with completion channel [e]. *)
Fixpoint closures (e : nat) (jobs : list Job) : list func :=
  match jobs with
  | [] => []
  | job :: rest => Some (Closure e job) :: closures (S e) rest
  end.

(** The state [add_all] returns in. *)
Definition add_all_state (d : nat) (jobs : list Job) (dd : Dispatcher) (c : Chan func)
    (s : State) : State :=
  MkState (<[d := with_wg (wg dd + Z.of_nat (length jobs)) dd]> (diss s)) (wkrs s)
    (<[qin dd := MkChan (cap c) (buf c ++ closures (length (echs s)) jobs) (closed c)]>
       (chans s))
    (echs s ++ replicate (length jobs) (MkChan 1 [] false)) (ctxs s) (procs s) (log s)
    (instance s) (once s).

(** The state [Add] suspends in when the intake queue is full. *)
Definition Add_blocked_state (d : nat) (dd : Dispatcher) (s : State) : State :=
  MkState (<[d := with_wg (wg dd + 1) dd]> (diss s)) (wkrs s) (chans s)
    (echs s ++ [MkChan 1 [] false]) (ctxs s) (procs s) (log s) (instance s) (once s).


(** A goroutine that is not the relay of [QueueRunner]. *)
Definition relay_free (p : Proc) : Prop :=
  match p with
  | PRelay _ | PRelaySend _ _ _ => False
  | _ => True
  end.

(** The queue pair of a dispatcher. *)
Definition qpair (dd : Dispatcher) : nat * nat := (qin dd, qout dd).

(** The queue pairs [qs] over the channels [cs]: every queue is allocated,
    no intake queue is an output queue, and every output queue is empty. *)
Definition apart (qs : list (nat * nat)) (cs : list (Chan func)) : Prop :=
  (forall p, p ∈ qs -> p.1 < length cs /\ p.2 < length cs) /\
  (forall p q, p ∈ qs -> q ∈ qs -> p.1 <> q.2) /\
  (forall p c, p ∈ qs -> cs !! p.2 = Some c -> buf c = []).

(** No job has been handed on: nothing was invoked, no completion channel
    holds a result, no relay runs, and no output queue holds a job. *)
Definition quiet (s : State) : Prop :=
  log s = [] /\
  Forall (fun c => buf c = []) (echs s) /\
  Forall relay_free (procs s) /\
  apart (qpair <$> diss s) (chans s).

(** The calls that start the relay. *)
Definition starts_relay (a : Action) : Prop :=
  match a with
  | CallQueueRunner _ => True
  | _ => False
  end.

(** The states a program reaches from [init] without ever calling
    [QueueRunner]. *)
Inductive reachable_without_relay : State -> Prop :=
| rwr_init : reachable_without_relay init_state
| rwr_ok (a : Action) (s s' : State) :
    reachable_without_relay s -> sane a -> ~ starts_relay a ->
    act a s = Ok tt s' -> reachable_without_relay s'
| rwr_blocked (a : Action) (s s' : State) :
    reachable_without_relay s -> sane a -> ~ starts_relay a ->
    act a s = Blocked s' -> reachable_without_relay s'.

(** [m] leaves a well-formed quiet heap quiet. *)
Definition jkeep {A : Type} (m : M A) : Prop :=
  forall s, wf_state s -> quiet s ->
    match m s with
    | Ok _ s' => quiet s'
    | Blocked s' => quiet s'
    | Panic _ => True
    end.

(** * Proofs *)

(** ** Arithmetic of [int] *)

Lemma wrap_small (x : Z) : (int_min <= x <= int_max)%Z -> wrap x = x.
Proof.
  unfold wrap, int_min, int_max. intros H.
  rewrite Z.mod_small by lia. lia.
Qed.

Lemma int_mul_small (x y : Z) :
  (int_min <= x * y <= int_max)%Z -> int_mul x y = (x * y)%Z.
Proof. apply wrap_small. Qed.

Lemma int_sub_small (x y : Z) :
  (int_min <= x - y <= int_max)%Z -> int_sub x y = (x - y)%Z.
Proof. apply wrap_small. Qed.

Lemma new_size_ok (n : Z) :
  (1 <= n <= max_new)%Z ->
  bufsize (int_mul n 100) = Z.min (n * 100) bufferSizeLimit /\
  (0 <= bufsize (int_mul n 100))%Z.
Proof.
  unfold max_new. intros H.
  rewrite int_mul_small by (unfold int_min, int_max; lia).
  unfold bufsize, bufferSizeLimit. lia.
Qed.

Lemma scale_size_ok (n : Z) :
  (0 <= n <= max_scale)%Z ->
  bufsize (int_mul (int_mul n 100) 100) = Z.min (n * 10000) bufferSizeLimit /\
  (0 <= bufsize (int_mul (int_mul n 100) 100))%Z.
Proof.
  unfold max_scale. intros H.
  rewrite (int_mul_small n) by (unfold int_min, int_max; lia).
  rewrite int_mul_small by (unfold int_min, int_max; lia).
  unfold bufsize, bufferSizeLimit. lia.
Qed.

(** ** Heap lookups *)

(** Lookups in a heap after an update at the same address. *)
Lemma lookup_insert_same {A : Type} (l : list A) (i : nat) (x y : A) :
  l !! i = Some y -> <[i := x]> l !! i = Some x.
Proof. intros H. apply list_lookup_insert_eq. eapply lookup_lt_Some, H. Qed.

Arguments wrap : simpl never.
Arguments int_mul : simpl never.
Arguments int_sub : simpl never.
Arguments bufsize : simpl never.

(** ** Construction *)

Lemma with_workers_id (dd : Dispatcher) : with_workers (workers dd) dd = dd.
Proof. destruct dd; reflexivity. Qed.

(** [grow] allocates [k] workers at the next [k] addresses and appends them
    to the worker set, in order. *)
Lemma grow_spec (k d : nat) (dd : Dispatcher) (s : State) :
  diss s !! d = Some dd ->
  grow k d s =
  Ok tt (set_wkrs (fun l => l ++ replicate k (fresh_worker d))
           (set_diss <[d := with_workers (workers dd ++ seq (length (wkrs s)) k) dd]> s)).
Proof.
  revert dd s. induction k as [|k IH]; intros dd s Hd.
  - cbn. unfold ret, set_wkrs, set_diss. cbn.
    rewrite !app_nil_r, with_workers_id, list_insert_id by exact Hd.
    destruct s; reflexivity.
  - cbn [grow]. unfold bind at 1. unfold new_worker.
    unfold bind at 1. unfold modD at 1. unfold bind at 1, getD at 1. cbn.
    rewrite Hd.
    rewrite (IH (with_workers (workers dd ++ [length (wkrs s)]) dd)).
    + unfold set_wkrs, set_diss. cbn.
      rewrite list_insert_insert_eq, length_app. cbn.
      rewrite <- !app_assoc. cbn.
      replace (length (wkrs s) + 1) with (S (length (wkrs s))) by lia.
      reflexivity.
    + cbn. eapply lookup_insert_same, Hd.
Qed.

Lemma newDispatcher_spec (m : Z) (s : State) :
  (0 <= bufsize (int_mul m 100))%Z -> make_workers_ok m = true ->
  newDispatcher m s =
  Ok (length (diss s))
     (MkState (diss s ++ [MkDispatcher false false false []
                            (length (chans s)) (S (length (chans s))) 0 m []
                            Background None])
        (wkrs s)
        (chans s ++ [MkChan (bufsize (int_mul m 100)) [] false;
                     MkChan (bufsize (int_mul m 100)) [] false])
        (echs s) (ctxs s) (procs s) (log s) (instance s) (once s)).
Proof.
  intros Hsz Hlen. unfold newDispatcher, bind, make_func_chan, make_chan.
  destruct (bufsize (int_mul m 100) <? 0)%Z eqn:E; [lia |].
  rewrite Hlen.
  unfold set_chans, set_diss. cbn. rewrite ?length_app, <- ?app_assoc. cbn.
  replace (length (chans s) + 1) with (S (length (chans s))) by lia.
  reflexivity.
Qed.

Lemma New_spec (n : Z) (s : State) :
  (n <= max_new)%Z -> New n s = Ok (length (diss s)) (New_state n s).
Proof.
  intros Hn. unfold New, New_state.
  assert ((if (n <? 1)%Z then 1%Z else n) = Z.max n 1) as ->
    by (destruct (Z.ltb_spec n 1); lia).
  set (m := Z.max n 1).
  destruct (new_size_ok m) as [Hsz Hpos]; [unfold m, max_new in *; lia |].
  assert (Hlen : make_workers_ok m = true).
  { unfold make_workers_ok, maxAlloc, m, max_new in *.
    apply andb_true_intro. split; [apply Z.leb_le | apply Z.leb_le]; lia. }
  unfold bind at 1. rewrite newDispatcher_spec by assumption.
  unfold bind at 1.
  erewrite grow_spec by (cbn; apply list_lookup_middle; reflexivity).
  unfold ret, set_wkrs, set_diss. cbn. rewrite Hsz.
  f_equal. f_equal.
  replace (length (diss s)) with (length (diss s) + 0) at 1 by lia.
  rewrite insert_app_r. reflexivity.
Qed.

(** A worker slice that [make] refuses: [newDispatcher] panics, after the
    two channels or at the first of them. *)
Lemma newDispatcher_panics (m : Z) (s : State) :
  make_workers_ok m = false -> exists s', newDispatcher m s = Panic s'.
Proof.
  intros H. unfold newDispatcher, bind, make_func_chan. rewrite H.
  destruct (make_chan (bufsize (int_mul m 100))); unfold panic; eauto.
Qed.

(** [New] panics for every worker count above [max_new]. *)
Lemma New_panics_above (n : Z) (s : State) :
  (max_new < n)%Z -> exists s', New n s = Panic s'.
Proof.
  intros Hn. unfold New.
  assert ((if (n <? 1)%Z then 1%Z else n) = n) as ->
    by (unfold max_new in Hn; destruct (Z.ltb_spec n 1); lia).
  destruct (newDispatcher_panics n s) as [s' Hp].
  { unfold make_workers_ok, maxAlloc, max_new in *.
    apply andb_false_iff. right. apply Z.leb_gt. lia. }
  exists s'. unfold bind at 1. rewrite Hp. reflexivity.
Qed.

(** ** Equations of the primitive calls *)

(** Two states with the same heaps are the same state. *)
Lemma state_ext (s t : State) :
  diss s = diss t -> wkrs s = wkrs t -> chans s = chans t ->
  echs s = echs t -> ctxs s = ctxs t -> procs s = procs t ->
  log s = log t -> instance s = instance t -> once s = once t ->
  s = t.
Proof. destruct s, t; cbn; intros; subst; reflexivity. Qed.

Ltac state_eq :=
  unfold ret; apply (f_equal (Ok _)); apply state_ext; cbn; try reflexivity.

Lemma bind_ok {A B : Type} (m : M A) (k : A -> M B) (s s' : State) (a : A) :
  m s = Ok a s' -> bind m k s = k a s'.
Proof. unfold bind. intros ->. reflexivity. Qed.

Lemma getD_ok (d : nat) (dd : Dispatcher) (s : State) :
  diss s !! d = Some dd -> getD d s = Ok dd s.
Proof. unfold getD. intros ->. reflexivity. Qed.

Lemma modD_ok (d : nat) (f : Dispatcher -> Dispatcher) (dd : Dispatcher) (s : State) :
  diss s !! d = Some dd -> modD d f s = Ok tt (set_diss <[d := f dd]> s).
Proof. unfold modD, bind, getD. intros ->. reflexivity. Qed.

Lemma getW_ok (w : nat) (ww : worker) (s : State) :
  wkrs s !! w = Some ww -> getW w s = Ok ww s.
Proof. unfold getW. intros ->. reflexivity. Qed.

Lemma modW_ok (w : nat) (f : worker -> worker) (ww : worker) (s : State) :
  wkrs s !! w = Some ww -> modW w f s = Ok tt (set_wkrs <[w := f ww]> s).
Proof. unfold modW, bind, getW. intros ->. reflexivity. Qed.

Lemma wg_add_ok (d : nat) (delta : Z) (dd : Dispatcher) (s : State) :
  diss s !! d = Some dd -> (0 <= wg dd + delta)%Z ->
  wg_add d delta s = Ok tt (set_diss <[d := with_wg (wg dd + delta) dd]> s).
Proof.
  intros Hd Hn. unfold wg_add.
  erewrite bind_ok by (apply modD_ok; exact Hd).
  erewrite bind_ok by (apply getD_ok; cbn; eapply lookup_insert_same, Hd).
  cbn. destruct (Z.ltb_spec (wg dd + delta) 0); [lia | reflexivity].
Qed.

Lemma make_func_chan_ok (size : Z) (s : State) :
  (0 <= size)%Z ->
  make_func_chan size s =
  Ok (length (chans s)) (set_chans (fun l => l ++ [MkChan size [] false]) s).
Proof.
  intros H. unfold make_func_chan, make_chan.
  destruct (Z.ltb_spec size 0); [lia | reflexivity].
Qed.

(** [make] panics on a negative size. *)
Lemma make_func_chan_panics (size : Z) (s : State) :
  (size < 0)%Z -> make_func_chan size s = Panic s.
Proof.
  intros H. unfold make_func_chan, make_chan.
  destruct (Z.ltb_spec size 0); [reflexivity | lia].
Qed.

(** ** ScaleBuffer *)

Lemma ScaleBuffer_spec (d : nat) (size : Z) (dd : Dispatcher) (s : State) :
  diss s !! d = Some dd -> (0 <= wg dd)%Z ->
  (0 <= bufsize (int_mul size 100))%Z ->
  ScaleBuffer d size s =
  Ok d (ScaleBuffer_state d (bufsize (int_mul size 100)) dd s).
Proof.
  intros Hd Hwg Hsz. unfold ScaleBuffer.
  set (sz := bufsize (int_mul size 100)) in *.
  erewrite bind_ok by (apply getD_ok; exact Hd).
  erewrite bind_ok by (apply make_func_chan_ok; exact Hsz).
  erewrite bind_ok by (apply make_func_chan_ok; exact Hsz).
  erewrite bind_ok by (apply modD_ok; cbn; exact Hd).
  erewrite bind_ok
    by (eapply wg_add_ok; [cbn; eapply lookup_insert_same, Hd | cbn; lia]).
  unfold bind at 1, spawn at 1.
  erewrite bind_ok
    by (eapply wg_add_ok;
        [cbn; eapply lookup_insert_same, lookup_insert_same, Hd | cbn; lia]).
  unfold bind at 1, spawn at 1. state_eq.
  - rewrite !list_insert_insert_eq, !length_app. cbn.
    replace (wg dd + 1 + 1)%Z with (wg dd + 2)%Z by lia.
    replace (length (chans s) + 1) with (S (length (chans s))) by lia.
    reflexivity.
  - rewrite <- !app_assoc. reflexivity.
  - rewrite <- !app_assoc. reflexivity.
Qed.

(** A negative buffer size makes [ScaleBuffer] panic before anything is
    written. *)
Lemma ScaleBuffer_panics (d : nat) (size : Z) (dd : Dispatcher) (s : State) :
  diss s !! d = Some dd -> (bufsize (int_mul size 100) < 0)%Z ->
  ScaleBuffer d size s = Panic s.
Proof.
  intros Hd Hsz. unfold ScaleBuffer.
  erewrite bind_ok by (apply getD_ok; exact Hd).
  unfold bind. rewrite make_func_chan_panics by exact Hsz. reflexivity.
Qed.

(** ** Start *)

Lemma allocated_cons (w : nat) (ws : list nat) (l : list worker) :
  allocated (w :: ws) l -> is_Some (l !! w) /\ allocated ws l.
Proof.
  intros H. split.
  - apply H. left.
  - intros x Hx. apply H. right. exact Hx.
Qed.

Lemma allocated_insert (ws : list nat) (l : list worker) (i : nat) (x : worker) :
  allocated ws l -> allocated ws (<[i := x]> l).
Proof.
  intros H w Hw. apply lookup_lt_is_Some. rewrite length_insert.
  apply lookup_lt_is_Some, H, Hw.
Qed.

Lemma allocated_app (ws : list nat) (l k : list worker) :
  allocated ws l -> allocated ws (l ++ k).
Proof.
  intros H w Hw. apply lookup_lt_is_Some. rewrite length_app.
  specialize (H w Hw). apply lookup_lt_is_Some in H. lia.
Qed.

Lemma start_all_spec (ws : list nat) (c : ctxref) (s : State) :
  allocated ws (wkrs s) ->
  start_all ws c s =
  Ok tt (MkState (diss s) (mark ws (wkrs s)) (chans s) (echs s) (ctxs s)
           (procs s ++ map (fun w => PWorker w c) (to_start ws (wkrs s)))
           (log s) (instance s) (once s)).
Proof.
  revert s. induction ws as [|w rest IH]; intros s Hall.
  - cbn. unfold ret. rewrite app_nil_r. destruct s; reflexivity.
  - apply allocated_cons in Hall as [[ww Hw] Hrest].
    cbn [start_all mark to_start]. rewrite Hw.
    erewrite bind_ok by (apply getW_ok; exact Hw).
    destruct (wrunning ww) eqn:Hrun.
    + unfold bind at 1, ret at 1. apply IH, Hrest.
    + unfold start.
      erewrite bind_ok; cycle 1.
      { erewrite bind_ok by (apply modW_ok; exact Hw). reflexivity. }
      rewrite IH by (cbn; apply allocated_insert, Hrest).
      cbn. rewrite <- app_assoc. reflexivity.
Qed.

Lemma mark_length (ws : list nat) (l : list worker) :
  length (mark ws l) = length l.
Proof.
  revert l. induction ws as [|w rest IH]; intros l; cbn; [reflexivity |].
  destruct (l !! w) as [ww|]; [| reflexivity].
  destruct (wrunning ww); rewrite IH, ?length_insert; reflexivity.
Qed.

(** After the loop every worker of [ws] is flagged running; nothing else
    about any worker changes. *)
Lemma mark_lookup (ws : list nat) (l : list worker) (x : nat) :
  allocated ws l ->
  mark ws l !! x =
  (if decide (x ∈ ws) then with_wrunning true <$> l !! x else l !! x).
Proof.
  revert l. induction ws as [|w rest IH]; intros l Hall.
  - cbn. destruct (decide (x ∈ [])) as [H|H]; [| reflexivity].
    apply not_elem_of_nil in H. contradiction.
  - apply allocated_cons in Hall as [[ww Hw] Hrest].
    cbn [mark]. rewrite Hw.
    assert (Hid : forall y : worker, wrunning y = true -> with_wrunning true y = y)
      by (intros [? ? ?]; cbn; intros ->; reflexivity).
    destruct (wrunning ww) eqn:Hrun.
    + rewrite IH by exact Hrest.
      destruct (decide (x ∈ rest)) as [Hin|Hin].
      * rewrite decide_True by (right; exact Hin). reflexivity.
      * destruct (decide (x = w)) as [->|Hne].
        -- rewrite decide_True by left. rewrite Hw. cbn. rewrite Hid; auto.
        -- rewrite decide_False; [reflexivity |].
           intros H. apply elem_of_cons in H as [H|H]; contradiction.
    + rewrite IH by (apply allocated_insert, Hrest).
      destruct (decide (x = w)) as [->|Hne].
      * rewrite (lookup_insert_same _ _ _ _ Hw), Hw.
        destruct (decide (w ∈ w :: rest)) as [_|H]; [| exfalso; apply H; left].
        destruct (decide (w ∈ rest)); reflexivity.
      * rewrite list_lookup_insert_ne by congruence.
        destruct (decide (x ∈ rest)) as [Hin|Hin].
        -- rewrite decide_True by (right; exact Hin). reflexivity.
        -- rewrite decide_False; [reflexivity |].
           intros H. apply elem_of_cons in H as [H|H]; contradiction.
Qed.

(** A worker of [ws] that was not running gets its goroutine. *)
Lemma to_start_elem (ws : list nat) (l : list worker) (x : nat) (ww : worker) :
  allocated ws l -> x ∈ ws -> l !! x = Some ww -> wrunning ww = false ->
  x ∈ to_start ws l.
Proof.
  revert l. induction ws as [|w rest IH]; intros l Hall Hin Hx Hrun.
  - apply not_elem_of_nil in Hin. contradiction.
  - apply allocated_cons in Hall as [[w0 Hw] Hrest].
    cbn [to_start]. rewrite Hw.
    destruct (decide (x = w)) as [->|Hne].
    + assert (w0 = ww) as -> by congruence. rewrite Hrun. left.
    + apply elem_of_cons in Hin as [Hin|Hin]; [contradiction |].
      destruct (wrunning w0).
      * eapply IH; eauto.
      * right. eapply IH; eauto using allocated_insert.
        rewrite list_lookup_insert_ne by congruence. exact Hx.
Qed.

(** Only workers of [ws] that were not running are started. *)
Lemma to_start_inv (ws : list nat) (l : list worker) (x : nat) :
  x ∈ to_start ws l ->
  x ∈ ws /\ exists ww, l !! x = Some ww /\ wrunning ww = false.
Proof.
  revert l. induction ws as [|w rest IH]; intros l Hin; cbn in Hin.
  - apply not_elem_of_nil in Hin. contradiction.
  - destruct (l !! w) as [w0|] eqn:Hw; [| apply not_elem_of_nil in Hin; contradiction].
    destruct (wrunning w0) eqn:Hrun.
    + destruct (IH _ Hin) as (H1 & ww & H2 & H3). split; [right; exact H1 | eauto].
    + apply elem_of_cons in Hin as [->|Hin]; [split; [left | eauto] |].
      destruct (IH _ Hin) as (H1 & ww & H2 & H3). split; [right; exact H1 |].
      destruct (decide (x = w)) as [->|Hne].
      * rewrite (lookup_insert_same _ _ _ _ Hw) in H2.
        injection H2 as <-. cbn in H3. discriminate.
      * rewrite list_lookup_insert_ne in H2 by congruence. eauto.
Qed.

Lemma StartWithContext_spec (d : nat) (c : ctxref) (dd : Dispatcher) (s : State) :
  diss s !! d = Some dd -> allocated (workers dd) (wkrs s) ->
  StartWithContext d c s = Ok d (Start_state d c dd s).
Proof.
  intros Hd Hall. unfold StartWithContext.
  erewrite bind_ok by (apply getD_ok; exact Hd).
  unfold bind at 1, with_cancel at 1.
  erewrite bind_ok by (apply modD_ok; cbn; exact Hd).
  erewrite bind_ok by (apply start_all_spec; cbn; exact Hall).
  erewrite bind_ok by (apply modD_ok; cbn; eapply lookup_insert_same, Hd).
  unfold ret, Start_state, set_diss. cbn.
  rewrite list_insert_insert_eq. reflexivity.
Qed.

(** ** Well-formed dispatchers *)

Lemma wf_dis_allocated (s : State) (d : nat) (dd : Dispatcher) :
  wf_dis s d dd -> allocated (workers dd) (wkrs s).
Proof.
  intros (_ & _ & _ & H & _) w Hw.
  destruct (H w Hw) as (ww & -> & _). eauto.
Qed.

Lemma lookup_fresh_workers (l : list worker) (k : nat) (x : worker) (i : nat) :
  i ∈ seq (length l) k -> (l ++ replicate k x) !! i = Some x /\ l !! i = None.
Proof.
  intros Hi. apply elem_of_seq in Hi. split.
  - rewrite lookup_app_r by lia. apply lookup_replicate_2. lia.
  - apply lookup_ge_None. lia.
Qed.

Lemma allocated_grown (ws : list nat) (l : list worker) (k : nat) (x : worker) :
  allocated ws l ->
  allocated (ws ++ seq (length l) k) (l ++ replicate k x).
Proof.
  intros H w Hw. apply elem_of_app in Hw as [Hw|Hw].
  - exact (allocated_app _ _ _ H w Hw).
  - apply lookup_fresh_workers with (x := x) in Hw as [-> _]. eauto.
Qed.

(** Reading a heap cell through the writes made to it so far. *)
Ltac heap_lookup :=
  cbn; repeat (eapply lookup_insert_same); eassumption.

(** ** UpScale *)

Lemma UpScale_spec (d : nat) (n : Z) (dd : Dispatcher) (s : State) :
  wf_dis s d dd -> (0 <= n <= max_scale)%Z ->
  UpScale d n s = Ok d (UpScale_state d n dd s).
Proof.
  intros Hwf Hn.
  pose proof (wf_dis_allocated _ _ _ Hwf) as Hall.
  destruct Hwf as (Hd & Hwg & Hlen & _).
  destruct (scale_size_ok n Hn) as [Hsz Hpos].
  unfold UpScale.
  erewrite bind_ok by (apply ScaleBuffer_spec; eauto).
  rewrite Hsz. unfold ScaleBuffer_state.
  erewrite bind_ok by (apply modD_ok; heap_lookup).
  erewrite bind_ok
    by (apply getD_ok; heap_lookup).
  cbn [workers with_scaling with_wg with_queues].
  rewrite int_sub_small
    by (unfold max_scale, int_min, int_max in *; lia).
  erewrite bind_ok
    by (apply grow_spec; heap_lookup).
  erewrite bind_ok by (apply modD_ok; heap_lookup).
  erewrite bind_ok by (apply getD_ok; heap_lookup).
  unfold UpScale_state. cbn [running with_workerCount with_workers with_scaling
                               with_wg with_queues].
  destruct (running dd) eqn:Hrun.
  - unfold Start.
    erewrite bind_ok; cycle 1.
    { erewrite bind_ok; [reflexivity |].
      eapply StartWithContext_spec.
      - heap_lookup.
      - cbn. apply allocated_grown, Hall. }
    erewrite bind_ok
      by (apply modD_ok; heap_lookup).
    state_eq. rewrite !list_insert_insert_eq. reflexivity.
  - unfold bind at 1, ret at 1.
    erewrite bind_ok by (apply modD_ok; heap_lookup).
    state_eq. rewrite !list_insert_insert_eq. reflexivity.
Qed.

(** A worker count whose buffer size is negative makes [UpScale] panic in
    [ScaleBuffer], before the worker set or the target count is touched. *)
Lemma UpScale_panics (d : nat) (n : Z) (dd : Dispatcher) (s : State) :
  diss s !! d = Some dd ->
  (bufsize (int_mul (int_mul n 100) 100) < 0)%Z ->
  UpScale d n s = Panic s.
Proof.
  intros Hd Hsz. unfold UpScale, bind.
  rewrite (ScaleBuffer_panics _ _ _ _ Hd Hsz). reflexivity.
Qed.

(** ** DownScale *)

Lemma stop_spec (w : nat) (ww : worker) (s : State) :
  wkrs s !! w = Some ww -> kill ww = MkChan 1 [] false ->
  stop w s = Ok tt (set_wkrs <[w := stopped ww]> s).
Proof.
  intros Hw Hk. unfold stop.
  erewrite bind_ok by (apply getW_ok; exact Hw).
  rewrite Hk.
  change (chan_send tt (MkChan 1 [] false)) with (SendOk (MkChan 1 [tt] false)).
  cbv iota.
  erewrite bind_ok by (apply modW_ok; exact Hw).
  erewrite modW_ok by (cbn; eapply lookup_insert_same, Hw).
  state_eq. rewrite list_insert_insert_eq. reflexivity.
Qed.

Lemma stoppable_delete (ws : list nat) (l : list worker) (i : nat) :
  stoppable ws l -> stoppable (delete i ws) l.
Proof. intros H w Hw. apply H. eapply list_elem_of_delete_inv, Hw. Qed.

Lemma stoppable_stopped (ws : list nat) (l : list worker) (w : nat) (ww : worker) :
  stoppable ws l -> l !! w = Some ww -> stoppable ws (<[w := stopped ww]> l).
Proof.
  intros H Hw x Hx. destruct (H x Hx) as (xx & Hxx & Hk).
  destruct (decide (x = w)) as [->|Hne].
  - exists (stopped ww). rewrite (lookup_insert_same _ _ _ _ Hw).
    split; [reflexivity | cbn; discriminate].
  - exists xx. rewrite list_lookup_insert_ne by congruence. auto.
Qed.

Lemma next_idx_lt (len idx : nat) : 0 < len -> next_idx len idx < len.
Proof.
  unfold next_idx. intros H. destruct (Nat.leb_spec len (S idx)); lia.
Qed.

(** The loop of [DownScale] on a dispatcher whose workers can be stopped:
    it leaves [kept] as the worker set and has stopped the [removed] workers
    that were flagged running, provided the dispatcher is running. *)
Lemma shrink_spec (k d idx : nat) (dd : Dispatcher) (s : State) :
  diss s !! d = Some dd ->
  k <= length (workers dd) -> (0 < k -> idx < length (workers dd)) ->
  stoppable (workers dd) (wkrs s) ->
  shrink k d idx s =
  Ok tt (MkState (<[d := with_workers (kept k idx (workers dd)) dd]> (diss s))
           (if running dd then stop_all (removed k idx (workers dd)) (wkrs s)
            else wkrs s)
           (chans s) (echs s) (ctxs s) (procs s) (log s) (instance s) (once s)).
Proof.
  revert idx dd s. induction k as [|k IH]; intros idx dd s Hd Hk Hidx Hst.
  - cbn. unfold ret. rewrite with_workers_id, list_insert_id by exact Hd.
    destruct (running dd); destruct s; reflexivity.
  - assert (Hlt : idx < length (workers dd)) by (apply Hidx; lia).
    destruct (lookup_lt_is_Some_2 _ _ Hlt) as [w Hw].
    destruct (Hst w) as (ww & Hww & Hkill);
      [eapply list_elem_of_lookup_2, Hw |].
    pose proof (length_delete (workers dd) idx (ex_intro _ w Hw)) as Hlen.
    cbn [shrink kept removed]. rewrite Hw.
    erewrite bind_ok by (apply getD_ok; exact Hd).
    destruct (Nat.ltb_spec idx (length (workers dd))) as [_|]; [| lia].
    assert (Hnext : 0 < k ->
              next_idx (length (delete idx (workers dd))) idx
              < length (delete idx (workers dd)))
      by (intros; apply next_idx_lt; lia).
    destruct (running dd) eqn:Hrun.
    + rewrite Hw.
      destruct (wrunning ww) eqn:Hwr.
      * erewrite bind_ok; cycle 1.
        { erewrite bind_ok by (apply getW_ok; exact Hww).
          rewrite Hwr. eapply stop_spec; [exact Hww | auto]. }
        erewrite bind_ok by (apply modD_ok; heap_lookup).
        erewrite bind_ok by (apply getD_ok; heap_lookup).
        cbn [workers with_workers].
        erewrite IH; cycle 1.
        { heap_lookup. }
        { cbn. lia. }
        { cbn. exact Hnext. }
        { cbn. apply stoppable_delete, stoppable_stopped; auto. }
        cbn. rewrite Hrun, Hww, Hwr, list_insert_insert_eq. reflexivity.
      * erewrite bind_ok; cycle 1.
        { erewrite bind_ok by (apply getW_ok; exact Hww).
          rewrite Hwr. reflexivity. }
        erewrite bind_ok by (apply modD_ok; heap_lookup).
        erewrite bind_ok by (apply getD_ok; heap_lookup).
        cbn [workers with_workers].
        erewrite IH; cycle 1.
        { heap_lookup. }
        { cbn. lia. }
        { cbn. exact Hnext. }
        { cbn. apply stoppable_delete; auto. }
        cbn. rewrite Hrun, Hww, Hwr, list_insert_insert_eq. reflexivity.
    + unfold bind at 1, ret at 1.
      erewrite bind_ok by (apply modD_ok; heap_lookup).
      erewrite bind_ok by (apply getD_ok; heap_lookup).
      cbn [workers with_workers].
      erewrite IH; cycle 1.
      { heap_lookup. }
      { cbn. lia. }
      { cbn. exact Hnext. }
      { cbn. apply stoppable_delete; auto. }
      cbn. rewrite Hrun, list_insert_insert_eq. reflexivity.
Qed.

Lemma kept_length (k idx : nat) (l : list nat) :
  k <= length l -> (0 < k -> idx < length l) ->
  length (kept k idx l) = length l - k.
Proof.
  revert idx l. induction k as [|k IH]; intros idx l Hk Hidx; cbn.
  - lia.
  - assert (Hlt : idx < length l) by (apply Hidx; lia).
    pose proof (length_delete l idx (lookup_lt_is_Some_2 _ _ Hlt)) as Hlen.
    rewrite IH; [lia | lia |].
    intros. apply next_idx_lt. lia.
Qed.

Lemma removed_length (k idx : nat) (l : list nat) :
  k <= length l -> (0 < k -> idx < length l) ->
  length (removed k idx l) = k.
Proof.
  revert idx l. induction k as [|k IH]; intros idx l Hk Hidx; cbn.
  - reflexivity.
  - assert (Hlt : idx < length l) by (apply Hidx; lia).
    destruct (lookup_lt_is_Some_2 _ _ Hlt) as [w Hw].
    pose proof (length_delete l idx (ex_intro _ w Hw)) as Hlen.
    rewrite Hw. cbn. rewrite IH; [lia | lia |].
    intros. apply next_idx_lt. lia.
Qed.

(** The workers kept stay in their order. *)
Lemma kept_sublist (k idx : nat) (l : list nat) : kept k idx l `sublist_of` l.
Proof.
  revert idx l. induction k as [|k IH]; intros idx l; cbn.
  - reflexivity.
  - etransitivity; [apply IH | apply sublist_delete].
Qed.

(** Removed and kept workers together are the workers there were. *)
Lemma removed_kept_Permutation (k idx : nat) (l : list nat) :
  k <= length l -> (0 < k -> idx < length l) ->
  removed k idx l ++ kept k idx l ≡ₚ l.
Proof.
  revert idx l. induction k as [|k IH]; intros idx l Hk Hidx; cbn.
  - reflexivity.
  - assert (Hlt : idx < length l) by (apply Hidx; lia).
    destruct (lookup_lt_is_Some_2 _ _ Hlt) as [w Hw].
    pose proof (length_delete l idx (ex_intro _ w Hw)) as Hlen.
    rewrite Hw. cbn. rewrite IH.
    + symmetry. apply delete_Permutation, Hw.
    + lia.
    + intros. apply next_idx_lt. lia.
Qed.

(** The first worker removed is the one at the start index. *)
Lemma removed_head (k idx : nat) (l : list nat) :
  removed (S k) idx l !! 0 = l !! idx.
Proof. cbn. destruct (l !! idx); reflexivity. Qed.

Lemma stop_all_length (ws : list nat) (l : list worker) :
  length (stop_all ws l) = length l.
Proof.
  revert l. induction ws as [|w rest IH]; intros l; cbn; [reflexivity |].
  destruct (l !! w) as [ww|]; [| reflexivity].
  destruct (wrunning ww); rewrite IH, ?length_insert; reflexivity.
Qed.

(** [stop_all] stops exactly the workers of [ws] that were flagged running. *)
Lemma stop_all_lookup (ws : list nat) (l : list worker) (x : nat) (xx : worker) :
  (forall w, w ∈ ws -> is_Some (l !! w)) ->
  l !! x = Some xx ->
  stop_all ws l !! x =
  Some (if decide (x ∈ ws) then (if wrunning xx then stopped xx else xx) else xx).
Proof.
  revert l xx. induction ws as [|w rest IH]; intros l xx Hall Hx.
  - cbn. rewrite Hx. destruct (decide (x ∈ [])) as [H|H]; [| reflexivity].
    apply not_elem_of_nil in H. contradiction.
  - destruct (Hall w) as [ww Hw]; [left |].
    assert (Hrest : forall y, y ∈ rest -> is_Some (l !! y))
      by (intros y Hy; apply Hall; right; exact Hy).
    cbn [stop_all]. rewrite Hw.
    destruct (decide (x = w)) as [->|Hne].
    + assert (ww = xx) as -> by congruence.
      destruct (decide (w ∈ w :: rest)) as [_|H]; [| exfalso; apply H; left].
      destruct (wrunning xx) eqn:Hwr.
      * rewrite (IH _ (stopped xx)).
        -- cbn. destruct (decide (w ∈ rest)); reflexivity.
        -- intros y Hy. apply lookup_lt_is_Some. rewrite length_insert.
           apply lookup_lt_is_Some, Hrest, Hy.
        -- eapply lookup_insert_same, Hw.
      * rewrite (IH _ xx) by auto. rewrite Hwr.
        destruct (decide (w ∈ rest)); reflexivity.
    + assert (Hdec : forall (T : Type) (a b : T),
                 (if decide (x ∈ w :: rest) then a else b) =
                 (if decide (x ∈ rest) then a else b)).
      { intros T a b.
        destruct (decide (x ∈ rest)) as [Hin|Hin].
        - rewrite decide_True by (right; exact Hin). reflexivity.
        - rewrite decide_False; [reflexivity |].
          intros H. apply elem_of_cons in H as [H|H]; contradiction. }
      rewrite Hdec.
      destruct (wrunning ww).
      * apply IH.
        -- intros y Hy. apply lookup_lt_is_Some. rewrite length_insert.
           apply lookup_lt_is_Some, Hrest, Hy.
        -- rewrite list_lookup_insert_ne by congruence. exact Hx.
      * apply IH; auto.
Qed.

Lemma wf_dis_stoppable (s : State) (d : nat) (dd : Dispatcher) :
  wf_dis s d dd -> stoppable (workers dd) (wkrs s).
Proof.
  intros (_ & _ & _ & H & _) w Hw.
  destruct (H w Hw) as (ww & Hww & Hk). eauto.
Qed.

Lemma DownScale_spec (d : nat) (n : Z) (dd : Dispatcher) (s : State) :
  wf_dis s d dd -> (0 <= n <= max_scale)%Z ->
  DownScale d n s = Ok d (DownScale_state d n dd s).
Proof.
  intros Hwf Hn.
  pose proof (wf_dis_stoppable _ _ _ Hwf) as Hst.
  destruct Hwf as (Hd & Hwg & Hlen & _).
  destruct (scale_size_ok n Hn) as [Hsz Hpos].
  unfold DownScale.
  erewrite bind_ok by (apply ScaleBuffer_spec; eauto).
  rewrite Hsz. unfold ScaleBuffer_state.
  erewrite bind_ok by (apply modD_ok; heap_lookup).
  erewrite bind_ok by (apply getD_ok; heap_lookup).
  cbn [workers with_scaling with_wg with_queues].
  rewrite int_sub_small
    by (unfold max_scale, int_min, int_max in *; lia).
  erewrite bind_ok; cycle 1.
  { apply shrink_spec.
    - heap_lookup.
    - cbn. lia.
    - cbn. lia.
    - cbn. exact Hst. }
  erewrite bind_ok by (apply modD_ok; heap_lookup).
  erewrite bind_ok by (apply modD_ok; heap_lookup).
  unfold ret, DownScale_state, set_diss. cbn.
  rewrite !list_insert_insert_eq. reflexivity.
Qed.

Lemma DownScale_panics (d : nat) (n : Z) (dd : Dispatcher) (s : State) :
  diss s !! d = Some dd ->
  (bufsize (int_mul (int_mul n 100) 100) < 0)%Z ->
  DownScale d n s = Panic s.
Proof.
  intros Hd Hsz. unfold DownScale, bind.
  rewrite (ScaleBuffer_panics _ _ _ _ Hd Hsz). reflexivity.
Qed.

(** ** What the scaled dispatcher looks like *)

Lemma UpScale_state_lookup (d : nat) (n : Z) (dd : Dispatcher) (s : State) :
  diss s !! d = Some dd ->
  exists dd',
    diss (UpScale_state d n dd s) !! d = Some dd' /\
    workers dd' =
      workers dd ++
      seq (length (wkrs s)) (Z.to_nat (n - Z.of_nat (length (workers dd)))) /\
    workerCount dd' = n /\
    running dd' = running dd /\
    scaling dd' = false /\
    qin dd' = length (chans s) /\
    qout dd' = S (length (chans s)) /\
    wg dd' = (wg dd + 2)%Z /\
    queue dd' = queue dd /\
    (running dd = true ->
       ctx dd' = Derived (length (ctxs s)) /\ cancel dd' = Some (length (ctxs s))) /\
    (running dd = false -> ctx dd' = ctx dd /\ cancel dd' = cancel dd).
Proof.
  intros Hd. unfold UpScale_state.
  destruct (running dd) eqn:Hrun; eexists; (split; [heap_lookup |]); cbn;
    rewrite ?Hrun; repeat split; intros; congruence.
Qed.

Lemma DownScale_state_lookup (d : nat) (n : Z) (dd : Dispatcher) (s : State) :
  diss s !! d = Some dd ->
  exists dd',
    diss (DownScale_state d n dd s) !! d = Some dd' /\
    workers dd' =
      kept (Z.to_nat (Z.of_nat (length (workers dd)) - n)) 0 (workers dd) /\
    workerCount dd' = n /\
    running dd' = running dd /\
    scaling dd' = false /\
    qin dd' = length (chans s) /\
    qout dd' = S (length (chans s)) /\
    wg dd' = (wg dd + 2)%Z /\
    queue dd' = queue dd /\
    ctx dd' = ctx dd /\ cancel dd' = cancel dd.
Proof.
  intros Hd. eexists. split; [unfold DownScale_state; heap_lookup |].
  cbn. repeat split.
Qed.

(** ** Construction never fails on a representable buffer size (C7) *)

Lemma wf_dis_set_workerCount (s : State) (d : nat) (dd : Dispatcher) (m : Z) :
  wf_dis s d dd ->
  wf_dis (set_diss <[d := with_workerCount m dd]> s) d (with_workerCount m dd).
Proof.
  intros (Hd & Hwg & Hlen & Hw & Hc & Hqi & Hqo).
  repeat split; cbn; auto. eapply lookup_insert_same, Hd.
Qed.

Lemma AutoScale_length (d : nat) (dd : Dispatcher) (s : State) :
  wf_dis s d dd -> (0 <= workerCount dd <= max_scale)%Z ->
  exists s' dd',
    AutoScale d s = Ok d s' /\ instance s' = instance s /\
    diss s' !! d = Some dd' /\
    Z.of_nat (length (workers dd')) = workerCount dd /\
    workerCount dd' = workerCount dd.
Proof.
  intros Hwf Hn. pose proof Hwf as (Hd & _ & Hlen & _).
  unfold AutoScale. erewrite bind_ok by (apply getD_ok; exact Hd).
  destruct (Z.ltb_spec (workerCount dd) (Z.of_nat (length (workers dd)))) as [Hlt|Hge].
  - rewrite (DownScale_spec _ _ _ _ Hwf Hn).
    destruct (DownScale_state_lookup d (workerCount dd) dd s Hd)
      as (dd' & Hd' & Hws & Hwc & _).
    exists (DownScale_state d (workerCount dd) dd s), dd'.
    repeat split; auto.
    rewrite Hws, kept_length by lia. lia.
  - destruct (Z.ltb_spec (Z.of_nat (length (workers dd))) (workerCount dd)) as [Hlt|Hge'].
    + rewrite (UpScale_spec _ _ _ _ Hwf Hn).
      destruct (UpScale_state_lookup d (workerCount dd) dd s Hd)
        as (dd' & Hd' & Hws & Hwc & _).
      exists (UpScale_state d (workerCount dd) dd s), dd'.
      repeat split; auto.
      * unfold UpScale_state. destruct (running dd); reflexivity.
      * rewrite Hws, length_app, length_seq. lia.
    + exists s, dd. unfold ret. repeat split; auto. lia.
Qed.

Lemma New_state_lookup (n : Z) (s : State) :
  diss (New_state n s) !! length (diss s) =
  Some (MkDispatcher false false false [] (length (chans s)) (S (length (chans s)))
          0 (Z.max n 1) (seq (length (wkrs s)) (Z.to_nat (Z.max n 1)))
          Background None).
Proof. unfold New_state. cbn. apply list_lookup_middle. reflexivity. Qed.



(** The dispatcher [New] builds is well-formed. *)
Lemma New_state_wf (n : Z) (s : State) :
  (n <= int_max)%Z ->
  wf_dis (New_state n s) (length (diss s))
    (MkDispatcher false false false [] (length (chans s)) (S (length (chans s)))
       0 (Z.max n 1) (seq (length (wkrs s)) (Z.to_nat (Z.max n 1)))
       Background None).
Proof.
  intros Hn. split; [apply New_state_lookup |]. cbn.
  split; [lia |]. split.
  - rewrite length_seq. unfold int_max in *. lia.
  - split; [| split; [discriminate |]].
    + intros w Hw. exists (fresh_worker (length (diss s))).
      split; [| reflexivity].
      eapply lookup_fresh_workers in Hw as [Hw _]. exact Hw.
    + split; apply lookup_lt_is_Some; rewrite length_app; cbn; lia.
Qed.

(** The package instance built by [init]. *)
Lemma init_state_wf :
  wf_dis init_state (instance init_state)
    (MkDispatcher false false false [] 0 1 0 3 [0; 1; 2] Background None).
Proof. exact (New_state_wf 3 empty_state ltac:(unfold int_max; lia)). Qed.



(** ** UpScale (C3) *)

(** C3, as the code has it, for worker counts [0 <= n <= max_scale] on a
    well-formed dispatcher with [w] workers.  [UpScale(n)] returns; the
    worker set is the old one followed by [max (n - w) 0] workers at
    addresses that held nothing before, each built with an empty [kill]
    channel; the target count is [n]; a new worker is flagged running and
    has its goroutine on the dispatcher's token exactly when the dispatcher
    is running, otherwise only the two draining goroutines were started; for
    [n <= w] the worker set is the old one; and the queue pair is replaced
    by two new channels of capacity [min (n * 10000) bufferSizeLimit]. *)
Theorem UpScale_grows (d : nat) (n : Z) (dd : Dispatcher) (s : State) :
  wf_dis s d dd -> (0 <= n <= max_scale)%Z ->
  let w := Z.of_nat (length (workers dd)) in
  let news := seq (length (wkrs s)) (Z.to_nat (n - w)) in
  exists s' dd',
    UpScale d n s = Ok d s' /\
    diss s' !! d = Some dd' /\
    workers dd' = workers dd ++ news /\
    Z.of_nat (length news) = Z.max (n - w) 0 /\
    workerCount dd' = n /\
    (forall x, x ∈ news ->
       wkrs s !! x = None /\
       wkrs s' !! x = Some (MkWorker d (MkChan 1 [] false) (running dd)) /\
       (running dd = true -> PWorker x (ctx dd') ∈ procs s')) /\
    (running dd = false ->
       procs s' = procs s ++ [PDrainIn d (qin dd) []; PDrainOut d (qout dd) []]) /\
    ((n <= w)%Z -> workers dd' = workers dd) /\
    qin dd' = length (chans s) /\
    qout dd' = S (length (chans s)) /\
    chans s' = chans s ++ [MkChan (Z.min (n * 10000) bufferSizeLimit) [] false;
                           MkChan (Z.min (n * 10000) bufferSizeLimit) [] false].
Proof.
  intros Hwf Hn w news.
  pose proof (wf_dis_allocated _ _ _ Hwf) as Hall.
  pose proof Hwf as (Hd & _).
  destruct (UpScale_state_lookup d n dd s Hd)
    as (dd' & Hd' & Hws & Hwc & Hrun' & _ & Hqi & Hqo & _ & _ & Hctx & _).
  exists (UpScale_state d n dd s), dd'.
  split; [apply UpScale_spec; assumption |].
  split; [exact Hd' |].
  split; [exact Hws |].
  split; [unfold news; rewrite length_seq; lia |].
  split; [exact Hwc |].
  split; [| split; [| split; [| split; [exact Hqi | split; [exact Hqo |]]]]].
  - intros x Hx.
    pose proof (lookup_fresh_workers (wkrs s) _ (fresh_worker d) x Hx) as [Hnew Hold].
    split; [exact Hold |].
    unfold UpScale_state. destruct (running dd) eqn:Hrun.
    + destruct (Hctx eq_refl) as [Hc _].
      assert (Hg : allocated (workers (UpScale_record n dd s))
                     (wkrs (UpScale_grown d n dd s)))
        by (cbn; apply allocated_grown, Hall).
      assert (Hin : x ∈ workers (UpScale_record n dd s))
        by (cbn; apply elem_of_app; right; exact Hx).
      split.
      * cbn [wkrs set_diss Start_state].
        rewrite mark_lookup by exact Hg.
        rewrite decide_True by exact Hin.
        cbn [wkrs UpScale_grown]. fold w. rewrite Hnew. reflexivity.
      * intros _. rewrite Hc. cbn [procs set_diss Start_state].
        apply elem_of_app. right.
        apply (list_elem_of_fmap_2 (fun w0 => PWorker w0 (Derived (length (ctxs s))))).
        apply to_start_elem with (ww := fresh_worker d);
          [exact Hg | exact Hin | | reflexivity].
        cbn [wkrs UpScale_grown]. fold w. exact Hnew.
    + split; [| discriminate].
      cbn [wkrs set_diss UpScale_grown]. fold w. exact Hnew.
  - intros Hrun. unfold UpScale_state. rewrite Hrun. reflexivity.
  - intros Hle. rewrite Hws. fold w.
    replace (Z.to_nat (n - w)) with 0 by lia. cbn. apply app_nil_r.
  - unfold UpScale_state. destruct (running dd); reflexivity.
Qed.

(** C3 at a concrete input: [UpScale(5)] on the instance of [init], which
    has three workers and is not running. *)
Lemma UpScale_grows_witness :
  exists s' dd',
    UpScale 0 5 init_state = Ok 0 s' /\
    diss s' !! 0 = Some dd' /\
    workers dd' = [0; 1; 2; 3; 4] /\
    workerCount dd' = 5%Z /\
    wkrs s' !! 4 = Some (MkWorker 0 (MkChan 1 [] false) false).
Proof.
  destruct (UpScale_grows 0 5 _ init_state init_state_wf)
    as (s' & dd' & H1 & H2 & H3 & _ & H5 & H6 & _).
  { unfold max_scale. lia. }
  exists s', dd'.
  split; [exact H1 |]. split; [exact H2 |]. split; [exact H3 |].
  split; [exact H5 |].
  apply (H6 4). apply elem_of_seq. vm_compute. lia.
Defined.

(** C3 as stated fails for a negative [n]: [UpScale(-1)] panics in [make]
    while [ScaleBuffer] holds the mutex; it does not return, and the queue
    buffers are not resized. *)
Lemma UpScale_negative_panics :
  UpScale 0 (-1) init_state = Panic init_state.
Proof.
  eapply UpScale_panics; [apply init_state_wf | vm_compute; reflexivity].
Qed.

(** ** DownScale (C4) *)

(** While the index does not wrap round, the loop removes every second
    worker: its [j]-th removal is the worker at position [idx + 2 * j]. *)
Lemma removed_alternates (k idx : nat) (l : list nat) (j : nat) :
  j < k -> idx + 2 * (k - 1) < length l ->
  removed k idx l !! j = l !! (idx + 2 * j).
Proof.
  revert idx l j. induction k as [|k IH]; intros idx l j Hj Hlen; [lia |].
  assert (Hlt : idx < length l) by lia.
  destruct (lookup_lt_is_Some_2 _ _ Hlt) as [w Hw].
  pose proof (length_delete l idx (ex_intro _ w Hw)) as Hdel.
  cbn [removed]. rewrite Hw.
  destruct j as [|j].
  - cbn. rewrite Nat.add_0_r. symmetry. exact Hw.
  - cbn [lookup list_lookup].
    assert (Hk : 0 < k) by lia.
    unfold next_idx.
    destruct (Nat.leb_spec (length (delete idx l)) (S idx)) as [Hle|Hgt]; [lia |].
    change (removed k (S idx) (delete idx l) !! j = l !! (idx + 2 * S j)).
    rewrite IH by lia.
    rewrite list_lookup_delete_ge by lia.
    f_equal. lia.
Qed.

Lemma removed_allocated (k idx : nat) (l : list nat) (x : nat) :
  x ∈ removed k idx l -> x ∈ l.
Proof.
  revert idx l. induction k as [|k IH]; intros idx l Hx; cbn in Hx.
  - apply not_elem_of_nil in Hx. contradiction.
  - destruct (l !! idx) as [w|] eqn:Hw; [| apply not_elem_of_nil in Hx; contradiction].
    apply elem_of_cons in Hx as [->|Hx].
    + eapply list_elem_of_lookup_2, Hw.
    + eapply list_elem_of_delete_inv, IH, Hx.
Qed.

(** C4, as the code has it, for [1 <= n <= w] (and [n <= max_scale]) on a
    well-formed dispatcher with [w] workers.  [DownScale(n)] returns; it
    removes the [w - n] workers [removed (w - n) 0], the first of them the
    worker at index 0 and, while the index does not wrap, every second one;
    the workers kept stay in order and number exactly [n]; the target count
    is [n]; and a worker of the heap is stopped (one signal in [kill], flag
    cleared) exactly when it is one of those removed, its flag was set and
    the dispatcher itself is running.  Every other worker is untouched. *)
Theorem DownScale_shrinks (d : nat) (n : Z) (dd : Dispatcher) (s : State) :
  wf_dis s d dd ->
  (1 <= n <= Z.of_nat (length (workers dd)))%Z -> (n <= max_scale)%Z ->
  let k := length (workers dd) - Z.to_nat n in
  let gone := removed k 0 (workers dd) in
  exists s' dd',
    DownScale d n s = Ok d s' /\
    diss s' !! d = Some dd' /\
    workers dd' = kept k 0 (workers dd) /\
    length (workers dd') = Z.to_nat n /\
    length gone = k /\
    gone ++ workers dd' ≡ₚ workers dd /\
    workers dd' `sublist_of` workers dd /\
    (forall j, j < k -> 2 * k <= length (workers dd) + 1 ->
       gone !! j = workers dd !! (2 * j)) /\
    workerCount dd' = n /\
    (forall x xx, wkrs s !! x = Some xx ->
       wkrs s' !! x =
       Some (if running dd && wrunning xx && bool_decide (x ∈ gone)
             then stopped xx else xx)).
Proof.
  intros Hwf Hn Hmax k gone.
  pose proof (wf_dis_allocated _ _ _ Hwf) as Hall.
  pose proof Hwf as (Hd & _).
  assert (Hk : Z.to_nat (Z.of_nat (length (workers dd)) - n) = k)
    by (unfold k; lia).
  destruct (DownScale_state_lookup d n dd s Hd)
    as (dd' & Hd' & Hws & Hwc & _).
  rewrite Hk in Hws.
  exists (DownScale_state d n dd s), dd'.
  split; [apply DownScale_spec; [assumption | lia] |].
  split; [exact Hd' |].
  split; [exact Hws |].
  split; [rewrite Hws, kept_length; unfold k; lia |].
  split; [apply removed_length; unfold k; lia |].
  split; [rewrite Hws; apply removed_kept_Permutation; unfold k; lia |].
  split; [rewrite Hws; apply kept_sublist |].
  split; [intros j Hj H2; apply (removed_alternates k 0); lia |].
  split; [exact Hwc |].
  intros x xx Hx. unfold DownScale_state. cbn [wkrs]. rewrite Hk. fold gone.
  destruct (running dd); [| cbn; exact Hx].
  rewrite (stop_all_lookup gone (wkrs s) x xx); [| | exact Hx].
  - cbn. destruct (decide (x ∈ gone)) as [Hin|Hin].
    + rewrite bool_decide_eq_true_2 by exact Hin.
      destruct (wrunning xx); reflexivity.
    + rewrite bool_decide_eq_false_2 by exact Hin.
      destruct (wrunning xx); reflexivity.
  - intros y Hy. apply Hall. eapply removed_allocated, Hy.
Qed.

(** [StartWithContext] keeps a dispatcher well-formed. *)
Lemma Start_state_wf (d : nat) (c : ctxref) (dd : Dispatcher) (s : State) :
  wf_dis s d dd ->
  wf_dis (Start_state d c dd s) d
    (with_running true
       (with_ctx (Derived (length (ctxs s))) (Some (length (ctxs s))) dd)).
Proof.
  intros Hwf. pose proof (wf_dis_allocated _ _ _ Hwf) as Hall.
  destruct Hwf as (Hd & Hwg & Hlen & Hw & _ & Hqi & Hqo).
  split; [unfold Start_state; heap_lookup |].
  split; [exact Hwg |]. split; [exact Hlen |].
  split; [| split; [cbn; eauto | split; assumption]].
  intros w Hin. cbn in Hin. destruct (Hw w Hin) as (ww & Hww & Hk).
  cbn [wkrs Start_state].
  rewrite mark_lookup by exact Hall.
  rewrite decide_True by exact Hin. rewrite Hww. cbn. eauto.
Qed.

Lemma five_started_wf :
  wf_dis five_started 0
    (MkDispatcher true false false [] 0 1 0 5 [0; 1; 2; 3; 4] (Derived 0) (Some 0)).
Proof.
  exact (Start_state_wf 0 Background _ _
           (New_state_wf 5 empty_state ltac:(unfold int_max; lia))).
Qed.

(** C4 at the scenario of the specification: five running workers,
    [DownScale(2)].  Workers 0, 2 and 4 are removed and stopped, workers 1
    and 3 remain and are untouched. *)
Lemma DownScale_shrinks_witness :
  exists s' dd',
    DownScale 0 2 five_started = Ok 0 s' /\
    diss s' !! 0 = Some dd' /\
    workers dd' = [1; 3] /\
    workerCount dd' = 2%Z /\
    wkrs s' !! 0 = Some (MkWorker 0 (MkChan 1 [tt] false) false) /\
    wkrs s' !! 1 = Some (MkWorker 0 (MkChan 1 [] false) true) /\
    wkrs s' !! 4 = Some (MkWorker 0 (MkChan 1 [tt] false) false).
Proof.
  destruct (DownScale_shrinks 0 2 _ five_started five_started_wf)
    as (s' & dd' & H1 & H2 & H3 & _ & _ & _ & _ & _ & H9 & H10).
  { cbn. lia. }
  { unfold max_scale. lia. }
  exists s', dd'.
  split; [exact H1 |]. split; [exact H2 |]. split; [exact H3 |].
  split; [exact H9 |].
  split; [exact (H10 0 (MkWorker 0 (MkChan 1 [] false) true) eq_refl) |].
  split; [exact (H10 1 (MkWorker 0 (MkChan 1 [] false) true) eq_refl) |].
  exact (H10 4 (MkWorker 0 (MkChan 1 [] false) true) eq_refl).
Defined.

(** C4 as stated fails on a stopped dispatcher: its workers are still
    flagged running, [DownScale(2)] removes worker 0, and no stop signal is
    sent to it, because the dispatcher is not running. *)
Lemma DownScale_skips_signal_when_stopped :
  exists s' dd dd' ww ww',
    diss stopped_handle !! 0 = Some dd /\
    DownScale 0 2 stopped_handle = Ok 0 s' /\
    diss s' !! 0 = Some dd' /\
    workers dd = [0; 1; 2] /\ workers dd' = [1; 2] /\
    wkrs stopped_handle !! 0 = Some ww /\ wrunning ww = true /\
    wkrs s' !! 0 = Some ww' /\ buf (kill ww') = [] /\ wrunning ww' = true.
Proof.
  vm_compute. do 5 eexists. repeat split.
Qed.

(** ** UpScale below the current size, then AutoScale (C10) *)

(** [UpScale] keeps a dispatcher well-formed. *)
Lemma UpScale_state_wf (d : nat) (n : Z) (dd dd' : Dispatcher) (s : State) :
  wf_dis s d dd -> (0 <= n <= max_scale)%Z ->
  diss (UpScale_state d n dd s) !! d = Some dd' ->
  wf_dis (UpScale_state d n dd s) d dd'.
Proof.
  intros Hwf Hn Hd'.
  pose proof (wf_dis_allocated _ _ _ Hwf) as Hall.
  destruct Hwf as (Hd & Hwg & Hlen & Hw & Hc & _).
  destruct (UpScale_state_lookup d n dd s Hd)
    as (d2 & Hd2 & Hws & _ & Hrun & _ & Hqi & Hqo & Hwg' & _ & Hctx & _).
  assert (d2 = dd') as -> by congruence.
  split; [exact Hd' |]. split; [lia |].
  split; [rewrite Hws, length_app, length_seq;
          unfold max_scale, int_max in *; lia |].
  split.
  - intros x Hx. rewrite Hws in Hx.
    assert (Hgrown : exists xx,
               (wkrs s ++ replicate
                  (Z.to_nat (n - Z.of_nat (length (workers dd)))) (fresh_worker d))
               !! x = Some xx /\ kill xx = MkChan 1 [] false).
    { apply elem_of_app in Hx as [Hx|Hx].
      - destruct (Hw x Hx) as (xx & Hxx & Hk). exists xx. split; [| exact Hk].
        rewrite lookup_app_l by (eapply lookup_lt_Some, Hxx). exact Hxx.
      - exists (fresh_worker d). split; [| reflexivity].
        eapply lookup_fresh_workers in Hx as [Hx _]. exact Hx. }
    destruct Hgrown as (xx & Hxx & Hk).
    unfold UpScale_state. destruct (running dd).
    + cbn [wkrs set_diss Start_state].
      rewrite mark_lookup by (cbn; apply allocated_grown, Hall).
      cbn [wkrs UpScale_grown]. rewrite Hxx.
      destruct (decide _); cbn; eauto.
    + cbn [wkrs set_diss UpScale_grown]. eauto.
  - split; [intros Hr; rewrite Hrun in Hr; destruct (Hctx Hr) as [_ ->]; eauto |].
    assert (Hch : chans (UpScale_state d n dd s) =
              chans s ++ [MkChan (Z.min (n * 10000) bufferSizeLimit) [] false;
                          MkChan (Z.min (n * 10000) bufferSizeLimit) [] false])
      by (unfold UpScale_state; destruct (running dd); reflexivity).
    rewrite Hch, Hqi, Hqo.
    split; apply lookup_lt_is_Some; rewrite length_app; cbn; lia.
Qed.

(** C10, as the code has it, for [0 <= n <= max_scale] on a well-formed
    dispatcher.  [UpScale(n)] returns with the target count [n], whatever
    the size of the worker set; for [n] below that size the worker set is
    the old one, larger than the target, and a later [AutoScale] (called
    directly, or by a step of an Observer goroutine whose token is live)
    returns with exactly [n] workers. *)
Theorem UpScale_sets_target (d : nat) (n : Z) (dd : Dispatcher) (s : State) :
  wf_dis s d dd -> (0 <= n <= max_scale)%Z ->
  exists s1 d1,
    UpScale d n s = Ok d s1 /\
    diss s1 !! d = Some d1 /\
    workerCount d1 = n /\
    ((n < Z.of_nat (length (workers dd)))%Z ->
       workers d1 = workers dd /\
       (workerCount d1 < Z.of_nat (length (workers d1)))%Z /\
       exists s2 d2,
         AutoScale d s1 = Ok d s2 /\
         diss s2 !! d = Some d2 /\
         Z.of_nat (length (workers d2)) = n /\
         workerCount d2 = n /\
         (forall i p, procs s1 !! i = Some (PObserver d) ->
            ctx_done s1 (ctx d1) = false ->
            step i p s1 = Ok tt s2)).
Proof.
  intros Hwf Hn. pose proof Hwf as (Hd & _).
  destruct (UpScale_state_lookup d n dd s Hd)
    as (d1 & Hd1 & Hws & Hwc & _ & Hsc & _).
  exists (UpScale_state d n dd s), d1.
  split; [apply UpScale_spec; assumption |].
  split; [exact Hd1 |]. split; [exact Hwc |].
  intros Hlt.
  assert (Hsame : workers d1 = workers dd).
  { rewrite Hws. replace (Z.to_nat _) with 0 by lia. apply app_nil_r. }
  split; [exact Hsame |]. split; [rewrite Hsame, Hwc; exact Hlt |].
  pose proof (UpScale_state_wf _ _ _ _ _ Hwf Hn Hd1) as Hwf1.
  destruct (AutoScale_length _ _ _ Hwf1) as (s2 & d2 & HA & _ & Hd2 & Hl & Hc).
  { rewrite Hwc. exact Hn. }
  exists s2, d2. rewrite Hwc in Hl, Hc.
  split; [exact HA |]. split; [exact Hd2 |]. split; [exact Hl |].
  split; [exact Hc |].
  intros i p Hi Hlive. unfold step. rewrite Hi. unfold step_observer.
  erewrite bind_ok by (apply getD_ok; exact Hd1).
  rewrite Hlive, Hsc, Hwc, Hsame.
  destruct (Z.eqb_spec n (Z.of_nat (length (workers dd)))) as [Heq|_]; [lia |].
  cbn [negb andb]. erewrite bind_ok by exact HA. reflexivity.
Qed.

(** C10 at a concrete input: five running workers, [UpScale(2)], then
    [AutoScale]. *)
Lemma UpScale_sets_target_witness :
  exists s1 d1 s2 d2,
    UpScale 0 2 five_started = Ok 0 s1 /\
    diss s1 !! 0 = Some d1 /\
    workerCount d1 = 2%Z /\ workers d1 = [0; 1; 2; 3; 4] /\
    AutoScale 0 s1 = Ok 0 s2 /\
    diss s2 !! 0 = Some d2 /\
    Z.of_nat (length (workers d2)) = 2%Z /\ workerCount d2 = 2%Z.
Proof.
  destruct (UpScale_sets_target 0 2 _ five_started five_started_wf)
    as (s1 & d1 & H1 & H2 & H3 & H4).
  { unfold max_scale. lia. }
  destruct H4 as (H5 & _ & s2 & d2 & H6 & H7 & H8 & H9 & _).
  { cbn. lia. }
  exists s1, d1, s2, d2. repeat split; assumption.
Defined.

(** C10 as stated fails for a negative [n]: [UpScale(-1)] panics in
    [ScaleBuffer] and the target count of the dispatcher stays 3. *)
Lemma UpScale_negative_keeps_target :
  UpScale 0 (-1) init_state = Panic init_state /\
  workerCount <$> diss init_state !! 0 = Some 3%Z.
Proof.
  split; [| reflexivity].
  eapply UpScale_panics; [apply init_state_wf | vm_compute; reflexivity].
Qed.

(** ** Stop (C1) *)

Lemma Stop_spec (d i : nat) (immediately : bool) (dd : Dispatcher) (s : State) :
  diss s !! d = Some dd -> running dd = true -> cancel dd = Some i ->
  immediately = true \/ wg dd = 0%Z ->
  (Z.of_nat (length (workers dd)) <= max_new)%Z ->
  Stop d immediately s =
  Ok (length (diss s))
     (New_state (Z.of_nat (length (workers dd))) (Stop_handle_state d i dd s)).
Proof.
  intros Hd Hrun Hc Himm Hlen. unfold Stop.
  erewrite bind_ok by (apply getD_ok; exact Hd).
  rewrite Hrun. cbn [negb].
  erewrite bind_ok; cycle 1.
  { instantiate (1 := s). instantiate (1 := tt).
    destruct immediately; cbn [negb]; [reflexivity |].
    destruct Himm as [Himm|Hwg]; [discriminate |].
    unfold Wait. erewrite bind_ok by (apply getD_ok; exact Hd).
    rewrite Hrun. unfold wg_wait.
    erewrite bind_ok by (apply getD_ok; exact Hd).
    rewrite Hwg. reflexivity. }
  rewrite Hc. unfold bind at 1, cancel_ctx at 1.
  erewrite bind_ok by (apply modD_ok; cbn; exact Hd).
  erewrite bind_ok by (apply getD_ok; heap_lookup).
  cbn [workers with_running].
  erewrite bind_ok by (apply New_spec; exact Hlen).
  unfold ret, Stop_handle_state. cbn. rewrite length_insert. reflexivity.
Qed.

(** With more workers than [New] accepts, [Stop] panics in [New]. *)
Lemma Stop_panics_above (d i : nat) (immediately : bool) (dd : Dispatcher) (s : State) :
  diss s !! d = Some dd -> running dd = true -> cancel dd = Some i ->
  immediately = true \/ wg dd = 0%Z ->
  (max_new < Z.of_nat (length (workers dd)))%Z ->
  exists s', Stop d immediately s = Panic s'.
Proof.
  intros Hd Hrun Hc Himm Hlen. unfold Stop.
  erewrite bind_ok by (apply getD_ok; exact Hd).
  rewrite Hrun. cbn [negb].
  erewrite bind_ok; cycle 1.
  { instantiate (1 := s). instantiate (1 := tt).
    destruct immediately; cbn [negb]; [reflexivity |].
    destruct Himm as [Himm|Hwg]; [discriminate |].
    unfold Wait. erewrite bind_ok by (apply getD_ok; exact Hd).
    rewrite Hrun. unfold wg_wait.
    erewrite bind_ok by (apply getD_ok; exact Hd).
    rewrite Hwg. reflexivity. }
  rewrite Hc. unfold bind at 1, cancel_ctx at 1.
  erewrite bind_ok by (apply modD_ok; cbn; exact Hd).
  erewrite bind_ok by (apply getD_ok; heap_lookup).
  cbn [workers with_running].
  match goal with
  | |- exists s', bind (New ?n) _ ?t = _ =>
      destruct (New_panics_above n t Hlen) as [s' Hp]
  end.
  exists s'. unfold bind at 1. rewrite Hp. reflexivity.
Qed.

(** The handle keeps its cell: [Stop] writes the new dispatcher elsewhere. *)
Lemma Stop_handle_lookup (d i : nat) (n : Z) (dd : Dispatcher) (s : State) :
  diss s !! d = Some dd ->
  diss (New_state n (Stop_handle_state d i dd s)) !! d =
  Some (with_running false dd).
Proof.
  intros Hd. unfold New_state, Stop_handle_state. cbn.
  rewrite lookup_app_l by (rewrite length_insert; eapply lookup_lt_Some, Hd).
  eapply lookup_insert_same, Hd.
Qed.

Lemma Stop_handle_state_sizes (d i : nat) (dd : Dispatcher) (s : State) :
  length (diss (Stop_handle_state d i dd s)) = length (diss s) /\
  wkrs (Stop_handle_state d i dd s) = wkrs s /\
  chans (Stop_handle_state d i dd s) = chans s /\
  length (ctxs (Stop_handle_state d i dd s)) = length (ctxs s).
Proof.
  unfold Stop_handle_state. cbn. rewrite length_insert.
  repeat split. destruct (ctxs s !! i); rewrite ?length_insert; reflexivity.
Qed.

(** A token that was cancelled is done. *)
Lemma ctx_done_cancelled (s : State) (i : nat) (c : ctxref) :
  ctxs s !! i = Some (MkCtx c true) -> ctx_done s (Derived i) = true.
Proof.
  intros Hi. unfold ctx_done.
  destruct (length (ctxs s)); cbn [done_fuel]; rewrite Hi; reflexivity.
Qed.

(** The tokens after [Stop]: the one the cancel function [i] belongs to is
    cancelled, the others are as they were. *)
Lemma Stop_handle_state_ctxs (d i : nat) (dd : Dispatcher) (s : State) :
  (forall j, j <> i ->
     ctxs (Stop_handle_state d i dd s) !! j = ctxs s !! j) /\
  forall x, ctxs s !! i = Some x ->
    ctxs (Stop_handle_state d i dd s) !! i = Some (MkCtx (parent x) true).
Proof.
  unfold Stop_handle_state. cbn [ctxs set_diss set_ctxs]. split.
  - intros j Hj. destruct (ctxs s !! i); [| reflexivity].
    apply list_lookup_insert_ne. congruence.
  - intros x Hx. rewrite Hx. eapply lookup_insert_same, Hx.
Qed.

(** C1, as the code has it.  On a well-formed running dispatcher with at
    most [max_new] workers [Stop] returns when [immediately] is set or
    nothing is pending, for either value of the flag.  What it returns is a
    dispatcher at a new address with a fresh generation: two new empty
    queues, a new worker set of [max w 1] workers built not running, an
    empty overflow list, a zero counter, and the background context with no
    cancel function.  The receiver is marked not running and its cancel
    function was called: the token that function belongs to is cancelled,
    so its [Done] channel is ready, and every other token is as it was.  A
    subsequent [Start] on the returned dispatcher derives a new token and
    starts every worker of the new set on it, over the new queues. *)
Theorem Stop_returns_fresh_generation
    (d : nat) (immediately : bool) (dd : Dispatcher) (s : State) :
  wf_dis s d dd -> running dd = true ->
  immediately = true \/ wg dd = 0%Z ->
  (Z.of_nat (length (workers dd)) <= max_new)%Z ->
  let d' := length (diss s) in
  let n := Z.max (Z.of_nat (length (workers dd))) 1 in
  exists s' nd,
    Stop d immediately s = Ok d' s' /\
    d' <> d /\ diss s !! d' = None /\
    diss s' !! d' = Some nd /\
    running nd = false /\ queue nd = [] /\ wg nd = 0%Z /\ workerCount nd = n /\
    chans s !! qin nd = None /\ chans s !! qout nd = None /\ qin nd <> qout nd /\
    chans s' !! qin nd = Some (MkChan (Z.min (n * 100) bufferSizeLimit) [] false) /\
    chans s' !! qout nd = Some (MkChan (Z.min (n * 100) bufferSizeLimit) [] false) /\
    length (workers nd) = Z.to_nat n /\ NoDup (workers nd) /\
    (forall x, x ∈ workers nd ->
       wkrs s !! x = None /\
       wkrs s' !! x = Some (MkWorker d' (MkChan 1 [] false) false)) /\
    ctx nd = Background /\ cancel nd = None /\
    (exists od, diss s' !! d = Some od /\ running od = false) /\
    (exists i, cancel dd = Some i /\
       (forall j, j <> i -> ctxs s' !! j = ctxs s !! j) /\
       forall x, ctxs s !! i = Some x ->
         ctxs s' !! i = Some (MkCtx (parent x) true) /\
         ctx_done s' (Derived i) = true) /\
    exists s'' sd,
      Start d' s' = Ok d' s'' /\
      diss s'' !! d' = Some sd /\
      running sd = true /\
      ctxs s' !! length (ctxs s') = None /\
      ctx sd = Derived (length (ctxs s')) /\
      ctxs s'' !! length (ctxs s') = Some (MkCtx Background false) /\
      qin sd = qin nd /\ qout sd = qout nd /\ workers sd = workers nd /\
      forall x, x ∈ workers nd -> PWorker x (ctx sd) ∈ procs s''.
Proof.
  intros Hwf Hrun Himm Hlen d' n.
  destruct Hwf as (Hd & _ & _ & _ & Hc & _).
  destruct (Hc Hrun) as [i Hi].
  set (s1 := Stop_handle_state d i dd s).
  destruct (Stop_handle_state_sizes d i dd s) as (Hl1 & Hw1 & Hc1 & _).
  fold s1 in Hl1, Hw1, Hc1.
  pose proof (New_state_wf (Z.of_nat (length (workers dd))) s1
                ltac:(unfold max_new, int_max in *; lia)) as Hwf'.
  pose proof (New_state_lookup (Z.of_nat (length (workers dd))) s1) as Hlook.
  rewrite Hl1, Hw1, Hc1 in Hwf', Hlook. fold d' n in Hwf', Hlook.
  set (s' := New_state (Z.of_nat (length (workers dd))) s1) in *.
  set (nd := MkDispatcher false false false [] (length (chans s))
               (S (length (chans s))) 0 n (seq (length (wkrs s)) (Z.to_nat n))
               Background None) in *.
  assert (Hchans : chans s' =
            chans s ++ [MkChan (Z.min (n * 100) bufferSizeLimit) [] false;
                        MkChan (Z.min (n * 100) bufferSizeLimit) [] false])
    by (unfold s', New_state; cbn [chans]; rewrite Hc1; reflexivity).
  assert (Hwkrs : wkrs s' = wkrs s ++ replicate (Z.to_nat n) (fresh_worker d'))
    by (unfold s', New_state; cbn [wkrs]; rewrite Hw1, Hl1; reflexivity).
  assert (Hnew : forall x, x ∈ workers nd ->
            wkrs s !! x = None /\ wkrs s' !! x = Some (fresh_worker d')).
  { intros x Hx. rewrite Hwkrs.
    destruct (lookup_fresh_workers (wkrs s) _ (fresh_worker d') x Hx); auto. }
  exists s', nd.
  split; [unfold s', s1; eapply Stop_spec; eauto |].
  split; [apply lookup_lt_Some in Hd; unfold d'; lia |].
  split; [apply lookup_ge_None; unfold d'; lia |].
  split; [exact Hlook |].
  do 4 (split; [reflexivity |]).
  split; [apply lookup_ge_None; cbn; lia |].
  split; [apply lookup_ge_None; cbn; lia |].
  split; [cbn; lia |].
  split; [rewrite Hchans; cbn; apply list_lookup_middle; reflexivity |].
  split; [rewrite Hchans; cbn; rewrite lookup_app_r by lia;
          replace (S (length (chans s)) - length (chans s)) with 1 by lia;
          reflexivity |].
  split; [cbn; apply length_seq |].
  split; [cbn; apply NoDup_seq |].
  split; [exact Hnew |].
  do 2 (split; [reflexivity |]).
  split.
  { exists (with_running false dd). split; [| reflexivity].
    unfold s', s1. apply Stop_handle_lookup, Hd. }
  split.
  { exists i. split; [exact Hi |].
    destruct (Stop_handle_state_ctxs d i dd s) as [Hother Hmine].
    assert (Hctxs : ctxs s' = ctxs s1) by reflexivity.
    split; [intros j Hj; rewrite Hctxs; apply Hother, Hj |].
    intros x Hx. specialize (Hmine x Hx). fold s1 in Hmine.
    rewrite <- Hctxs in Hmine.
    split; [exact Hmine | eapply ctx_done_cancelled, Hmine]. }
  pose proof (wf_dis_allocated _ _ _ Hwf') as Hall.
  exists (Start_state d' Background nd s'),
         (with_running true
            (with_ctx (Derived (length (ctxs s'))) (Some (length (ctxs s'))) nd)).
  split; [apply StartWithContext_spec; [exact Hlook | exact Hall] |].
  split; [unfold Start_state; heap_lookup |].
  split; [reflexivity |].
  split; [apply lookup_ge_None; lia |].
  split; [reflexivity |].
  split; [unfold Start_state; cbn; apply list_lookup_middle; reflexivity |].
  do 3 (split; [reflexivity |]).
  intros x Hx. unfold Start_state. cbn [procs ctx with_running with_ctx].
  apply elem_of_app. right.
  apply (list_elem_of_fmap_2 (fun w0 => PWorker w0 (Derived (length (ctxs s'))))).
  apply to_start_elem with (ww := fresh_worker d');
    [exact Hall | exact Hx | apply Hnew, Hx | reflexivity].
Qed.

Lemma three_started_wf :
  wf_dis three_started 0
    (MkDispatcher true false false [] 0 1 0 3 [0; 1; 2] (Derived 0) (Some 0)).
Proof. exact (Start_state_wf 0 Background _ _ init_state_wf). Qed.

(** C1 at a concrete input: [Stop(false)] on the started instance with
    nothing pending returns dispatcher 1 with three new workers, the token 0
    of the instance, which was not done, is cancelled and done, and [Start]
    on the returned dispatcher returns. *)
Lemma Stop_returns_fresh_generation_witness :
  exists s' nd,
    Stop 0 false three_started = Ok 1 s' /\
    diss s' !! 1 = Some nd /\
    running nd = false /\
    length (workers nd) = 3 /\
    ctx_done three_started (Derived 0) = false /\
    ctxs s' !! 0 = Some (MkCtx Background true) /\
    ctx_done s' (Derived 0) = true /\
    exists s'' sd,
      Start 1 s' = Ok 1 s'' /\ diss s'' !! 1 = Some sd /\ running sd = true.
Proof.
  destruct (Stop_returns_fresh_generation 0 false _ three_started three_started_wf)
    as (s' & nd & H1 & _ & _ & H4 & H5 & _ & _ & _ & _ & _ & _ & _ & _
        & H14 & _ & _ & _ & _ & _ & (i & Hi & _ & Hc)
        & s'' & sd & H20 & H21 & H22 & _).
  { reflexivity. }
  { right. reflexivity. }
  { unfold max_new. cbn. lia. }
  injection Hi as <-.
  destruct (Hc (MkCtx Background false) eq_refl) as [Hc1 Hc2].
  exists s', nd.
  split; [exact H1 |]. split; [exact H4 |]. split; [exact H5 |].
  split; [exact H14 |].
  split; [reflexivity |]. split; [exact Hc1 |]. split; [exact Hc2 |].
  exists s'', sd. split; [exact H20 |]. split; [exact H21 | exact H22].
Defined.

(** C1 as stated fails: after [Stop(true)] the caller's handle 0 still
    holds its old queue pair, its old worker set with every worker flagged
    running, and its cancelled token; [Start] on that handle starts no
    goroutine. *)
Lemma Stop_leaves_handle_generation :
  exists s' od hd s'',
    diss three_started !! 0 = Some od /\
    Stop 0 true three_started = Ok 1 s' /\
    diss s' !! 0 = Some hd /\
    qin hd = qin od /\ qout hd = qout od /\ workers hd = workers od /\
    ctx hd = ctx od /\ ctx_done s' (ctx hd) = true /\
    Start 0 s' = Ok 0 s'' /\ procs s'' = procs s'.
Proof.
  vm_compute. do 4 eexists. repeat split.
Qed.

(** ** Add and run (C5, C8, C9) *)

Lemma Add_spec (d : nat) (job : Job) (dd : Dispatcher) (c : Chan func) (s : State) :
  diss s !! d = Some dd -> (0 <= wg dd)%Z ->
  chans s !! qin dd = Some c -> closed c = false ->
  (Z.of_nat (length (buf c)) < cap c)%Z ->
  Add d job s = Ok (length (echs s)) (Add_state d job dd c s).
Proof.
  intros Hd Hwg Hc Hopen Hroom. unfold Add.
  unfold bind at 1, make_err_chan at 1. cbn [make_chan Z.ltb Z.compare].
  erewrite bind_ok by (eapply wg_add_ok; [heap_lookup | lia]).
  erewrite bind_ok by (apply getD_ok; heap_lookup).
  cbn [qin with_wg].
  unfold bind, send_func, chan_send. cbn [chans set_diss set_echs].
  rewrite Hc, Hopen.
  destruct (Z.ltb_spec (Z.of_nat (length (buf c))) (cap c)) as [_|]; [| lia].
  rewrite <- Hopen at 1. state_eq.
Qed.


Lemma run_spec (w e : nat) (job : Job) (ww : worker) (dd : Dispatcher) (s : State) :
  wkrs s !! w = Some ww -> diss s !! dis ww = Some dd -> (1 <= wg dd)%Z ->
  echs s !! e = Some (MkChan 1 [] false) ->
  run w (Some (Closure e job)) s = Ok tt (run_state e job (dis ww) dd s).
Proof.
  intros Hw Hd Hwg He. unfold run.
  erewrite bind_ok by (apply getW_ok; exact Hw).
  erewrite bind_ok; cycle 1.
  { unfold call. cbn [c_job c_ech]. unfold bind, send_err.
    cbn [echs set_log]. rewrite He.
    change (chan_send (job tt) (MkChan 1 [] false))
      with (SendOk (MkChan 1 [job tt] false)).
    reflexivity. }
  unfold wg_done.
  erewrite wg_add_ok by (first [heap_lookup | cbn; lia]).
  state_eq.
Qed.

(** C5.  On a dispatcher whose intake queue has room, [Add(job)] returns a
    completion channel at an address that held nothing before, empty and of
    capacity one; the counter is one higher; the closure of the job is
    the last entry of the intake queue; and no job was invoked.  Whenever a
    worker of that dispatcher later runs the closure, with the completion
    channel still as [Add] left it, [run] returns: the channel then holds
    exactly the value the job returned, error or nil, the job was invoked
    once, and the counter is one lower. *)
Theorem Add_then_run (d : nat) (job : Job) (dd : Dispatcher) (c : Chan func)
    (s : State) :
  diss s !! d = Some dd -> (0 <= wg dd)%Z ->
  chans s !! qin dd = Some c -> closed c = false ->
  (Z.of_nat (length (buf c)) < cap c)%Z ->
  let e := length (echs s) in
  exists s1 d1 c1,
    Add d job s = Ok e s1 /\
    diss s1 !! d = Some d1 /\ wg d1 = (wg dd + 1)%Z /\
    chans s1 !! qin dd = Some c1 /\
    buf c1 = buf c ++ [Some (Closure e job)] /\
    echs s !! e = None /\ echs s1 !! e = Some (MkChan 1 [] false) /\
    log s1 = log s /\
    forall s2 w ww d2,
      wkrs s2 !! w = Some ww -> dis ww = d -> diss s2 !! d = Some d2 ->
      (1 <= wg d2)%Z -> echs s2 !! e = Some (MkChan 1 [] false) ->
      exists s3 d3,
        run w (Some (Closure e job)) s2 = Ok tt s3 /\
        echs s3 !! e = Some (MkChan 1 [job tt] false) /\
        diss s3 !! d = Some d3 /\ wg d3 = (wg d2 - 1)%Z /\
        log s3 = log s2 ++ [job tt].
Proof.
  intros Hd Hwg Hc Hopen Hroom e.
  exists (Add_state d job dd c s), (with_wg (wg dd + 1) dd),
         (MkChan (cap c) (buf c ++ [Some (Closure e job)]) (closed c)).
  split; [apply Add_spec; assumption |].
  split; [unfold Add_state; heap_lookup |].
  split; [reflexivity |].
  split; [unfold Add_state; cbn; eapply lookup_insert_same, Hc |].
  split; [reflexivity |].
  split; [apply lookup_ge_None; unfold e; lia |].
  split; [unfold Add_state; cbn; apply list_lookup_middle; reflexivity |].
  split; [reflexivity |].
  intros s2 w ww d2 Hw Hdis Hd2 Hwg2 He. subst d.
  exists (run_state e job (dis ww) d2 s2), (with_wg (wg d2 - 1) d2).
  split; [apply run_spec; assumption |].
  split; [unfold run_state; cbn; eapply lookup_insert_same, He |].
  split; [unfold run_state; heap_lookup |].
  split; reflexivity.
Qed.

(** C5 at a concrete input: a failing job added to the instance of [init]
    and run by its worker 0. *)
Lemma Add_then_run_witness :
  exists s1 s3 d3,
    Add 0 failing_job init_state = Ok 0 s1 /\
    run 0 (Some (Closure 0 failing_job)) s1 = Ok tt s3 /\
    echs s3 !! 0 = Some (MkChan 1 [Some "boom"%string] false) /\
    diss s3 !! 0 = Some d3 /\ wg d3 = 0%Z /\
    log s3 = [Some "boom"%string].
Proof.
  destruct (Add_then_run 0 failing_job _ (MkChan 300 [] false) init_state
              (proj1 init_state_wf))
    as (s1 & d1 & c1 & H1 & H2 & H3 & _ & _ & _ & H7 & H8 & Hrun);
    [cbn; lia | reflexivity | reflexivity | cbn; lia |].
  assert (Hw : wkrs s1 !! 0 = Some (MkWorker 0 (MkChan 1 [] false) false)).
  { unfold Add in H1. vm_compute in H1. injection H1 as <-. reflexivity. }
  destruct (Hrun s1 0 _ d1 Hw eq_refl H2) as (s3 & d3 & H9 & H10 & H11 & H12 & H13);
    [rewrite H3; cbn; lia | exact H7 |].
  exists s1, s3, d3.
  split; [exact H1 |]. split; [exact H9 |]. split; [exact H10 |].
  split; [exact H11 |].
  split; [rewrite H12, H3; reflexivity |].
  rewrite H13, H8. reflexivity.
Defined.

(** C9.  [run] on a nil job reads the worker, invokes nothing and runs the
    deferred [Done]: the state it ends in is the state it started in with
    the counter of the worker's dispatcher exactly one lower, the log of
    invoked jobs and every completion channel as they were.  It returns
    whenever the counter was positive, and if the nil entry was the only
    thing pending, [Wait] then returns at once. *)
Theorem run_nil_job (w : nat) (ww : worker) (dd : Dispatcher) (s : State) :
  wkrs s !! w = Some ww -> diss s !! dis ww = Some dd ->
  let s' := set_diss <[dis ww := with_wg (wg dd - 1) dd]> s in
  res_state (run w None s) = s' /\
  log s' = log s /\ echs s' = echs s /\
  ((1 <= wg dd)%Z -> run w None s = Ok tt s') /\
  (wg dd = 1%Z -> running dd = true -> Wait (dis ww) s' = Ok tt s').
Proof.
  intros Hw Hd s'.
  assert (Hrun : run w None s =
                 if (wg dd - 1 <? 0)%Z then Panic s' else Ok tt s').
  { unfold run. erewrite bind_ok by (apply getW_ok; exact Hw).
    unfold bind at 1, ret at 1. unfold wg_done, wg_add.
    erewrite bind_ok by (apply modD_ok; exact Hd).
    erewrite bind_ok by (apply getD_ok; heap_lookup).
    cbn [wg with_wg]. replace (wg dd + -1)%Z with (wg dd - 1)%Z by lia.
    destruct (wg dd - 1 <? 0)%Z; reflexivity. }
  split; [rewrite Hrun; destruct (wg dd - 1 <? 0)%Z; reflexivity |].
  split; [reflexivity |]. split; [reflexivity |].
  split.
  - intros Hpos. rewrite Hrun.
    destruct (Z.ltb_spec (wg dd - 1) 0); [lia | reflexivity].
  - intros Hone Hr. unfold Wait.
    erewrite bind_ok by (apply getD_ok; unfold s'; heap_lookup).
    cbn [running with_wg]. rewrite Hr. unfold wg_wait.
    erewrite bind_ok by (apply getD_ok; unfold s'; heap_lookup).
    cbn [wg with_wg]. rewrite Hone. reflexivity.
Qed.

(** C9 at a concrete input: one entry pending, a worker runs a nil job, the
    counter drops to zero and [Wait] returns. *)
Lemma run_nil_job_witness :
  exists s',
    run 0 None one_pending = Ok tt s' /\
    wg <$> diss s' !! 0 = Some 0%Z /\
    log s' = [] /\
    Wait 0 s' = Ok tt s'.
Proof.
  destruct (run_nil_job 0 (MkWorker 0 (MkChan 1 [] false) true)
              (MkDispatcher true false false [] 0 1 1 3 [0; 1; 2]
                 (Derived 0) (Some 0))
              one_pending eq_refl eq_refl)
    as (_ & H2 & _ & H4 & H5).
  eexists. split; [apply H4; cbn; lia |].
  split; [reflexivity |]. split; [exact H2 |].
  apply H5; reflexivity.
Defined.

(** [wg.Add] never suspends and touches no completion channel. *)
Lemma wg_add_frame (d : nat) (delta : Z) (s : State) :
  (forall s', wg_add d delta s <> Blocked s') /\
  echs (res_state (wg_add d delta s)) = echs s.
Proof.
  unfold wg_add, bind, modD, bind, getD.
  destruct (diss s !! d) as [dd|]; cbn; [| split; [discriminate | reflexivity]].
  destruct (<[d := with_wg (wg dd + delta) dd]> (diss s) !! d) as [d1|]; cbn;
    [| split; [discriminate | reflexivity]].
  destruct (wg d1 <? 0)%Z; cbn; split; (discriminate || reflexivity).
Qed.

(** The channel [Add] hands back is the one it has just made. *)
Lemma Add_inv (d : nat) (job : Job) (s s1 : State) (e : nat) :
  Add d job s = Ok e s1 ->
  e = length (echs s) /\ echs s1 = echs s ++ [MkChan 1 [] false].
Proof.
  unfold Add. unfold bind at 1, make_err_chan at 1. cbn [make_chan Z.ltb Z.compare].
  set (sA := set_echs (fun l => l ++ [MkChan 1 [] false]) s).
  unfold bind at 1.
  pose proof (wg_add_frame d 1 sA) as [_ Hframe].
  destruct (wg_add d 1 sA) as [[] sB| |]; [| discriminate | discriminate].
  cbn in Hframe.
  unfold bind, getD, send_func, ret.
  destruct (diss sB !! d) as [dd|]; [| discriminate].
  destruct (chans sB !! qin dd) as [c|]; [| discriminate].
  destruct (chan_send _ c); [| discriminate | discriminate].
  intros H. injection H as <- <-. split; [reflexivity |].
  cbn. exact Hframe.
Qed.

(** C8.  The completion channel [Add] returns was allocated by that call,
    with capacity one and an empty buffer.  Hence in any later state where
    the channel is still as [Add] left it (nobody has read from it or
    written to it), the worker's run of the closure never suspends, and
    with the worker allocated it leaves the job's result in the channel. *)
Theorem completion_signal_buffered (d : nat) (job : Job) (s s1 : State) (e : nat) :
  Add d job s = Ok e s1 ->
  echs s !! e = None /\
  echs s1 !! e = Some (MkChan 1 [] false) /\
  forall s2 w,
    echs s2 !! e = echs s1 !! e ->
    (forall s3, run w (Some (Closure e job)) s2 <> Blocked s3) /\
    (is_Some (wkrs s2 !! w) ->
     echs (res_state (run w (Some (Closure e job)) s2)) !! e =
     Some (MkChan 1 [job tt] false)).
Proof.
  intros HAdd. destruct (Add_inv _ _ _ _ _ HAdd) as [-> Hechs].
  assert (He1 : echs s1 !! length (echs s) = Some (MkChan 1 [] false))
    by (rewrite Hechs; apply list_lookup_middle; reflexivity).
  split; [apply lookup_ge_None; lia |].
  split; [exact He1 |].
  intros s2 w He2. rewrite He1 in He2.
  destruct (wkrs s2 !! w) as [ww|] eqn:Hw; cycle 1.
  { unfold run, bind, getW. rewrite Hw.
    split; [discriminate | intros [? ?]; discriminate]. }
  set (st := set_echs <[length (echs s) := MkChan 1 [job tt] false]>
               (set_log (fun l => l ++ [job tt]) s2)).
  assert (Hrun : run w (Some (Closure (length (echs s)) job)) s2 =
                 wg_done (dis ww) st).
  { unfold run. erewrite bind_ok by (apply getW_ok; exact Hw).
    erewrite bind_ok; [reflexivity |].
    unfold call. cbn [c_job c_ech]. unfold bind, send_err.
    cbn [echs set_log]. rewrite He2.
    change (chan_send (job tt) (MkChan 1 [] false))
      with (SendOk (MkChan 1 [job tt] false)).
    reflexivity. }
  rewrite Hrun.
  destruct (wg_add_frame (dis ww) (-1) st) as [Hnb Hframe].
  split; [exact Hnb |].
  intros _. unfold wg_done. rewrite Hframe. cbn.
  eapply lookup_insert_same, He2.
Qed.

(** C8 at a concrete input: the job added to the instance of [init]. *)
Lemma completion_signal_buffered_witness :
  echs (Add_state 0 failing_job
          (MkDispatcher false false false [] 0 1 0 3 [0; 1; 2] Background None)
          (MkChan 300 [] false) init_state) !! 0 = Some (MkChan 1 [] false) /\
  forall s3,
    run 0 (Some (Closure 0 failing_job))
      (Add_state 0 failing_job
         (MkDispatcher false false false [] 0 1 0 3 [0; 1; 2] Background None)
         (MkChan 300 [] false) init_state) <> Blocked s3.
Proof.
  destruct (completion_signal_buffered 0 failing_job init_state _ 0
              (Add_spec 0 failing_job _ (MkChan 300 [] false) init_state
                 (proj1 init_state_wf) ltac:(cbn; lia) eq_refl eq_refl
                 ltac:(cbn; lia)))
    as (_ & H2 & H3).
  split; [exact H2 |].
  exact (proj1 (H3 _ 0 eq_refl)).
Defined.

(** ** The draining goroutines (C2, C6) *)

Lemma keeps_refl (s : State) : open_chans s -> keeps s s.
Proof. intros H. split; auto. Qed.

Lemma pres_ret {A : Type} (I : State -> Prop) (a : A) : pres I (ret a).
Proof. intros s H. exact H. Qed.

Lemma pres_panic {A : Type} (I : State -> Prop) : pres I (@panic A).
Proof. intros s H. exact H. Qed.

Lemma pres_block {A : Type} (I : State -> Prop) : pres I (@block A).
Proof. intros s H. exact H. Qed.

Lemma pres_bind {A B : Type} (I : State -> Prop) (m : M A) (k : A -> M B) :
  pres I m -> (forall a, pres I (k a)) -> pres I (bind m k).
Proof.
  intros Hm Hk s H. unfold bind. specialize (Hm s H).
  destruct (m s) as [a s'| |]; cbn in *; auto. apply Hk, Hm.
Qed.

(** A call that writes neither a channel nor the goroutine table. *)
Lemma pres_frame {A : Type} (s0 : State) (m : M A) :
  (forall s, chans (res_state (m s)) = chans s /\
             procs (res_state (m s)) = procs s) ->
  pres (keeps s0) m.
Proof.
  intros Hf s [Ho Hd]. destruct (Hf s) as [Hc Hp].
  split.
  - intros i c. rewrite Hc. apply Ho.
  - intros i k. rewrite Hp. apply Hd.
Qed.

Lemma pres_getD (s0 : State) (d : nat) : pres (keeps s0) (getD d).
Proof.
  apply pres_frame. intros s. unfold getD.
  destruct (diss s !! d); split; reflexivity.
Qed.

Lemma pres_modD (s0 : State) (d : nat) (f : Dispatcher -> Dispatcher) :
  pres (keeps s0) (modD d f).
Proof.
  apply pres_frame. intros s. unfold modD, bind, getD.
  destruct (diss s !! d); split; reflexivity.
Qed.

Lemma pres_getW (s0 : State) (w : nat) : pres (keeps s0) (getW w).
Proof.
  apply pres_frame. intros s. unfold getW.
  destruct (wkrs s !! w); split; reflexivity.
Qed.

Lemma pres_modW (s0 : State) (w : nat) (f : worker -> worker) :
  pres (keeps s0) (modW w f).
Proof.
  apply pres_frame. intros s. unfold modW, bind, getW.
  destruct (wkrs s !! w); split; reflexivity.
Qed.

Lemma pres_make_err_chan (s0 : State) (size : Z) : pres (keeps s0) (make_err_chan size).
Proof.
  apply pres_frame. intros s. unfold make_err_chan.
  destruct (make_chan size); split; reflexivity.
Qed.

Lemma pres_send_err (s0 : State) (ch : nat) (e : error) : pres (keeps s0) (send_err ch e).
Proof.
  apply pres_frame. intros s. unfold send_err.
  destruct (echs s !! ch) as [c|]; [| split; reflexivity].
  destruct (chan_send e c); split; reflexivity.
Qed.

Lemma pres_new_worker (s0 : State) (d : nat) : pres (keeps s0) (new_worker d).
Proof. apply pres_frame. intros s. split; reflexivity. Qed.

Lemma pres_with_cancel (s0 : State) (c : ctxref) : pres (keeps s0) (with_cancel c).
Proof. apply pres_frame. intros s. split; reflexivity. Qed.

Lemma pres_cancel_ctx (s0 : State) (i : nat) : pres (keeps s0) (cancel_ctx i).
Proof. apply pres_frame. intros s. split; reflexivity. Qed.

Lemma pres_get_instance (s0 : State) : pres (keeps s0) get_instance.
Proof. apply pres_frame. intros s. split; reflexivity. Qed.

Lemma open_chans_snoc (s : State) (c : Chan func) :
  open_chans s -> closed c = false -> forall i c',
  (chans s ++ [c]) !! i = Some c' -> closed c' = false.
Proof.
  intros Ho Hc i c' Hi. apply lookup_app_Some in Hi as [Hi|[_ Hi]].
  - eapply Ho, Hi.
  - apply list_lookup_singleton_Some in Hi as [_ <-]. exact Hc.
Qed.

Lemma open_chans_insert (s : State) (ch : nat) (c : Chan func) :
  open_chans s -> closed c = false -> forall i c',
  <[ch := c]> (chans s) !! i = Some c' -> closed c' = false.
Proof.
  intros Ho Hc i c' Hi. destruct (decide (ch = i)) as [->|Hne].
  - apply list_lookup_insert_Some in Hi as [(_ & -> & _)|[Hne _]]; [exact Hc | congruence].
  - rewrite list_lookup_insert_ne in Hi by exact Hne. eapply Ho, Hi.
Qed.

(** [make] returns an open channel. *)
Lemma pres_make_func_chan (s0 : State) (size : Z) :
  pres (keeps s0) (make_func_chan size).
Proof.
  intros s [Ho Hd]. unfold make_func_chan, make_chan.
  destruct (size <? 0)%Z; cbn; [split; assumption |].
  split; [| exact Hd].
  intros i c. cbn. apply open_chans_snoc; auto.
Qed.

(** A send leaves the channel open. *)
Lemma pres_send_func (s0 : State) (ch : nat) (job : func) :
  pres (keeps s0) (send_func ch job).
Proof.
  intros s [Ho Hd]. unfold send_func.
  destruct (chans s !! ch) as [c|] eqn:Hc; cbn; [| split; assumption].
  unfold chan_send. rewrite (Ho _ _ Hc).
  destruct (Z.of_nat (length (buf c)) <? cap c)%Z; cbn; [| split; assumption].
  split; [| exact Hd].
  intros i c'. cbn. apply open_chans_insert; [exact Ho | reflexivity].
Qed.

(** A receive leaves the channel open. *)
Lemma pres_recv_func (s0 : State) (ch : nat) : pres (keeps s0) (recv_func ch).
Proof.
  intros s [Ho Hd]. unfold recv_func.
  destruct (chans s !! ch) as [c|] eqn:Hc; cbn; [| split; assumption].
  unfold chan_recv. rewrite (Ho _ _ Hc).
  destruct (buf c); cbn; [split; assumption |].
  split; [| exact Hd].
  intros i c'. cbn. apply open_chans_insert; [exact Ho | reflexivity].
Qed.

(** Starting a goroutine leaves the others where they are. *)
Lemma pres_spawn (s0 : State) (p : Proc) : pres (keeps s0) (spawn p).
Proof.
  intros s [Ho Hd]. split; [exact Ho |].
  intros i k Hk. specialize (Hd i k Hk). cbn.
  destruct (procs s !! i) as [q|] eqn:Hq; [| discriminate].
  rewrite lookup_app_l by (eapply lookup_lt_Some, Hq). rewrite Hq. exact Hd.
Qed.

Create HintDb pres.
#[export] Hint Resolve pres_ret pres_panic pres_block pres_getD pres_modD
  pres_getW pres_modW pres_make_err_chan pres_send_err pres_new_worker
  pres_with_cancel pres_cancel_ctx pres_get_instance pres_make_func_chan
  pres_send_func pres_recv_func pres_spawn : pres.

(** Walks through a sequence of calls, closing each with the lemma for it. *)
Ltac pres_tac :=
  repeat first
    [ progress intros
    | apply pres_bind
    | solve [eauto with pres]
    | match goal with
      | |- pres _ (if ?b then _ else _) => destruct b
      | |- pres _ (match ?x with _ => _ end) => destruct x
      end ].

Lemma pres_wg_add (s0 : State) (d : nat) (delta : Z) : pres (keeps s0) (wg_add d delta).
Proof. unfold wg_add. pres_tac. Qed.
#[export] Hint Resolve pres_wg_add : pres.

Lemma pres_wg_done (s0 : State) (d : nat) : pres (keeps s0) (wg_done d).
Proof. unfold wg_done. pres_tac. Qed.

Lemma pres_wg_wait (s0 : State) (d : nat) : pres (keeps s0) (wg_wait d).
Proof. unfold wg_wait. pres_tac. Qed.

Lemma pres_start (s0 : State) (w : nat) (c : ctxref) : pres (keeps s0) (start w c).
Proof. unfold start. pres_tac. Qed.

Lemma pres_stop (s0 : State) (w : nat) : pres (keeps s0) (stop w).
Proof. unfold stop. pres_tac. Qed.
#[export] Hint Resolve pres_wg_done pres_wg_wait pres_start pres_stop : pres.

Lemma pres_call (s0 : State) (c : closure) : pres (keeps s0) (call c).
Proof.
  unfold call. apply pres_bind; [| pres_tac].
  apply pres_frame. intros s. split; reflexivity.
Qed.
#[export] Hint Resolve pres_call : pres.

Lemma pres_run (s0 : State) (w : nat) (job : func) : pres (keeps s0) (run w job).
Proof. unfold run. pres_tac. Qed.

Lemma pres_newDispatcher (s0 : State) (n : Z) : pres (keeps s0) (newDispatcher n).
Proof.
  unfold newDispatcher. do 2 (apply pres_bind; [pres_tac | intros]).
  destruct (make_workers_ok n); [| apply pres_panic].
  apply pres_frame. intros s. split; reflexivity.
Qed.
#[export] Hint Resolve pres_run pres_newDispatcher : pres.

Lemma pres_grow (s0 : State) (k d : nat) : pres (keeps s0) (grow k d).
Proof. induction k as [|k IH]; cbn [grow]; pres_tac. Qed.
#[export] Hint Resolve pres_grow : pres.

Lemma pres_New (s0 : State) (n : Z) : pres (keeps s0) (New n).
Proof. unfold New. pres_tac. Qed.

Lemma pres_start_all (s0 : State) (ws : list nat) (c : ctxref) :
  pres (keeps s0) (start_all ws c).
Proof. induction ws as [|w rest IH]; cbn [start_all]; pres_tac. Qed.
#[export] Hint Resolve pres_New pres_start_all : pres.

Lemma pres_StartWithContext (s0 : State) (d : nat) (c : ctxref) :
  pres (keeps s0) (StartWithContext d c).
Proof. unfold StartWithContext. pres_tac. Qed.
#[export] Hint Resolve pres_StartWithContext : pres.

Lemma pres_Start (s0 : State) (d : nat) : pres (keeps s0) (Start d).
Proof. unfold Start. pres_tac. Qed.

Lemma pres_Add (s0 : State) (d : nat) (job : Job) : pres (keeps s0) (Add d job).
Proof. unfold Add. pres_tac. Qed.

Lemma pres_Wait (s0 : State) (d : nat) : pres (keeps s0) (Wait d).
Proof. unfold Wait. pres_tac. Qed.
#[export] Hint Resolve pres_Start pres_Add pres_Wait : pres.

Lemma pres_Stop (s0 : State) (d : nat) (b : bool) : pres (keeps s0) (Stop d b).
Proof. unfold Stop. pres_tac. Qed.

Lemma pres_ScaleBuffer (s0 : State) (d : nat) (size : Z) :
  pres (keeps s0) (ScaleBuffer d size).
Proof. unfold ScaleBuffer. pres_tac. Qed.
#[export] Hint Resolve pres_Stop pres_ScaleBuffer : pres.

Lemma pres_UpScale (s0 : State) (d : nat) (n : Z) : pres (keeps s0) (UpScale d n).
Proof. unfold UpScale. pres_tac. Qed.

Lemma pres_shrink (s0 : State) (k d idx : nat) : pres (keeps s0) (shrink k d idx).
Proof.
  revert idx. induction k as [|k IH]; intros idx; cbn [shrink]; pres_tac.
Qed.
#[export] Hint Resolve pres_UpScale pres_shrink : pres.

Lemma pres_DownScale (s0 : State) (d : nat) (n : Z) : pres (keeps s0) (DownScale d n).
Proof. unfold DownScale. pres_tac. Qed.
#[export] Hint Resolve pres_DownScale : pres.

Lemma pres_AutoScale (s0 : State) (d : nat) : pres (keeps s0) (AutoScale d).
Proof. unfold AutoScale. pres_tac. Qed.

Lemma pres_Reset (s0 : State) (d : nat) : pres (keeps s0) (Reset d).
Proof. unfold Reset. pres_tac. Qed.

Lemma pres_QueueRunner (s0 : State) (d : nat) : pres (keeps s0) (QueueRunner d).
Proof. unfold QueueRunner. pres_tac. Qed.

Lemma pres_StartWorkerObserver (s0 : State) (d : nat) :
  pres (keeps s0) (StartWorkerObserver d).
Proof. unfold StartWorkerObserver. pres_tac. Qed.
#[export] Hint Resolve pres_AutoScale pres_Reset pres_QueueRunner
  pres_StartWorkerObserver : pres.

Lemma pres_Get (s0 : State) (n : Z) : pres (keeps s0) (Get n).
Proof.
  unfold Get. apply pres_bind; [| pres_tac].
  intros s H. destruct (once s); [exact H |].
  assert (Hn : pres (keeps s0)
                 (let! d := New (if (n <? 1)%Z then 1%Z else n) in
                  fun s' => Ok tt (set_once true (set_instance d s')))).
  { apply pres_bind; [pres_tac |]. intros d.
    apply pres_frame. intros s'. split; reflexivity. }
  apply Hn, H.
Qed.
#[export] Hint Resolve pres_Get : pres.

Lemma pres_forget {A : Type} (s0 : State) (m : M A) :
  pres (keeps s0) m -> pres (keeps s0) (forget m).
Proof. intros H. unfold forget. pres_tac. Qed.

(** Rewriting the entry of a goroutine that is in no draining loop, or
    keeping it in the loop it is in. *)
Lemma keeps_set_proc (s0 s : State) (i : nat) (p q : Proc) :
  keeps s0 s -> procs s !! i = Some q ->
  drain_of (Some q) = None \/ drain_of (Some p) = drain_of (Some q) ->
  keeps s0 (set_procs <[i := p]> s).
Proof.
  intros [Ho Hd] Hq Hpq. split; [exact Ho |].
  intros j k Hk. specialize (Hd j k Hk). cbn.
  destruct (decide (i = j)) as [->|Hne].
  - rewrite (lookup_insert_same _ _ _ _ Hq).
    rewrite Hq in Hd. destruct Hpq as [Hn|He]; congruence.
  - rewrite list_lookup_insert_ne by exact Hne. exact Hd.
Qed.

(** In an open heap a receive never reports a closed channel. *)
Lemma recv_func_open (s : State) (ch : nat) :
  open_chans s ->
  match recv_func ch s with
  | Ok (Some job) s' =>
      procs s' = procs s /\ diss s' = diss s /\
      exists c, chans s' = <[ch := c]> (chans s) /\ closed c = false
  | Ok None _ => False
  | Blocked s' => s' = s
  | Panic s' => s' = s
  end.
Proof.
  intros Ho. unfold recv_func.
  destruct (chans s !! ch) as [c|] eqn:Hc; [| reflexivity].
  unfold chan_recv. rewrite (Ho _ _ Hc).
  destruct (buf c); [reflexivity |].
  repeat split. eexists. split; reflexivity.
Qed.

Lemma keeps_chans_insert (s0 s s' : State) (ch : nat) (c : Chan func) :
  keeps s0 s -> closed c = false ->
  chans s' = <[ch := c]> (chans s) -> procs s' = procs s ->
  keeps s0 s'.
Proof.
  intros [Ho Hd] Hc Hch Hp. split.
  - intros i c'. rewrite Hch. apply open_chans_insert; assumption.
  - intros i k. rewrite Hp. apply Hd.
Qed.

(** A step of a draining goroutine: it stays in its loop, and no overflow
    list is written. *)
Lemma step_drain_in_keeps (s0 s : State) (i d old : nat) (tmp : list func) :
  keeps s0 s -> procs s !! i = Some (PDrainIn d old tmp) ->
  keeps s0 (res_state (step_drain_in i d old tmp s)) /\
  diss (res_state (step_drain_in i d old tmp s)) = diss s.
Proof.
  intros Hk Hi. unfold step_drain_in, bind.
  pose proof (recv_func_open s old (proj1 Hk)) as Hr.
  destruct (recv_func old s) as [[job|] s'| |]; cbn;
    [| contradiction | subst; auto | subst; auto].
  destruct Hr as (Hp & Hdiss & c & Hch & Hc).
  split; [| exact Hdiss].
  eapply keeps_set_proc.
  - eapply keeps_chans_insert; eauto.
  - rewrite Hp. exact Hi.
  - right. reflexivity.
Qed.

Lemma step_drain_out_keeps (s0 s : State) (i d old : nat) (tmp : list func) :
  keeps s0 s -> procs s !! i = Some (PDrainOut d old tmp) ->
  keeps s0 (res_state (step_drain_out i d old tmp s)) /\
  diss (res_state (step_drain_out i d old tmp s)) = diss s.
Proof.
  intros Hk Hi. unfold step_drain_out, bind.
  pose proof (recv_func_open s old (proj1 Hk)) as Hr.
  destruct (recv_func old s) as [[job|] s'| |]; cbn;
    [| contradiction | subst; auto | subst; auto].
  destruct Hr as (Hp & Hdiss & c & Hch & Hc).
  split; [| exact Hdiss].
  eapply keeps_set_proc.
  - eapply keeps_chans_insert; eauto.
  - rewrite Hp. exact Hi.
  - right. reflexivity.
Qed.

Lemma step_worker_keeps (s0 s : State) (i w : nat) (c : ctxref) (p : pick) :
  keeps s0 s -> procs s !! i = Some (PWorker w c) ->
  keeps s0 (res_state (step_worker i w c p s)).
Proof.
  intros Hk Hi. destruct p; cbn [step_worker].
  - unfold bind, getW. destruct (wkrs s !! w) as [ww|] eqn:Hw; [| exact Hk].
    destruct (chan_recv (kill ww)) as [x k| |]; [| | exact Hk].
    + unfold modW, bind, getW. rewrite Hw.
      eapply keeps_set_proc; [| exact Hi | left; reflexivity].
      destruct Hk as [Ho Hd]. split; assumption.
    + eapply keeps_set_proc; [exact Hk | exact Hi | left; reflexivity].
  - destruct (ctx_done s c); [| exact Hk].
    eapply keeps_set_proc; [exact Hk | exact Hi | left; reflexivity].
  - revert s Hk Hi.
    assert (Hp : pres (keeps s0)
                   (let! ww := getW w in
                    let! dd := getD (dis ww) in
                    let! r := recv_func (qout dd) in
                    run w (match r with Some job => job | None => None end)))
      by pres_tac.
    intros s Hk _. apply Hp, Hk.
Qed.

Lemma keeps_diss (s0 s : State) (f : list Dispatcher -> list Dispatcher) :
  keeps s0 s -> keeps s0 (set_diss f s).
Proof. intros [Ho Hd]. split; assumption. Qed.

Lemma step_relay_keeps (s0 s : State) (i d : nat) (p : pick) :
  keeps s0 s -> procs s !! i = Some (PRelay d) ->
  keeps s0 (res_state (step_relay i d p s)).
Proof.
  intros Hk Hi. unfold step_relay, bind at 1, getD.
  destruct (diss s !! d) as [dd|] eqn:Hd; [| exact Hk].
  destruct p.
  - exact Hk.
  - destruct (ctx_done s (ctx dd)); [| exact Hk].
    eapply keeps_set_proc; [exact Hk | exact Hi | left; reflexivity].
  - unfold bind at 1.
    pose proof (recv_func_open s (qin dd) (proj1 Hk)) as Hr.
    destruct (recv_func (qin dd) s) as [[job|] s'| |]; cbn;
      [| contradiction | subst; auto | subst; auto].
    destruct Hr as (Hp & Hdiss & c & Hch & Hc).
    assert (Hk' : keeps s0 s') by (eapply keeps_chans_insert; eauto).
    unfold bind, modD, bind, getD.
    destruct (diss s' !! d) as [d1|]; [| exact Hk'].
    cbn [diss set_diss].
    destruct (<[d := _]> (diss s') !! d) as [d2|]; [| apply keeps_diss, Hk'].
    destruct (queue d2); [apply keeps_diss, Hk' |].
    apply keeps_set_proc with (q := PRelay d);
      [apply keeps_diss, Hk' | | left; reflexivity].
    cbn. rewrite Hp. exact Hi.
Qed.

Lemma step_relay_send_keeps (s0 s : State) (i d out : nat) (job : func) :
  keeps s0 s -> procs s !! i = Some (PRelaySend d out job) ->
  keeps s0 (res_state (step_relay_send i d out job s)).
Proof.
  intros Hk Hi. unfold step_relay_send, bind at 1.
  pose proof (pres_send_func s0 out job s Hk) as Hs.
  unfold send_func in *.
  destruct (chans s !! out) as [c|]; [| exact Hk].
  destruct (chan_send job c) as [c'| |]; [| exact Hk | exact Hk].
  cbn in Hs. unfold bind, getD. cbn [diss set_chans].
  destruct (diss s !! d) as [dd|]; [| exact Hs].
  destruct (queue dd) as [|x rest]; [exact Hs |].
  unfold modD, bind, getD. cbn [diss set_chans].
  destruct (diss s !! d) as [d1|]; [| exact Hs].
  eapply keeps_set_proc; [apply keeps_diss, Hs | exact Hi | left; reflexivity].
Qed.

Lemma step_observer_keeps (s0 s : State) (i d : nat) :
  keeps s0 s -> procs s !! i = Some (PObserver d) ->
  keeps s0 (res_state (step_observer i d s)).
Proof.
  intros Hk Hi. unfold step_observer, bind at 1, getD.
  destruct (diss s !! d) as [dd|]; [| exact Hk].
  destruct (ctx_done s (ctx dd)).
  - eapply keeps_set_proc; [exact Hk | exact Hi | left; reflexivity].
  - destruct (_ && _); [| exact Hk].
    assert (Hp : pres (keeps s0) (AutoScale d >> ret tt)) by pres_tac.
    apply Hp, Hk.
Qed.

Lemma step_keeps (s0 s : State) (i : nat) (p : pick) :
  keeps s0 s -> keeps s0 (res_state (step i p s)).
Proof.
  intros Hk. unfold step.
  destruct (procs s !! i) as [[w c|d old tmp|d old tmp|d|d out job|d|]|] eqn:Hi;
    try exact Hk.
  - apply step_worker_keeps; assumption.
  - apply step_drain_in_keeps; assumption.
  - apply step_drain_out_keeps; assumption.
  - apply step_relay_keeps; assumption.
  - apply step_relay_send_keeps; assumption.
  - apply step_observer_keeps; assumption.
Qed.

(** Whatever the program does next, no channel is closed and no draining
    goroutine leaves its loop. *)
Lemma act_keeps (s0 s : State) (a : Action) :
  keeps s0 s -> keeps s0 (res_state (act a s)).
Proof.
  destruct a; cbn [act]; try (apply pres_forget; auto with pres).
  - apply pres_Wait.
  - apply step_keeps.
Qed.

Lemma exec_keeps (s0 s : State) (l : list Action) :
  keeps s0 s -> keeps s0 (exec l s).
Proof.
  revert s. induction l as [|a l IH]; intros s Hk; cbn [exec]; [exact Hk |].
  pose proof (act_keeps s0 s a Hk) as Ha.
  destruct (act a s); cbn in Ha; auto.
Qed.

Lemma init_state_open : open_chans init_state.
Proof.
  intros i c Hi.
  change (chans init_state) with [MkChan 300 [] false; MkChan 300 [] (A:=func) false] in Hi.
  destruct i as [|[|i]]; cbn in Hi; [| | discriminate]; injection Hi as <-; reflexivity.
Qed.

(** What the code after the two loops would do, were an old channel ever
    closed and drained: the jobs taken from the old output queue go in
    front of the overflow list, those from the old intake queue behind it,
    and the counter is lowered. *)
Lemma drain_exit_order (s : State) (i d old : nat) (tmp : list func)
    (dd : Dispatcher) (cp : Z) :
  chans s !! old = Some (MkChan cp [] true) ->
  diss s !! d = Some dd -> (1 <= wg dd)%Z ->
  step_drain_out i d old tmp s =
    Ok tt (set_procs <[i := PExit]>
             (set_diss <[d := with_wg (wg dd - 1) (with_queue (tmp ++ queue dd) dd)]> s)) /\
  step_drain_in i d old tmp s =
    Ok tt (set_procs <[i := PExit]>
             (set_diss <[d := with_wg (wg dd - 1) (with_queue (queue dd ++ tmp) dd)]> s)).
Proof.
  intros Hc Hd Hwg.
  assert (Hr : recv_func old s = Ok None s)
    by (unfold recv_func; rewrite Hc; reflexivity).
  split.
  - unfold step_drain_out. erewrite bind_ok by exact Hr. cbv beta iota.
    erewrite bind_ok by (apply modD_ok; exact Hd).
    unfold wg_done.
    erewrite bind_ok by (eapply wg_add_ok; [heap_lookup | cbn; lia]).
    unfold set_proc. state_eq. rewrite list_insert_insert_eq. reflexivity.
  - unfold step_drain_in. erewrite bind_ok by exact Hr. cbv beta iota.
    erewrite bind_ok by (apply modD_ok; exact Hd).
    unfold wg_done.
    erewrite bind_ok by (eapply wg_add_ok; [heap_lookup | cbn; lia]).
    unfold set_proc. state_eq. rewrite list_insert_insert_eq. reflexivity.
Qed.

(** From a state where two goroutines are in their draining loops, they stay
    there along every run. *)
Lemma drains_stay (s1 : State) (i j : nat) (ki kj : drain_kind * nat * nat) :
  open_chans s1 ->
  drain_of (procs s1 !! i) = Some ki -> drain_of (procs s1 !! j) = Some kj ->
  forall l,
    drain_of (procs (exec l s1) !! i) = Some ki /\
    drain_of (procs (exec l s1) !! j) = Some kj.
Proof.
  intros Ho Hi Hj l.
  pose proof (exec_keeps s1 s1 l (keeps_refl _ Ho)) as [_ Hl].
  split; apply Hl; assumption.
Qed.

(** C2 on the code.  After a rescale of a well-formed dispatcher, in either
    direction, the two draining goroutines hold the old queue pair, which is
    no longer the dispatcher's; and however the program goes on (any calls
    of the interface, any steps of any goroutines), each of them is still in
    its [range] loop.  No channel is ever closed, so the loop never ends. *)
Theorem drains_never_terminate
    (up : bool) (d : nat) (n : Z) (dd : Dispatcher) (s : State) :
  wf_dis s d dd -> open_chans s -> (0 <= n <= max_scale)%Z ->
  let i := length (procs s) in
  exists s1 d1,
    (if up then UpScale d n else DownScale d n) s = Ok d s1 /\
    diss s1 !! d = Some d1 /\
    qin d1 <> qin dd /\ qout d1 <> qout dd /\
    procs s1 !! i = Some (PDrainIn d (qin dd) []) /\
    procs s1 !! S i = Some (PDrainOut d (qout dd) []) /\
    forall l,
      drain_of (procs (exec l s1) !! i) = Some (DrainIn, d, qin dd) /\
      drain_of (procs (exec l s1) !! S i) = Some (DrainOut, d, qout dd).
Proof.
  intros Hwf Ho Hn i. pose proof Hwf as (Hd & _ & _ & _ & _ & Hqi & Hqo).
  apply lookup_lt_is_Some in Hqi, Hqo.
  assert (Hmid : forall rest,
            (procs s ++ [PDrainIn d (qin dd) []; PDrainOut d (qout dd) []] ++ rest)
            !! i = Some (PDrainIn d (qin dd) []) /\
            (procs s ++ [PDrainIn d (qin dd) []; PDrainOut d (qout dd) []] ++ rest)
            !! S i = Some (PDrainOut d (qout dd) [])).
  { intros rest. split.
    - apply list_lookup_middle. reflexivity.
    - rewrite lookup_app_r by (unfold i; lia).
      replace (S i - length (procs s)) with 1 by (unfold i; lia). reflexivity. }
  destruct up.
  - destruct (UpScale_state_lookup d n dd s Hd)
      as (d1 & Hd1 & _ & _ & _ & _ & Hi & Ho' & _).
    pose proof (pres_UpScale s d n s (keeps_refl _ Ho)) as [Hopen _].
    rewrite (UpScale_spec _ _ _ _ Hwf Hn) in Hopen. cbn [res_state] in Hopen.
    assert (Hp : exists rest, procs (UpScale_state d n dd s) =
              procs s ++ [PDrainIn d (qin dd) []; PDrainOut d (qout dd) []] ++ rest).
    { unfold UpScale_state. destruct (running dd);
        cbn [procs set_diss Start_state UpScale_grown].
      - eexists. rewrite <- app_assoc. reflexivity.
      - exists []. reflexivity. }
    destruct Hp as [rest Hp]. destruct (Hmid rest) as [H1 H2].
    rewrite <- Hp in H1, H2.
    exists (UpScale_state d n dd s), d1.
    split; [apply UpScale_spec; assumption |]. split; [exact Hd1 |].
    split; [lia |]. split; [lia |]. split; [exact H1 |]. split; [exact H2 |].
    apply drains_stay; [exact Hopen | rewrite H1 | rewrite H2]; reflexivity.
  - destruct (DownScale_state_lookup d n dd s Hd)
      as (d1 & Hd1 & _ & _ & _ & _ & Hi & Ho' & _).
    pose proof (pres_DownScale s d n s (keeps_refl _ Ho)) as [Hopen _].
    rewrite (DownScale_spec _ _ _ _ Hwf Hn) in Hopen. cbn [res_state] in Hopen.
    destruct (Hmid []) as [H1 H2]. cbn [app] in H1, H2.
    exists (DownScale_state d n dd s), d1.
    split; [apply DownScale_spec; assumption |]. split; [exact Hd1 |].
    split; [lia |]. split; [lia |]. split; [exact H1 |]. split; [exact H2 |].
    apply drains_stay; [exact Hopen | | ];
      unfold DownScale_state; cbn [procs]; [rewrite H1 | rewrite H2]; reflexivity.
Qed.

(** C2 at the failing input: [UpScale(7)] on the instance of [init], and
    then any run of the program. *)
Lemma drains_never_terminate_witness :
  exists s1,
    UpScale 0 7 init_state = Ok 0 s1 /\
    procs s1 !! 0 = Some (PDrainIn 0 0 []) /\
    procs s1 !! 1 = Some (PDrainOut 0 1 []) /\
    forall l,
      drain_of (procs (exec l s1) !! 0) = Some (DrainIn, 0, 0) /\
      drain_of (procs (exec l s1) !! 1) = Some (DrainOut, 0, 1).
Proof.
  destruct (drains_never_terminate true 0 7 _ init_state init_state_wf init_state_open)
    as (s1 & d1 & H1 & _ & _ & _ & H5 & H6 & H7).
  { unfold max_scale. lia. }
  exists s1. split; [exact H1 |]. split; [exact H5 |]. split; [exact H6 | exact H7].
Defined.

(** C6 on the code.  Along every run from a state with no closed channel, a
    step of a goroutine that is in a draining loop writes no field of any
    dispatcher: in particular it neither prepends to nor appends to an
    overflow list.  The jobs it has taken from the old queue stay in its
    [tmpQueue]. *)
Theorem drained_jobs_never_reach_overflow
    (s : State) (l : list Action) (i : nat) (p : pick) (k : drain_kind * nat * nat) :
  open_chans s ->
  drain_of (procs (exec l s) !! i) = Some k ->
  diss (res_state (step i p (exec l s))) = diss (exec l s) /\
  map queue (diss (res_state (step i p (exec l s)))) = map queue (diss (exec l s)) /\
  drain_of (procs (res_state (step i p (exec l s))) !! i) = Some k.
Proof.
  intros Ho Hk.
  pose proof (exec_keeps s s l (keeps_refl _ Ho)) as Hks.
  set (s' := exec l s) in *.
  assert (Hd : diss (res_state (step i p s')) = diss s').
  { unfold step.
    destruct (procs s' !! i) as [[w c|d old tmp|d old tmp|d|d out job|d|]|] eqn:Hi;
      try discriminate.
    - apply (step_drain_in_keeps s s' i d old tmp Hks Hi).
    - apply (step_drain_out_keeps s s' i d old tmp Hks Hi). }
  split; [exact Hd |]. split; [rewrite Hd; reflexivity |].
  pose proof (step_keeps s' s' i p (keeps_refl _ (proj1 Hks))) as [_ Hs].
  apply Hs, Hk.
Qed.

(** C6 at the failing input: both jobs have left the old intake queue and
    sit in [tmpQueue]; the overflow list is empty and the next step of the
    goroutine leaves it so. *)
Lemma drained_jobs_never_reach_overflow_witness :
  procs two_jobs_drained !! 0 =
    Some (PDrainIn 0 0 [Some (Closure 0 failing_job); Some (Closure 1 failing_job)]) /\
  buf <$> chans two_jobs_drained !! 0 = Some [] /\
  queue <$> diss two_jobs_drained !! 0 = Some [] /\
  map queue (diss (res_state (step 0 PickJob two_jobs_drained))) =
  map queue (diss two_jobs_drained).
Proof.
  split; [vm_compute; reflexivity |].
  split; [vm_compute; reflexivity |].
  split; [vm_compute; reflexivity |].
  apply (drained_jobs_never_reach_overflow init_state _ 0 PickJob (DrainIn, 0, 0)
           init_state_open).
  vm_compute. reflexivity.
Defined.

(** ** The concrete states are states of the program *)

Lemma three_started_reached :
  StartWithContext 0 Background init_state = Ok 0 three_started.
Proof.
  apply StartWithContext_spec; [apply init_state_wf |].
  eapply wf_dis_allocated, init_state_wf.
Qed.

Lemma five_started_reached :
  exec [CallNew 5; CallStart 0 Background] empty_state = five_started.
Proof. vm_compute. reflexivity. Qed.

Lemma one_pending_reached : Add 0 failing_job three_started = Ok 0 one_pending.
Proof.
  apply Add_spec with (c := MkChan 300 [] false);
    [apply three_started_wf | cbn; lia | reflexivity | reflexivity | cbn; lia].
Qed.

Lemma stopped_handle_reached : Stop 0 true three_started = Ok 1 stopped_handle.
Proof. vm_compute. reflexivity. Qed.

(** ** Every reachable state is well-formed *)

Lemma wf_state_dis (s : State) (d : nat) (dd : Dispatcher) :
  wf_state s -> diss s !! d = Some dd -> wf_dis s d dd.
Proof.
  intros [_ H] Hd. destruct (H d dd Hd) as (Hwg & Hlen & _ & _ & Ho & Hc & Hqi & Hqo).
  split; [exact Hd |]. split; [exact Hwg |].
  split; [unfold max_scale, int_max in *; lia |].
  split; [| auto].
  intros w Hw. destruct (Ho w Hw) as (ww & H1 & _ & H3). eauto.
Qed.

Lemma triple_ret {A : Type} (P : State -> Prop) (a : A) (Q : A -> State -> Prop) :
  (forall s, P s -> Q a s) -> triple P (ret a) Q.
Proof. intros H s Hs. apply H, Hs. Qed.

Lemma triple_bind {A B : Type} (P : State -> Prop) (m : M A) (k : A -> M B)
    (Q : A -> State -> Prop) (R : B -> State -> Prop) :
  triple P m Q -> (forall a, triple (Q a) (k a) R) -> triple P (bind m k) R.
Proof.
  intros Hm Hk s Hs. unfold bind. specialize (Hm s Hs).
  destruct (m s) as [a s'| |]; auto. apply Hk, Hm.
Qed.

Lemma triple_conseq {A : Type} (P P' : State -> Prop) (m : M A)
    (Q Q' : A -> State -> Prop) :
  triple P' m Q' -> (forall s, P s -> P' s) -> (forall a s, Q' a s -> Q a s) ->
  triple P m Q.
Proof.
  intros Hm HP HQ s Hs. specialize (Hm s (HP s Hs)).
  destruct (m s); auto.
Qed.

Lemma triple_panic {A : Type} (P : State -> Prop) (Q : A -> State -> Prop) :
  triple P panic Q.
Proof. intros s _. exact I. Qed.

Lemma triple_block {A : Type} (P : State -> Prop) (Q : A -> State -> Prop) :
  (forall s, P s -> wf_state s) -> triple P block Q.
Proof. intros H s Hs. apply H, Hs. Qed.

(** The invariant reads the dispatchers, the workers and the channels. *)
Lemma wf_state_frame (s s' : State) :
  wf_state s -> diss s' = diss s -> wkrs s' = wkrs s -> chans s' = chans s ->
  wf_state s'.
Proof.
  intros [Ho He] Hd Hw Hc. split.
  - intros i c. rewrite Hc. apply Ho.
  - intros d dd. rewrite Hd. intros Hdd.
    destruct (He d dd Hdd) as (H1 & H2 & H3 & H4 & H5 & H6 & H7 & H8).
    unfold wf_entry, owned. rewrite Hc, Hw. auto 10.
Qed.

Lemma triple_getD (P : State -> Prop) (d : nat) :
  triple P (getD d) (fun dd s => P s /\ diss s !! d = Some dd).
Proof. intros s Hs. unfold getD. destruct (diss s !! d) eqn:E; auto. Qed.

Lemma triple_getW (P : State -> Prop) (w : nat) :
  triple P (getW w) (fun ww s => P s /\ wkrs s !! w = Some ww).
Proof. intros s Hs. unfold getW. destruct (wkrs s !! w) eqn:E; auto. Qed.

Lemma wf_entry_frame (s s' : State) (d : nat) (dd : Dispatcher) :
  wkrs s' = wkrs s -> chans s' = chans s -> wf_entry s d dd -> wf_entry s' d dd.
Proof. intros Hw Hc. unfold wf_entry, owned. rewrite Hw, Hc. auto. Qed.

Lemma inv_bind {A B : Type} (m : M A) (k : A -> M B) :
  inv m -> (forall a, inv (k a)) -> inv (bind m k).
Proof. intros Hm Hk. eapply triple_bind; [exact Hm | exact Hk]. Qed.

Lemma inv_ret {A : Type} (a : A) : inv (ret a).
Proof. apply triple_ret. auto. Qed.

Lemma inv_panic {A : Type} : inv (@panic A).
Proof. apply triple_panic. Qed.

Lemma inv_block {A : Type} : inv (@block A).
Proof. apply triple_block. auto. Qed.

(** A call that writes no dispatcher, worker or channel. *)
Lemma inv_frame {A : Type} (m : M A) :
  (forall s, diss (res_state (m s)) = diss s /\
             wkrs (res_state (m s)) = wkrs s /\
             chans (res_state (m s)) = chans s) ->
  inv m.
Proof.
  intros Hf s Hs. destruct (Hf s) as (H1 & H2 & H3).
  destruct (m s); cbn in *; [| | exact I]; eapply wf_state_frame; eauto.
Qed.

Lemma inv_getD (d : nat) : inv (getD d).
Proof.
  apply inv_frame. intros s. unfold getD. destruct (diss s !! d); auto.
Qed.

Lemma inv_getW (w : nat) : inv (getW w).
Proof.
  apply inv_frame. intros s. unfold getW. destruct (wkrs s !! w); auto.
Qed.

Lemma inv_make_err_chan (size : Z) : inv (make_err_chan size).
Proof.
  apply inv_frame. intros s. unfold make_err_chan. destruct (make_chan size); auto.
Qed.

Lemma inv_send_err (ch : nat) (e : error) : inv (send_err ch e).
Proof.
  apply inv_frame. intros s. unfold send_err.
  destruct (echs s !! ch) as [c|]; [| auto]. destruct (chan_send e c); auto.
Qed.

Lemma inv_spawn (p : Proc) : inv (spawn p).
Proof. apply inv_frame. intros s. auto. Qed.

Lemma inv_set_proc (i : nat) (p : Proc) : inv (set_proc i p).
Proof. apply inv_frame. intros s. auto. Qed.

Lemma inv_with_cancel (c : ctxref) : inv (with_cancel c).
Proof. apply inv_frame. intros s. auto. Qed.

Lemma inv_cancel_ctx (i : nat) : inv (cancel_ctx i).
Proof. apply inv_frame. intros s. auto. Qed.

Lemma inv_get_instance : inv get_instance.
Proof. apply inv_frame. intros s. auto. Qed.

(** Replacing the contents of an allocated channel by an open one. *)
Lemma wf_state_chan (s s' : State) (ch : nat) (c : Chan func) :
  wf_state s -> closed c = false ->
  diss s' = diss s -> wkrs s' = wkrs s -> chans s' = <[ch := c]> (chans s) ->
  wf_state s'.
Proof.
  intros [Ho He] Hc Hd Hw Hch. split.
  - intros i c'. rewrite Hch. apply open_chans_insert; assumption.
  - intros d dd. rewrite Hd. intros Hdd.
    destruct (He d dd Hdd) as (H1 & H2 & H3 & H4 & H5 & H6 & H7 & H8).
    unfold wf_entry, owned. rewrite Hch, Hw.
    repeat (split; [assumption |]).
    split; apply lookup_lt_is_Some; rewrite length_insert;
      apply lookup_lt_is_Some; assumption.
Qed.

Lemma inv_send_func (ch : nat) (job : func) : inv (send_func ch job).
Proof.
  intros s Hs. unfold send_func.
  destruct (chans s !! ch) as [c|] eqn:Hc; [| exact I].
  unfold chan_send. rewrite (proj1 Hs _ _ Hc).
  destruct (Z.of_nat (length (buf c)) <? cap c)%Z; [| exact Hs].
  apply (wf_state_chan s _ ch (MkChan (cap c) (buf c ++ [job]) false));
    [exact Hs | reflexivity ..].
Qed.

Lemma inv_recv_func (ch : nat) : inv (recv_func ch).
Proof.
  intros s Hs. unfold recv_func.
  destruct (chans s !! ch) as [c|] eqn:Hc; [| exact I].
  unfold chan_recv. rewrite (proj1 Hs _ _ Hc).
  destruct (buf c) as [|x rest]; [exact Hs |].
  apply (wf_state_chan s _ ch (MkChan (cap c) rest false));
    [exact Hs | reflexivity ..].
Qed.

(** Rewriting a dispatcher record in a way its invariant allows. *)
Lemma inv_modD (d : nat) (f : Dispatcher -> Dispatcher) :
  (forall s dd, wf_entry s d dd -> wf_entry s d (f dd)) -> inv (modD d f).
Proof.
  intros Hf s [Ho He]. unfold modD, bind, getD.
  destruct (diss s !! d) as [dd|] eqn:Hd; [| exact I].
  split; [exact Ho |].
  intros d' dd'. cbn. intros Hd'.
  apply (wf_entry_frame s); [reflexivity | reflexivity |].
  destruct (decide (d = d')) as [<-|Hne].
  - rewrite (lookup_insert_same _ _ _ _ Hd) in Hd'. injection Hd' as <-.
    apply Hf, He, Hd.
  - rewrite list_lookup_insert_ne in Hd' by exact Hne. apply He, Hd'.
Qed.

Lemma inv_modD_queue (d : nat) (q : Dispatcher -> list func) :
  inv (modD d (fun x => with_queue (q x) x)).
Proof. apply inv_modD. intros s dd H. exact H. Qed.

Lemma inv_modD_scaling (d : nat) (b : bool) : inv (modD d (with_scaling b)).
Proof. apply inv_modD. intros s dd H. exact H. Qed.

Lemma inv_modD_stopped (d : nat) : inv (modD d (with_running false)).
Proof.
  apply inv_modD. intros s dd (H1 & H2 & H3 & H4 & H5 & H6 & H7 & H8).
  repeat (split; [assumption |]). split; [discriminate | auto].
Qed.

(** [wg.Add] returns only with a counter that is not negative. *)
Lemma inv_wg_add (d : nat) (delta : Z) : inv (wg_add d delta).
Proof.
  intros s [Ho He]. unfold wg_add, bind, modD, bind, getD.
  destruct (diss s !! d) as [dd|] eqn:Hd; [| exact I].
  cbn [diss set_diss]. rewrite (lookup_insert_same _ _ _ _ Hd). cbn [wg with_wg].
  destruct (Z.ltb_spec (wg dd + delta) 0) as [|Hpos]; [exact I |].
  split; [exact Ho |].
  intros d' dd'. cbn. intros Hd'.
  apply (wf_entry_frame s); [reflexivity | reflexivity |].
  destruct (decide (d = d')) as [<-|Hne].
  - rewrite (lookup_insert_same _ _ _ _ Hd) in Hd'. injection Hd' as <-.
    destruct (He d dd Hd) as (H1 & H2).
    split; [exact Hpos | exact H2].
  - rewrite list_lookup_insert_ne in Hd' by exact Hne. apply He, Hd'.
Qed.

Create HintDb inv.
#[export] Hint Resolve inv_ret inv_panic inv_block inv_getD inv_getW
  inv_make_err_chan inv_send_err inv_spawn inv_set_proc inv_with_cancel
  inv_cancel_ctx inv_get_instance inv_send_func inv_recv_func inv_modD_queue
  inv_modD_scaling inv_modD_stopped inv_wg_add : inv.

Ltac inv_tac :=
  repeat first
    [ progress intros
    | solve [eauto with inv]
    | apply inv_bind
    | match goal with
      | |- inv (if ?b then _ else _) => destruct b
      | |- inv (match ?x with _ => _ end) => destruct x
      end ].

Lemma inv_wg_done (d : nat) : inv (wg_done d).
Proof. apply inv_wg_add. Qed.

Lemma inv_wg_wait (d : nat) : inv (wg_wait d).
Proof. unfold wg_wait. inv_tac. Qed.
#[export] Hint Resolve inv_wg_done inv_wg_wait : inv.

Lemma inv_Wait (d : nat) : inv (Wait d).
Proof. unfold Wait. inv_tac. Qed.

Lemma inv_call (c : closure) : inv (call c).
Proof.
  unfold call. apply inv_bind; [| inv_tac].
  apply inv_frame. intros s. auto.
Qed.
#[export] Hint Resolve inv_Wait inv_call : inv.

Lemma inv_run (w : nat) (job : func) : inv (run w job).
Proof. unfold run. inv_tac. Qed.

Lemma inv_Add (d : nat) (job : Job) : inv (Add d job).
Proof. unfold Add. inv_tac. Qed.

Lemma inv_QueueRunner (d : nat) : inv (QueueRunner d).
Proof. unfold QueueRunner. inv_tac. Qed.

Lemma inv_StartWorkerObserver (d : nat) : inv (StartWorkerObserver d).
Proof. unfold StartWorkerObserver. inv_tac. Qed.

Lemma same_worker_refl (l : list worker) (w : nat) : same_worker l l w.
Proof. intros ww H. eauto. Qed.

Lemma same_worker_trans (l1 l2 l3 : list worker) (w : nat) :
  same_worker l1 l2 w -> same_worker l2 l3 w -> same_worker l1 l3 w.
Proof.
  intros H12 H23 ww H. destruct (H12 ww H) as (w2 & H2 & Hd2 & Hk2).
  destruct (H23 w2 H2) as (w3 & H3 & Hd3 & Hk3).
  exists w3. split; [exact H3 |]. split; congruence.
Qed.

Lemma same_worker_app (l extra : list worker) (w : nat) :
  same_worker l (l ++ extra) w.
Proof.
  intros ww H. exists ww. split; [| auto].
  rewrite lookup_app_l by (eapply lookup_lt_Some, H). exact H.
Qed.

Lemma same_worker_mark (ws : list nat) (l : list worker) (w : nat) :
  allocated ws l -> same_worker l (mark ws l) w.
Proof.
  intros Hall ww H. rewrite mark_lookup by exact Hall. rewrite H.
  destruct (decide (w ∈ ws)); cbn; eauto.
Qed.

Lemma same_worker_stop_all (ws : list nat) (l : list worker) (w : nat) :
  allocated ws l -> w ∉ ws -> same_worker l (stop_all ws l) w.
Proof.
  intros Hall Hw ww H. rewrite (stop_all_lookup ws l w ww Hall H).
  rewrite decide_False by exact Hw. eauto.
Qed.

Lemma owned_same (s s' : State) (d : nat) (ws : list nat) :
  owned s d ws -> (forall w, w ∈ ws -> same_worker (wkrs s) (wkrs s') w) ->
  owned s' d ws.
Proof.
  intros Ho Hs w Hw. destruct (Ho w Hw) as (ww & H1 & H2 & H3).
  destruct (Hs w Hw ww H1) as (ww' & H1' & H2' & H3').
  exists ww'. split; [exact H1' |]. split; congruence.
Qed.

(** From [s] to [s']: the dispatchers other than [d] that were there are
    as they were, no channel is lost or closed, the workers of other
    dispatchers keep owner and [kill] channel, and the entry of [d] and the
    new entries satisfy the invariant. *)
Lemma wf_state_update (s s' : State) (d : nat) :
  wf_state s -> open_chans s' ->
  (forall c, is_Some (chans s !! c) -> is_Some (chans s' !! c)) ->
  (forall w ww, wkrs s !! w = Some ww -> dis ww <> d ->
     same_worker (wkrs s) (wkrs s') w) ->
  (forall d' dd', diss s' !! d' = Some dd' -> d' <> d -> d' < length (diss s) ->
     diss s !! d' = Some dd') ->
  (forall d' dd', diss s' !! d' = Some dd' -> d' = d \/ length (diss s) <= d' ->
     wf_entry s' d' dd') ->
  wf_state s'.
Proof.
  intros [Ho He] Ho' Hch Hw Hold Hnew. split; [exact Ho' |].
  intros d' dd' Hd'.
  destruct (decide (d' = d)) as [Heq|Hne]; [apply Hnew; auto |].
  destruct (Nat.le_gt_cases (length (diss s)) d') as [Hge|Hlt]; [apply Hnew; auto |].
  destruct (He d' dd' (Hold d' dd' Hd' Hne Hlt))
    as (H1 & H2 & H3 & H4 & H5 & H6 & H7 & H8).
  repeat (split; [assumption |]).
  split; [| split; [exact H6 | split; apply Hch; assumption]].
  apply (owned_same s); [exact H5 |].
  intros w Hin. destruct (H5 w Hin) as (ww & Hww & Hdis & _).
  apply (Hw w ww Hww). congruence.
Qed.

Lemma is_Some_app {A : Type} (l extra : list A) (i : nat) :
  is_Some (l !! i) -> is_Some ((l ++ extra) !! i).
Proof.
  intros H. apply lookup_lt_is_Some. rewrite length_app.
  apply lookup_lt_is_Some in H. lia.
Qed.

Lemma open_chans_app2 (s : State) (c1 c2 : Chan func) :
  open_chans s -> closed c1 = false -> closed c2 = false ->
  forall i c, (chans s ++ [c1; c2]) !! i = Some c -> closed c = false.
Proof.
  intros Ho H1 H2 i c Hi. apply lookup_app_Some in Hi as [Hi|[_ Hi]].
  - eapply Ho, Hi.
  - destruct (i - length (chans s)) as [|[|j]]; cbn in Hi;
      [injection Hi as <-; exact H1 | injection Hi as <-; exact H2 | discriminate].
Qed.

(** [New] keeps the heap well-formed. *)
Lemma wf_state_New (n : Z) (s : State) :
  wf_state s -> (n <= max_scale)%Z -> wf_state (New_state n s).
Proof.
  intros Hs Hn. apply (wf_state_update s _ (length (diss s))); [exact Hs | ..].
  - intros i c. unfold New_state. cbn [chans].
    apply open_chans_app2; [apply Hs | reflexivity | reflexivity].
  - intros c. unfold New_state. cbn [chans]. apply is_Some_app.
  - intros w ww _ _. unfold New_state. cbn [wkrs]. apply same_worker_app.
  - intros d' dd' Hd' _ Hlt. unfold New_state in Hd'. cbn [diss] in Hd'.
    rewrite lookup_app_l in Hd' by exact Hlt. exact Hd'.
  - intros d' dd' Hd' Hge.
    assert (d' = length (diss s) /\
            dd' = MkDispatcher false false false [] (length (chans s))
                    (S (length (chans s))) 0 (Z.max n 1)
                    (seq (length (wkrs s)) (Z.to_nat (Z.max n 1)))
                    Background None) as [-> ->].
    { unfold New_state in Hd'. cbn [diss] in Hd'.
      apply lookup_app_Some in Hd' as [Hd'|[_ Hd']].
      - apply lookup_lt_Some in Hd'. lia.
      - apply list_lookup_singleton_Some in Hd' as [H0 <-]. split; [lia | reflexivity]. }
    pose proof (New_state_wf n s ltac:(unfold int_max, max_new, max_scale in *; lia))
      as (_ & _ & _ & Hw & _ & Hqi & Hqo).
    split; [cbn; lia |].
    split; [cbn; rewrite length_seq; unfold max_scale in *; lia |].
    split; [cbn; unfold sane_count, max_scale in *; lia |].
    split; [cbn; apply NoDup_seq |].
    split; [| split; [discriminate | split; assumption]].
    intros w Hin. cbn in Hin.
    exists (fresh_worker (length (diss s))).
    split; [| split; reflexivity].
    unfold New_state. cbn [wkrs].
    eapply lookup_fresh_workers in Hin as [Hin _]. exact Hin.
Qed.

Lemma inv_New (n : Z) : (n <= max_scale)%Z -> inv (New n).
Proof.
  intros Hn s Hs.
  destruct (Z.le_gt_cases n max_new) as [Hle|Hgt].
  - rewrite New_spec by exact Hle.
    apply wf_state_New; assumption.
  - destruct (New_panics_above n s Hgt) as [s' ->]. exact I.
Qed.

Lemma owned_allocated (s : State) (d : nat) (ws : list nat) :
  owned s d ws -> allocated ws (wkrs s).
Proof. intros H w Hw. destruct (H w Hw) as (ww & -> & _). eauto. Qed.

(** Lookups after writes at [d]: another address reads what it read. *)
Lemma lookup_insert_other {A : Type} (l : list A) (d d' : nat) (x y : A) :
  <[d := x]> l !! d' = Some y -> d' <> d -> l !! d' = Some y.
Proof. intros H Hne. rewrite list_lookup_insert_ne in H by congruence. exact H. Qed.

(** [StartWithContext] keeps the heap well-formed. *)
Lemma wf_state_Start (d : nat) (c : ctxref) (dd : Dispatcher) (s : State) :
  wf_state s -> diss s !! d = Some dd -> wf_state (Start_state d c dd s).
Proof.
  intros Hs Hd. pose proof (proj2 Hs d dd Hd) as (H1 & H2 & H3 & H4 & H5 & H6 & H7 & H8).
  pose proof (owned_allocated _ _ _ H5) as Hall.
  apply (wf_state_update s _ d); [exact Hs | apply Hs | auto | ..].
  - intros w ww _ _. apply same_worker_mark, Hall.
  - intros d' dd' Hd' Hne _. unfold Start_state in Hd'. cbn [diss] in Hd'.
    exact (lookup_insert_other _ _ _ _ _ Hd' Hne).
  - intros d' dd' Hd' [->|Hge];
      [| apply lookup_lt_Some in Hd'; unfold Start_state in Hd'; cbn in Hd';
         rewrite length_insert in Hd'; lia].
    unfold Start_state in Hd'. cbn [diss] in Hd'.
    rewrite (lookup_insert_same _ _ _ _ Hd) in Hd'. injection Hd' as <-.
    repeat (split; [assumption |]).
    split; [| split; [cbn; eauto | split; assumption]].
    apply (owned_same s); [exact H5 |].
    intros w _. apply same_worker_mark, Hall.
Qed.

Lemma inv_StartWithContext (d : nat) (c : ctxref) : inv (StartWithContext d c).
Proof.
  intros s Hs. destruct (diss s !! d) as [dd|] eqn:Hd.
  - rewrite (StartWithContext_spec d c dd s Hd).
    + apply wf_state_Start; assumption.
    + eapply wf_dis_allocated, wf_state_dis; eauto.
  - unfold StartWithContext, bind, getD. rewrite Hd. exact I.
Qed.

(** [UpScale] keeps the heap well-formed. *)
Lemma wf_state_UpScale (d : nat) (n : Z) (dd : Dispatcher) (s : State) :
  wf_state s -> diss s !! d = Some dd -> (0 <= n <= max_scale)%Z ->
  wf_state (UpScale_state d n dd s).
Proof.
  intros Hs Hd Hn.
  pose proof (proj2 Hs d dd Hd) as (H1 & H2 & H3 & H4 & H5 & H6 & H7 & H8).
  pose proof (owned_allocated _ _ _ H5) as Hall.
  pose proof (wf_state_dis _ _ _ Hs Hd) as Hwf.
  set (k := Z.to_nat (n - Z.of_nat (length (workers dd)))).
  assert (Hch : chans (UpScale_state d n dd s) =
            chans s ++ [MkChan (Z.min (n * 10000) bufferSizeLimit) [] false;
                        MkChan (Z.min (n * 10000) bufferSizeLimit) [] false])
    by (unfold UpScale_state; destruct (running dd); reflexivity).
  assert (Hsame : forall w, same_worker (wkrs s) (wkrs (UpScale_state d n dd s)) w).
  { intros w. unfold UpScale_state. destruct (running dd);
      cbn [wkrs set_diss Start_state UpScale_grown].
    - eapply same_worker_trans; [apply same_worker_app |].
      apply same_worker_mark. cbn. apply allocated_grown, Hall.
    - apply same_worker_app. }
  assert (Hlen : length (diss (UpScale_state d n dd s)) = length (diss s))
    by (unfold UpScale_state; destruct (running dd); cbn; rewrite !length_insert;
        reflexivity).
  apply (wf_state_update s _ d); [exact Hs | ..].
  - unfold open_chans. rewrite Hch.
    apply open_chans_app2; [apply Hs | reflexivity | reflexivity].
  - intros c. rewrite Hch. apply is_Some_app.
  - intros w ww _ _. apply Hsame.
  - intros d' dd' Hd' Hne _. unfold UpScale_state in Hd'.
    destruct (running dd); cbn in Hd';
      repeat (apply lookup_insert_other in Hd'; [| exact Hne]); exact Hd'.
  - intros d' dd' Hd' [->|Hge];
      [| apply lookup_lt_Some in Hd'; rewrite Hlen in Hd'; lia].
    destruct (UpScale_state_lookup d n dd s Hd)
      as (d1 & Hd1 & Hws & Hwc & _).
    assert (d1 = dd') as -> by congruence.
    destruct (UpScale_state_wf d n dd dd' s Hwf Hn Hd')
      as (_ & Hg & _ & _ & Hc & Hqi & Hqo).
    split; [exact Hg |].
    split; [rewrite Hws, length_app, length_seq; unfold max_scale in *; lia |].
    split; [rewrite Hwc; unfold sane_count, max_scale in *; lia |].
    split.
    { rewrite Hws. apply NoDup_app. split; [exact H4 |]. split; [| apply NoDup_seq].
      intros w Hw Hin. apply Hall in Hw. apply lookup_lt_is_Some in Hw.
      apply elem_of_seq in Hin. lia. }
    split; [| split; [exact Hc | split; assumption]].
    intros w Hin. rewrite Hws in Hin. apply elem_of_app in Hin as [Hin|Hin].
    + destruct (H5 w Hin) as (ww & Hww & Hdis & Hk).
      destruct (Hsame w ww Hww) as (ww' & Hww' & Hdis' & Hk').
      exists ww'. split; [exact Hww' |]. split; congruence.
    + pose proof (lookup_fresh_workers (wkrs s) k (fresh_worker d) w Hin) as [Hnew _].
      unfold UpScale_state. destruct (running dd);
        cbn [wkrs set_diss Start_state UpScale_grown]; fold k.
      * rewrite mark_lookup by (cbn; apply allocated_grown, Hall).
        cbn [wkrs UpScale_grown]. fold k. rewrite Hnew.
        destruct (decide _); cbn; eauto.
      * rewrite Hnew. eauto.
Qed.

Lemma inv_UpScale (d : nat) (n : Z) : sane_count n -> inv (UpScale d n).
Proof.
  intros Hn s Hs. destruct (diss s !! d) as [dd|] eqn:Hd.
  - destruct (Z.lt_ge_cases n 0) as [Hneg|Hpos].
    + rewrite (UpScale_panics d n dd s Hd); [exact I |].
      unfold sane_count, max_scale in Hn.
      rewrite (int_mul_small n) by (unfold int_min, int_max; lia).
      rewrite int_mul_small by (unfold int_min, int_max; lia).
      unfold bufsize, bufferSizeLimit. lia.
    + assert (Hr : (0 <= n <= max_scale)%Z) by (unfold sane_count in Hn; lia).
      rewrite (UpScale_spec d n dd s (wf_state_dis _ _ _ Hs Hd) Hr).
      apply wf_state_UpScale; assumption.
  - unfold UpScale, ScaleBuffer, bind, getD. rewrite Hd. exact I.
Qed.

(** With no worker listed twice, a worker kept is not one removed. *)
Lemma kept_not_removed (k idx : nat) (l : list nat) (w : nat) :
  NoDup l -> k <= length l -> (0 < k -> idx < length l) ->
  w ∈ kept k idx l -> w ∉ removed k idx l.
Proof.
  intros Hnd Hk Hidx Hin Hrem.
  pose proof (removed_kept_Permutation k idx l Hk Hidx) as Hp.
  rewrite <- Hp in Hnd. apply NoDup_app in Hnd as (_ & Hdis & _).
  apply (Hdis w Hrem Hin).
Qed.

(** [DownScale] keeps the heap well-formed. *)
Lemma wf_state_DownScale (d : nat) (n : Z) (dd : Dispatcher) (s : State) :
  wf_state s -> diss s !! d = Some dd -> (0 <= n <= max_scale)%Z ->
  wf_state (DownScale_state d n dd s).
Proof.
  intros Hs Hd Hn.
  pose proof (proj2 Hs d dd Hd) as (H1 & H2 & H3 & H4 & H5 & H6 & H7 & H8).
  pose proof (owned_allocated _ _ _ H5) as Hall.
  set (k := Z.to_nat (Z.of_nat (length (workers dd)) - n)).
  assert (Hk : k <= length (workers dd)) by (unfold k; lia).
  assert (Hidx : 0 < k -> 0 < length (workers dd)) by lia.
  assert (Hgone : allocated (removed k 0 (workers dd)) (wkrs s))
    by (intros w Hw; apply Hall; eapply removed_allocated, Hw).
  assert (Hsame : forall w, w ∉ removed k 0 (workers dd) ->
            same_worker (wkrs s) (wkrs (DownScale_state d n dd s)) w).
  { intros w Hw. unfold DownScale_state. cbn [wkrs]. fold k.
    destruct (running dd); [| apply same_worker_refl].
    apply same_worker_stop_all; assumption. }
  apply (wf_state_update s _ d); [exact Hs | ..].
  - unfold open_chans, DownScale_state. cbn [chans].
    apply open_chans_app2; [apply Hs | reflexivity | reflexivity].
  - intros c. unfold DownScale_state. cbn [chans]. apply is_Some_app.
  - intros w ww Hww Hne. apply Hsame. intros Hin.
    apply removed_allocated in Hin. destruct (H5 w Hin) as (w0 & Hw0 & Hdis & _).
    congruence.
  - intros d' dd' Hd' Hne _. unfold DownScale_state in Hd'. cbn [diss] in Hd'.
    exact (lookup_insert_other _ _ _ _ _ Hd' Hne).
  - intros d' dd' Hd' [->|Hge];
      [| apply lookup_lt_Some in Hd'; unfold DownScale_state in Hd'; cbn in Hd';
         rewrite length_insert in Hd'; lia].
    destruct (DownScale_state_lookup d n dd s Hd)
      as (d1 & Hd1 & Hws & Hwc & Hrun & _ & Hqi & Hqo & Hwg & _ & _ & Hc).
    assert (d1 = dd') as -> by congruence. fold k in Hws.
    split; [lia |].
    split; [rewrite Hws, kept_length by lia; lia |].
    split; [rewrite Hwc; unfold sane_count, max_scale in *; lia |].
    split; [rewrite Hws; eapply sublist_NoDup; [exact H4 | apply kept_sublist] |].
    split.
    { intros w Hin. rewrite Hws in Hin.
      assert (Hw : w ∈ workers dd)
        by (eapply elem_of_sublist; [exact Hin | apply kept_sublist]).
      destruct (H5 w Hw) as (ww & Hww & Hdis & Hkill).
      destruct (Hsame w (kept_not_removed k 0 _ w H4 Hk Hidx Hin) ww Hww)
        as (ww' & Hww' & Hdis' & Hk').
      exists ww'. split; [exact Hww' |]. split; congruence. }
    split; [rewrite Hrun, Hc; exact H6 |].
    rewrite Hqi, Hqo. unfold DownScale_state. cbn [chans].
    split; apply lookup_lt_is_Some; rewrite length_app; cbn; lia.
Qed.

Lemma inv_DownScale (d : nat) (n : Z) : sane_count n -> inv (DownScale d n).
Proof.
  intros Hn s Hs. destruct (diss s !! d) as [dd|] eqn:Hd.
  - destruct (Z.lt_ge_cases n 0) as [Hneg|Hpos].
    + rewrite (DownScale_panics d n dd s Hd); [exact I |].
      unfold sane_count, max_scale in Hn.
      rewrite (int_mul_small n) by (unfold int_min, int_max; lia).
      rewrite int_mul_small by (unfold int_min, int_max; lia).
      unfold bufsize, bufferSizeLimit. lia.
    + assert (Hr : (0 <= n <= max_scale)%Z) by (unfold sane_count in Hn; lia).
      rewrite (DownScale_spec d n dd s (wf_state_dis _ _ _ Hs Hd) Hr).
      apply wf_state_DownScale; assumption.
  - unfold DownScale, ScaleBuffer, bind, getD. rewrite Hd. exact I.
Qed.

(** The target count of a dispatcher of a well-formed heap is sane. *)
Lemma triple_getD_entry (d : nat) :
  triple wf_state (getD d) (fun dd s => wf_state s /\ wf_entry s d dd).
Proof.
  intros s Hs. unfold getD. destruct (diss s !! d) as [dd|] eqn:Hd; [| exact I].
  split; [exact Hs | apply Hs, Hd].
Qed.

Lemma inv_AutoScale (d : nat) : inv (AutoScale d).
Proof.
  unfold AutoScale. eapply triple_bind; [apply triple_getD_entry |].
  intros dd s [Hs He]. destruct He as (_ & _ & Hsane & _).
  destruct (_ <? _)%Z; [apply inv_DownScale; assumption |].
  destruct (_ <? _)%Z; [apply inv_UpScale; assumption | exact Hs].
Qed.

Lemma inv_Stop (d : nat) (b : bool) : inv (Stop d b).
Proof.
  unfold Stop. apply inv_bind; [apply inv_getD |]. intros dd.
  destruct (negb (running dd)); [apply inv_ret |].
  apply inv_bind; [destruct (negb b); auto with inv |]. intros _.
  apply inv_bind; [destruct (cancel dd); auto with inv |]. intros _.
  apply inv_bind; [apply inv_modD_stopped |]. intros _.
  eapply triple_bind; [apply triple_getD_entry |].
  intros d1 s [Hs He]. destruct He as (_ & Hlen & _).
  pose proof (inv_New (Z.of_nat (length (workers d1))) Hlen s Hs) as HN.
  unfold bind, ret. destruct (New _ s); exact HN.
Qed.

Lemma inv_Reset (d : nat) : inv (Reset d).
Proof.
  unfold Reset. apply inv_bind; [apply inv_Stop |]. intros _.
  eapply triple_bind; [apply triple_getD_entry |].
  intros dd s [Hs He]. destruct He as (_ & _ & Hsane & _).
  apply inv_New; [unfold sane_count in Hsane; lia | exact Hs].
Qed.

Lemma inv_Get (n : Z) : sane_count n -> inv (Get n).
Proof.
  intros Hn. unfold Get.
  assert ((if (n <? 1)%Z then 1%Z else n) = Z.max n 1) as ->
    by (destruct (Z.ltb_spec n 1); lia).
  assert (Hm : (1 <= Z.max n 1 <= max_scale)%Z)
    by (unfold sane_count, max_scale in *; lia).
  apply inv_bind.
  { intros s Hs. destruct (once s); [exact Hs |].
    unfold bind. pose proof (inv_New (Z.max n 1) (proj2 Hm) s Hs) as HN.
    destruct (New (Z.max n 1) s) as [d s'| |]; [| exact HN | exact I].
    eapply wf_state_frame; [exact HN | reflexivity ..]. }
  intros _. apply inv_bind; [apply inv_get_instance |]. intros inst.
  apply inv_bind.
  { apply inv_modD. intros s dd (H1 & H2 & H3 & H4).
    split; [exact H1 |]. split; [exact H2 |].
    split; [unfold sane_count; cbn; lia | exact H4]. }
  intros _. apply inv_bind; [apply inv_getD |]. intros dd.
  apply inv_bind; [| intros; apply inv_get_instance].
  destruct (_ =? _)%Z; [apply inv_ret |].
  apply inv_bind; [apply inv_AutoScale | intros; apply inv_ret].
Qed.

#[export] Hint Resolve inv_run inv_AutoScale : inv.

(** Writing a worker that belongs to no worker set. *)
Lemma wf_state_loose_worker (s s' : State) (w : nat) (ww x : worker) :
  wf_state s -> wkrs s !! w = Some ww -> kill ww <> MkChan 1 [] false ->
  diss s' = diss s -> chans s' = chans s -> wkrs s' = <[w := x]> (wkrs s) ->
  wf_state s'.
Proof.
  intros [Ho He] Hw Hk Hd Hc Hws. split.
  - intros i c. rewrite Hc. apply Ho.
  - intros d dd. rewrite Hd. intros Hdd.
    destruct (He d dd Hdd) as (H1 & H2 & H3 & H4 & H5 & H6 & H7 & H8).
    unfold wf_entry. rewrite Hc.
    repeat (split; [assumption |]).
    split; [| auto].
    intros y Hy. destruct (H5 y Hy) as (yy & Hyy & Hdis & Hkill).
    exists yy. rewrite Hws.
    rewrite list_lookup_insert_ne by (intros ->; congruence). auto.
Qed.

Lemma inv_step_worker (i w : nat) (c : ctxref) (p : pick) : inv (step_worker i w c p).
Proof.
  destruct p; cbn [step_worker].
  - intros s Hs. unfold bind, getW.
    destruct (wkrs s !! w) as [ww|] eqn:Hw; [| exact I].
    unfold chan_recv. destruct (buf (kill ww)) as [|x rest] eqn:Hbuf.
    + destruct (closed (kill ww)); [| exact Hs].
      eapply wf_state_frame; [exact Hs | reflexivity ..].
    + unfold modW, bind, getW. rewrite Hw.
      eapply (wf_state_loose_worker s _ w ww); [exact Hs | exact Hw | | reflexivity ..].
      intros Hk. rewrite Hk in Hbuf. discriminate.
  - intros s Hs. destruct (ctx_done s c); [| exact Hs].
    eapply wf_state_frame; [exact Hs | reflexivity ..].
  - inv_tac.
Qed.

Lemma inv_step_drain_in (i d old : nat) (tmp : list func) :
  inv (step_drain_in i d old tmp).
Proof. unfold step_drain_in. inv_tac. Qed.

Lemma inv_step_drain_out (i d old : nat) (tmp : list func) :
  inv (step_drain_out i d old tmp).
Proof. unfold step_drain_out. inv_tac. Qed.

Lemma inv_done_or_wait (i : nat) (c : State -> bool) :
  inv (fun s => if c s then set_proc i PExit s else Blocked s).
Proof.
  intros s Hs. destruct (c s); [| exact Hs].
  eapply wf_state_frame; [exact Hs | reflexivity ..].
Qed.

Lemma inv_step_relay (i d : nat) (p : pick) : inv (step_relay i d p).
Proof.
  unfold step_relay. apply inv_bind; [apply inv_getD |]. intros dd.
  destruct p; [apply inv_block | | inv_tac].
  apply (inv_done_or_wait i (fun s => ctx_done s (ctx dd))).
Qed.

Lemma inv_step_relay_send (i d out : nat) (job : func) :
  inv (step_relay_send i d out job).
Proof.
  unfold step_relay_send. inv_tac.
Qed.

Lemma inv_step_observer (i d : nat) : inv (step_observer i d).
Proof.
  unfold step_observer. apply inv_bind; [apply inv_getD |]. intros dd s Hs.
  destruct (ctx_done s (ctx dd)).
  - eapply wf_state_frame; [exact Hs | reflexivity ..].
  - destruct (_ && _); [| exact Hs].
    assert (Hp : inv (AutoScale d >> ret tt)) by inv_tac.
    apply Hp, Hs.
Qed.

Lemma inv_step (i : nat) (p : pick) : inv (step i p).
Proof.
  intros s Hs. unfold step.
  destruct (procs s !! i) as [[w c|d old tmp|d old tmp|d|d out job|d|]|];
    try exact Hs.
  - apply inv_step_worker, Hs.
  - apply inv_step_drain_in, Hs.
  - apply inv_step_drain_out, Hs.
  - apply inv_step_relay, Hs.
  - apply inv_step_relay_send, Hs.
  - apply inv_step_observer, Hs.
Qed.

Lemma inv_forget {A : Type} (m : M A) : inv m -> inv (forget m).
Proof. intros H. unfold forget. apply inv_bind; [exact H | intros; apply inv_ret]. Qed.

(** Every action with sane worker counts keeps the heap well-formed. *)
Lemma inv_act (a : Action) : sane a -> inv (act a).
Proof.
  destruct a; cbn [act sane]; intros Hsane; try apply inv_forget.
  - apply inv_New. unfold sane_count in Hsane. lia.
  - apply inv_Get, Hsane.
  - apply inv_StartWithContext.
  - apply inv_Stop.
  - apply inv_Add.
  - apply inv_Wait.
  - apply inv_UpScale, Hsane.
  - apply inv_DownScale, Hsane.
  - apply inv_AutoScale.
  - apply inv_Reset.
  - apply inv_QueueRunner.
  - apply inv_StartWorkerObserver.
  - apply inv_step.
Qed.

Lemma init_state_wf_state : wf_state init_state.
Proof.
  assert (He : wf_state empty_state).
  { split; [intros i c H; destruct i; discriminate |].
    intros d dd H. destruct d; discriminate. }
  exact (wf_state_frame (New_state 3 empty_state) init_state
           (wf_state_New 3 empty_state He ltac:(unfold max_scale; lia))
           eq_refl eq_refl eq_refl).
Qed.

(** In every state a program reaches from [init] with sane worker counts,
    the heap is well-formed: every dispatcher satisfies [wf_dis], and no
    channel is closed. *)
Theorem reachable_wf (s : State) :
  reachable s ->
  open_chans s /\ forall d dd, diss s !! d = Some dd -> wf_dis s d dd.
Proof.
  intros Hr.
  assert (Hs : wf_state s).
  { induction Hr as [|a s s' _ IH Hsane Hact|a s s' _ IH Hsane Hact].
    - exact init_state_wf_state.
    - pose proof (inv_act a Hsane s IH) as H. rewrite Hact in H. exact H.
    - pose proof (inv_act a Hsane s IH) as H. rewrite Hact in H. exact H. }
  split; [apply Hs |]. intros d dd Hd. eapply wf_state_dis; eauto.
Qed.

(** ** Further properties of the interface *)

(** The started instance of [init] is reachable, hence well-formed. *)
Lemma reachable_wf_witness :
  open_chans three_started /\
  forall d dd, diss three_started !! d = Some dd -> wf_dis three_started d dd.
Proof.
  apply (reachable_wf three_started).
  apply (reach_ok (CallStart 0 Background) init_state);
    [apply reach_init | exact I |].
  cbn [act]. unfold forget. rewrite (bind_ok _ _ _ _ _ three_started_reached).
  reflexivity.
Defined.



(** [Stop] on a dispatcher that is not running changes nothing and returns
    the receiver. *)
Theorem Stop_not_running (d : nat) (immediately : bool) (dd : Dispatcher) (s : State) :
  diss s !! d = Some dd -> running dd = false ->
  Stop d immediately s = Ok d s.
Proof.
  intros Hd Hrun. unfold Stop.
  erewrite bind_ok by (apply getD_ok; exact Hd).
  rewrite Hrun. reflexivity.
Qed.

Lemma Stop_not_running_witness : Stop 0 false init_state = Ok 0 init_state.
Proof. exact (Stop_not_running 0 false _ init_state (proj1 init_state_wf) eq_refl). Defined.

(** [Wait] changes nothing.  On a dispatcher that is not running it returns
    at once; on a running one it returns exactly when nothing is pending and
    suspends otherwise. *)
Theorem Wait_returns (d : nat) (dd : Dispatcher) (s : State) :
  diss s !! d = Some dd ->
  (running dd = false -> Wait d s = Ok tt s) /\
  (running dd = true -> wg dd = 0%Z -> Wait d s = Ok tt s) /\
  (running dd = true -> wg dd <> 0%Z -> Wait d s = Blocked s).
Proof.
  intros Hd. unfold Wait, wg_wait.
  erewrite bind_ok by (apply getD_ok; exact Hd).
  split; [intros ->; reflexivity |].
  split; intros -> Hwg; erewrite bind_ok by (apply getD_ok; exact Hd).
  - rewrite Hwg. reflexivity.
  - destruct (Z.eqb_spec (wg dd) 0); [contradiction | reflexivity].
Qed.

Lemma Wait_returns_witness :
  Wait 0 init_state = Ok tt init_state /\ Wait 0 one_pending = Blocked one_pending.
Proof.
  split.
  - exact (proj1 (Wait_returns 0 _ init_state (proj1 init_state_wf)) eq_refl).
  - refine (proj2 (proj2 (Wait_returns 0
              (MkDispatcher true false false [] 0 1 1 3 [0; 1; 2] (Derived 0) (Some 0))
              one_pending eq_refl)) eq_refl _).
    cbn. discriminate.
Defined.





(** ** Reading the worker count *)

Lemma GetWorkerCount_spec (d : nat) (dd : Dispatcher) (s : State) :
  diss s !! d = Some dd ->
  GetWorkerCount d s =
  if negb (scaling dd) && (Z.of_nat (length (workers dd)) =? workerCount dd)%Z
  then Ok (Z.of_nat (length (workers dd))) s else Blocked s.
Proof.
  intros Hd. unfold GetWorkerCount.
  erewrite bind_ok by (apply getD_ok; exact Hd).
  destruct (negb (scaling dd) && (Z.of_nat (length (workers dd)) =? workerCount dd)%Z);
    reflexivity.
Qed.

(** [GetWorkerCount] spins while the worker set and the target differ.
    After [UpScale(n)] with [n] below the size of the worker set it does not
    return; after the [AutoScale] that follows it returns [n]. *)
Theorem GetWorkerCount_spins_until_reconciled (d : nat) (n : Z) (dd : Dispatcher)
    (s : State) :
  wf_dis s d dd ->
  (0 <= n < Z.of_nat (length (workers dd)))%Z -> (n <= max_scale)%Z ->
  exists s1 s2,
    UpScale d n s = Ok d s1 /\
    GetWorkerCount d s1 = Blocked s1 /\
    AutoScale d s1 = Ok d s2 /\
    GetWorkerCount d s2 = Ok n s2.
Proof.
  intros Hwf Hn Hmax. pose proof Hwf as (Hd & _ & Hlen & _).
  assert (Hn' : (0 <= n <= max_scale)%Z) by lia.
  destruct (UpScale_state_lookup d n dd s Hd)
    as (d1 & Hd1 & Hws & Hwc & _ & Hsc & _).
  replace (Z.to_nat (n - Z.of_nat (length (workers dd)))) with 0%nat in Hws by lia.
  cbn [seq] in Hws. rewrite app_nil_r in Hws.
  pose proof (UpScale_state_wf d n dd d1 s Hwf Hn' Hd1) as Hwf1.
  set (s1 := UpScale_state d n dd s) in *.
  destruct (DownScale_state_lookup d n d1 s1 Hd1)
    as (d2 & Hd2 & Hws2 & Hwc2 & _ & Hsc2 & _).
  exists s1, (DownScale_state d n d1 s1).
  split; [apply UpScale_spec; assumption |].
  split.
  { rewrite (GetWorkerCount_spec d d1 s1 Hd1), Hsc, Hws, Hwc.
    destruct (Z.eqb_spec (Z.of_nat (length (workers dd))) n); [lia | reflexivity]. }
  split.
  { unfold AutoScale. erewrite bind_ok by (apply getD_ok; exact Hd1).
    rewrite Hwc, Hws.
    destruct (Z.ltb_spec n (Z.of_nat (length (workers dd)))); [| lia].
    apply DownScale_spec; assumption. }
  rewrite (GetWorkerCount_spec d d2 _ Hd2), Hsc2, Hwc2, Hws2, Hws.
  rewrite kept_length by lia.
  replace (Z.of_nat (length (workers dd) -
             Z.to_nat (Z.of_nat (length (workers dd)) - n))) with n by lia.
  rewrite Z.eqb_refl. reflexivity.
Qed.

Lemma GetWorkerCount_spins_until_reconciled_witness :
  exists s1 s2,
    UpScale 0 1 init_state = Ok 0 s1 /\
    GetWorkerCount 0 s1 = Blocked s1 /\
    AutoScale 0 s1 = Ok 0 s2 /\
    GetWorkerCount 0 s2 = Ok 1%Z s2.
Proof.
  apply (GetWorkerCount_spins_until_reconciled 0 1 _ init_state init_state_wf).
  - cbn. lia.
  - unfold max_scale. lia.
Defined.

(** ** Reset *)

(** What [New] builds, relative to the heap it was called in. *)
Lemma New_state_fresh (n : Z) (s : State) :
  exists nd,
    diss (New_state n s) !! length (diss s) = Some nd /\
    running nd = false /\ wg nd = 0%Z /\ queue nd = [] /\
    workerCount nd = Z.max n 1 /\
    length (workers nd) = Z.to_nat (Z.max n 1) /\
    qin nd = length (chans s) /\ qout nd = S (length (chans s)) /\
    chans (New_state n s) !! qin nd =
      Some (MkChan (Z.min (Z.max n 1 * 100) bufferSizeLimit) [] false) /\
    chans (New_state n s) !! qout nd =
      Some (MkChan (Z.min (Z.max n 1 * 100) bufferSizeLimit) [] false) /\
    (forall w, w ∈ workers nd ->
       length (wkrs s) <= w /\
       wkrs (New_state n s) !! w = Some (fresh_worker (length (diss s)))).
Proof.
  eexists. split; [apply New_state_lookup |]. cbn.
  do 4 (split; [reflexivity |]).
  split; [apply length_seq |].
  do 2 (split; [reflexivity |]).
  split; [apply list_lookup_middle; reflexivity |].
  split.
  { rewrite lookup_app_r by lia.
    replace (S (length (chans s)) - length (chans s)) with 1 by lia. reflexivity. }
  intros w Hw. pose proof Hw as Hw'. apply elem_of_seq in Hw'.
  split; [lia |]. apply lookup_fresh_workers, Hw.
Qed.

Lemma Reset_spec (d : nat) (dd : Dispatcher) (s : State) :
  wf_dis s d dd ->
  (Z.of_nat (length (workers dd)) <= max_new)%Z -> (workerCount dd <= max_new)%Z ->
  exists mid,
    Reset d s = Ok (length (diss mid)) (New_state (workerCount dd) mid) /\
    length (diss s) <= length (diss mid) /\
    length (chans s) <= length (chans mid) /\
    length (wkrs s) <= length (wkrs mid) /\
    diss mid !! d = Some (with_running false dd) /\
    instance mid = instance s /\ once mid = once s /\ procs mid = procs s.
Proof.
  intros (Hd & _ & _ & _ & Hc & _) Hlen Hwc. unfold Reset.
  destruct (running dd) eqn:Hrun.
  - destruct (Hc eq_refl) as [i Hi].
    erewrite bind_ok by (apply (Stop_spec d i true dd s); auto).
    set (mid := New_state (Z.of_nat (length (workers dd))) (Stop_handle_state d i dd s)).
    assert (Hmid : diss mid !! d = Some (with_running false dd))
      by (apply Stop_handle_lookup, Hd).
    erewrite bind_ok by (apply getD_ok; exact Hmid).
    exists mid. split; [apply New_spec; exact Hwc |].
    destruct (Stop_handle_state_sizes d i dd s) as (H1 & H2 & H3 & _).
    unfold mid, New_state. cbn [diss wkrs chans instance once procs].
    rewrite !length_app, H1, H2, H3.
    repeat split; try lia. exact Hmid.
  - erewrite bind_ok
      by (unfold Stop; erewrite bind_ok by (apply getD_ok; exact Hd);
          rewrite Hrun; reflexivity).
    erewrite bind_ok by (apply getD_ok; exact Hd).
    exists s. split; [apply New_spec; exact Hwc |].
    repeat split; try lia. rewrite Hd. f_equal.
    destruct dd; cbn in *; subst; reflexivity.
Qed.

(** [Reset] returns a dispatcher at a new address, sized by the target
    worker count of the receiver (not by its worker set): not running,
    nothing pending, an empty overflow list, new empty queues and new
    workers.  The receiver is left stopped.  [SafeReset] does the same when
    the receiver is not scaling and spins otherwise. *)
Theorem Reset_returns_fresh_dispatcher (d : nat) (dd : Dispatcher) (s : State) :
  wf_dis s d dd ->
  (Z.of_nat (length (workers dd)) <= max_new)%Z -> (workerCount dd <= max_new)%Z ->
  exists d' s' nd,
    Reset d s = Ok d' s' /\
    diss s !! d' = None /\
    diss s' !! d' = Some nd /\
    running nd = false /\ wg nd = 0%Z /\ queue nd = [] /\
    workerCount nd = Z.max (workerCount dd) 1 /\
    length (workers nd) = Z.to_nat (Z.max (workerCount dd) 1) /\
    qin nd <> qout nd /\
    chans s !! qin nd = None /\ chans s !! qout nd = None /\
    chans s' !! qin nd =
      Some (MkChan (Z.min (Z.max (workerCount dd) 1 * 100) bufferSizeLimit) [] false) /\
    chans s' !! qout nd =
      Some (MkChan (Z.min (Z.max (workerCount dd) 1 * 100) bufferSizeLimit) [] false) /\
    (forall w, w ∈ workers nd ->
       wkrs s !! w = None /\ wkrs s' !! w = Some (fresh_worker d')) /\
    diss s' !! d = Some (with_running false dd) /\
    (scaling dd = false -> SafeReset d s = Ok d' s') /\
    (scaling dd = true -> SafeReset d s = Blocked s).
Proof.
  intros Hwf Hlen Hwc. pose proof Hwf as (Hd & _).
  destruct (Reset_spec d dd s Hwf Hlen Hwc)
    as (mid & HR & Hl1 & Hl2 & Hl3 & Hmid & _).
  destruct (New_state_fresh (workerCount dd) mid)
    as (nd & Hnd & H1 & H2 & H3 & H4 & H5 & Hqi & Hqo & H8 & H9 & H10).
  exists (length (diss mid)), (New_state (workerCount dd) mid), nd.
  split; [exact HR |].
  split; [apply lookup_ge_None; lia |].
  split; [exact Hnd |].
  do 5 (split; [assumption |]).
  split; [lia |].
  split; [apply lookup_ge_None; lia |].
  split; [apply lookup_ge_None; lia |].
  do 2 (split; [assumption |]).
  split.
  { intros w Hw. destruct (H10 w Hw) as [Hge Hw']. split; [| exact Hw'].
    apply lookup_ge_None. lia. }
  split.
  { unfold New_state. cbn [diss]. rewrite lookup_app_l by (eapply lookup_lt_Some, Hmid).
    exact Hmid. }
  unfold SafeReset. erewrite bind_ok by (apply getD_ok; exact Hd).
  split; intros ->; [exact HR | reflexivity].
Qed.

Lemma Reset_returns_fresh_dispatcher_witness :
  exists d' s' nd,
    Reset 0 three_started = Ok d' s' /\
    diss s' !! d' = Some nd /\ running nd = false /\
    length (workers nd) = 3 /\
    diss s' !! 0 =
      Some (MkDispatcher false false false [] 0 1 0 3 [0; 1; 2] (Derived 0) (Some 0)).
Proof.
  destruct (Reset_returns_fresh_dispatcher 0 _ three_started three_started_wf)
    as (d' & s' & nd & H1 & _ & H3 & H4 & _ & _ & _ & H8 & _ & _ & _ & _ & _ & _ & H15 & _).
  - cbn. unfold max_new. lia.
  - cbn. unfold max_new. lia.
  - exists d', s', nd. repeat split; assumption.
Defined.

(** The package-level [Stop] returns the new dispatcher but leaves
    [instance] pointing at the stopped one; the package-level [Reset] makes
    the dispatcher it returns the instance. *)
Theorem Package_Reset_rebinds_instance (immediately : bool) (dd : Dispatcher)
    (s : State) :
  wf_dis s (instance s) dd -> running dd = true ->
  (Z.of_nat (length (workers dd)) <= max_new)%Z -> (workerCount dd <= max_new)%Z ->
  immediately = true \/ wg dd = 0%Z ->
  (exists d1 s1,
     Package.Stop immediately s = Ok d1 s1 /\
     d1 <> instance s /\ instance s1 = instance s /\
     diss s1 !! instance s1 = Some (with_running false dd)) /\
  (exists d2 s2 nd,
     Package.Reset s = Ok d2 s2 /\
     d2 <> instance s /\ instance s2 = d2 /\
     diss s2 !! instance s2 = Some nd /\ running nd = false /\
     length (workers nd) = Z.to_nat (Z.max (workerCount dd) 1)).
Proof.
  intros Hwf Hrun Hlen Hwc Himm. pose proof Hwf as (Hd & _ & _ & _ & Hc & _).
  destruct (Hc Hrun) as [i Hi]. split.
  - exists (length (diss s)),
      (New_state (Z.of_nat (length (workers dd))) (Stop_handle_state (instance s) i dd s)).
    split; [| split; [| split]].
    + unfold Package.Stop, get_instance, bind at 1. apply Stop_spec; assumption.
    + apply lookup_lt_Some in Hd. lia.
    + reflexivity.
    + apply Stop_handle_lookup, Hd.
  - destruct (Reset_spec _ dd s Hwf Hlen Hwc)
      as (mid & HR & Hl1 & _ & _ & Hmid & _).
    destruct (New_state_fresh (workerCount dd) mid)
      as (nd & Hnd & H1 & _ & _ & _ & H5 & _).
    exists (length (diss mid)),
      (set_instance (length (diss mid)) (New_state (workerCount dd) mid)), nd.
    split; [| split; [| split; [| split; [| split]]]].
    + unfold Package.Reset, get_instance, bind at 1.
      erewrite bind_ok by exact HR. reflexivity.
    + apply lookup_lt_Some in Hd. lia.
    + reflexivity.
    + exact Hnd.
    + exact H1.
    + exact H5.
Qed.

Lemma Package_Reset_rebinds_instance_witness :
  (exists d1 s1,
     Package.Stop true three_started = Ok d1 s1 /\ d1 <> 0 /\ instance s1 = 0) /\
  (exists d2 s2,
     Package.Reset three_started = Ok d2 s2 /\ d2 <> 0 /\ instance s2 = d2).
Proof.
  destruct (Package_Reset_rebinds_instance true _ three_started three_started_wf eq_refl)
    as [(d1 & s1 & H1 & H2 & H3 & _) (d2 & s2 & nd & H4 & H5 & H6 & _)].
  - cbn. unfold max_new. lia.
  - cbn. unfold max_new. lia.
  - left. reflexivity.
  - split; [exists d1, s1 | exists d2, s2]; repeat split; assumption.
Defined.

(** ** Stop and the goroutines of the workers *)

Lemma to_start_nil (ws : list nat) (l : list worker) :
  (forall w, w ∈ ws -> exists ww, l !! w = Some ww /\ wrunning ww = true) ->
  to_start ws l = [].
Proof.
  intros H. destruct (to_start ws l) as [|x rest] eqn:Hts; [reflexivity |].
  assert (Hx : x ∈ to_start ws l) by (rewrite Hts; left).
  apply to_start_inv in Hx as (Hin & xx & Hxx & Hidle).
  destruct (H x Hin) as (ww & Hww & Hrun). congruence.
Qed.

(** After the loop of [StartWithContext] every worker of the set is flagged
    running, and keeps its owner and its [kill] channel. *)
Lemma mark_flagged (ws : list nat) (l : list worker) (w : nat) :
  allocated ws l -> w ∈ ws ->
  exists ww, l !! w = Some ww /\ mark ws l !! w = Some (with_wrunning true ww).
Proof.
  intros Hall Hw. destruct (Hall w Hw) as [ww Hww]. exists ww. split; [exact Hww |].
  rewrite mark_lookup by exact Hall. rewrite decide_True by exact Hw.
  rewrite Hww. reflexivity.
Qed.

(** The state after [Start] and then [Stop] on the same handle. *)
Lemma Start_Stop_spec (d : nat) (c : ctxref) (immediately : bool) (dd : Dispatcher)
    (s : State) :
  wf_dis s d dd -> (Z.of_nat (length (workers dd)) <= max_new)%Z ->
  immediately = true \/ wg dd = 0%Z ->
  let i := length (ctxs s) in
  let dd1 := with_running true (with_ctx (Derived i) (Some i) dd) in
  let s1 := Start_state d c dd s in
  let s2 := New_state (Z.of_nat (length (workers dd))) (Stop_handle_state d i dd1 s1) in
  StartWithContext d c s = Ok d s1 /\
  Stop d immediately s1 = Ok (length (diss s)) s2 /\
  diss s2 !! d = Some (with_running false dd1).
Proof.
  intros Hwf Hlen Himm i dd1 s1 s2.
  pose proof (wf_dis_allocated _ _ _ Hwf) as Hall.
  pose proof (Start_state_wf d c dd s Hwf) as (Hd1 & _).
  split; [apply StartWithContext_spec; [apply Hwf | exact Hall] |].
  split.
  - replace (length (diss s)) with (length (diss s1))
      by (unfold s1, Start_state; cbn [diss]; apply length_insert).
    apply (Stop_spec d i immediately dd1 s1); auto.
  - apply Stop_handle_lookup, Hd1.
Qed.

(** The handle that was stopped is dead.  [Wait] on it returns at once,
    whatever is pending.  [Stop] clears no worker's running flag, so a
    [Start] on the same handle sets the dispatcher running again with its
    old queues and workers but starts no goroutine. *)
Theorem Start_after_Stop_starts_nothing (d : nat) (c c' : ctxref) (immediately : bool)
    (dd : Dispatcher) (s : State) :
  wf_dis s d dd -> (Z.of_nat (length (workers dd)) <= max_new)%Z ->
  immediately = true \/ wg dd = 0%Z ->
  exists s1 d' s2 s3 hd,
    StartWithContext d c s = Ok d s1 /\
    Stop d immediately s1 = Ok d' s2 /\ d' <> d /\
    Wait d s2 = Ok tt s2 /\
    StartWithContext d c' s2 = Ok d s3 /\
    procs s3 = procs s1 /\
    diss s3 !! d = Some hd /\ running hd = true /\
    workers hd = workers dd /\ qin hd = qin dd /\ qout hd = qout dd.
Proof.
  intros Hwf Hlen Himm.
  pose proof (wf_dis_allocated _ _ _ Hwf) as Hall.
  destruct (Start_Stop_spec d c immediately dd s Hwf Hlen Himm) as (H1 & H2 & H3).
  set (i := length (ctxs s)) in *.
  set (dd1 := with_running true (with_ctx (Derived i) (Some i) dd)) in *.
  set (s1 := Start_state d c dd s) in *.
  set (s2 := New_state (Z.of_nat (length (workers dd))) (Stop_handle_state d i dd1 s1)) in *.
  assert (Hflag : forall w, w ∈ workers dd ->
            exists ww, wkrs s2 !! w = Some ww /\ wrunning ww = true).
  { intros w Hw. destruct (mark_flagged _ _ w Hall Hw) as (ww & _ & Hm).
    exists (with_wrunning true ww). split; [| reflexivity].
    unfold s2, New_state. cbn [wkrs].
    rewrite lookup_app_l by (eapply lookup_lt_Some; exact Hm). exact Hm. }
  assert (Hall2 : allocated (workers (with_running false dd1)) (wkrs s2)).
  { intros w Hw. destruct (Hflag w Hw) as (ww & -> & _). eauto. }
  exists s1, (length (diss s)), s2,
    (Start_state d c' (with_running false dd1) s2),
    (with_running true
       (with_ctx (Derived (length (ctxs s2))) (Some (length (ctxs s2)))
          (with_running false dd1))).
  split; [exact H1 |]. split; [exact H2 |].
  split; [destruct Hwf as (Hd & _); apply lookup_lt_Some in Hd; lia |].
  split; [unfold Wait; erewrite bind_ok by (apply getD_ok; exact H3); reflexivity |].
  split; [apply StartWithContext_spec; assumption |].
  split.
  { unfold Start_state at 1. cbn [procs].
    rewrite (to_start_nil (workers (with_running false dd1)) (wkrs s2) Hflag).
    cbn [map]. rewrite app_nil_r. reflexivity. }
  split; [unfold Start_state at 1; cbn [diss]; eapply lookup_insert_same; exact H3 |].
  repeat split.
Qed.

Lemma Start_after_Stop_starts_nothing_witness :
  exists s1 d' s2 s3,
    Start 0 init_state = Ok 0 s1 /\
    Stop 0 false s1 = Ok d' s2 /\ d' <> 0 /\
    Start 0 s2 = Ok 0 s3 /\
    procs s3 = procs s1.
Proof.
  destruct (Start_after_Stop_starts_nothing 0 Background Background false _ init_state
              init_state_wf)
    as (s1 & d' & s2 & s3 & hd & H1 & H2 & H3 & _ & H4 & H5 & _).
  - cbn. unfold max_new. lia.
  - right. reflexivity.
  - exists s1, d', s2, s3. repeat split; assumption.
Defined.

Lemma step_worker_done (j w : nat) (c : ctxref) (s : State) :
  procs s !! j = Some (PWorker w c) ->
  step j PickDone s =
  if ctx_done s c then Ok tt (set_procs <[j := PExit]> s) else Blocked s.
Proof. intros Hj. unfold step. rewrite Hj. reflexivity. Qed.

Lemma step_worker_kill_blocks (j w : nat) (c : ctxref) (ww : worker) (s : State) :
  procs s !! j = Some (PWorker w c) ->
  wkrs s !! w = Some ww -> kill ww = MkChan 1 [] false ->
  step j PickKill s = Blocked s.
Proof.
  intros Hj Hw Hk. unfold step. rewrite Hj. cbn [step_worker].
  erewrite bind_ok by (apply getW_ok; exact Hw). rewrite Hk. reflexivity.
Qed.

(** A token derived from the background context and not cancelled is not
    done. *)
Lemma ctx_done_background (s : State) (i : nat) :
  ctxs s !! i = Some (MkCtx Background false) -> ctx_done s (Derived i) = false.
Proof.
  intros Hi. unfold ctx_done.
  destruct (length (ctxs s)) as [|[|f]]; cbn [done_fuel]; rewrite Hi; reflexivity.
Qed.

(** The goroutines [StartWithContext] starts sit behind those already there. *)
Lemma Start_state_procs (d : nat) (c : ctxref) (dd : Dispatcher) (s : State)
    (k w : nat) :
  to_start (workers dd) (wkrs s) !! k = Some w ->
  procs (Start_state d c dd s) !! (length (procs s) + k) =
  Some (PWorker w (Derived (length (ctxs s)))).
Proof.
  intros Hk. unfold Start_state. cbn [procs].
  rewrite lookup_app_r by lia.
  replace (length (procs s) + k - length (procs s)) with k by lia.
  rewrite list_lookup_fmap, Hk. reflexivity.
Qed.

(** [Stop] cancels the token of the last [Start]: every goroutine that
    [Start] started can leave through [ctx.Done()] once [Stop] has returned,
    and (for a token derived from the background context) not before.  An
    observer of the dispatcher reads the same token and returns at its next
    round. *)
Theorem Stop_releases_started_workers (d : nat) (c : ctxref) (immediately : bool)
    (dd : Dispatcher) (s : State) :
  wf_dis s d dd -> (Z.of_nat (length (workers dd)) <= max_new)%Z ->
  immediately = true \/ wg dd = 0%Z ->
  exists s1 d' s2,
    StartWithContext d c s = Ok d s1 /\
    Stop d immediately s1 = Ok d' s2 /\
    (forall k w, to_start (workers dd) (wkrs s) !! k = Some w ->
       let j := length (procs s) + k in
       procs s1 !! j = Some (PWorker w (Derived (length (ctxs s)))) /\
       (c = Background -> step j PickDone s1 = Blocked s1) /\
       step j PickDone s2 = Ok tt (set_procs <[j := PExit]> s2)) /\
    (forall j p, procs s !! j = Some (PObserver d) ->
       step j p s2 = Ok tt (set_procs <[j := PExit]> s2)).
Proof.
  intros Hwf Hlen Himm.
  destruct (Start_Stop_spec d c immediately dd s Hwf Hlen Himm) as (H1 & H2 & H3).
  set (i := length (ctxs s)) in *.
  set (dd1 := with_running true (with_ctx (Derived i) (Some i) dd)) in *.
  set (s1 := Start_state d c dd s) in *.
  set (s2 := New_state (Z.of_nat (length (workers dd))) (Stop_handle_state d i dd1 s1)) in *.
  exists s1, (length (diss s)), s2.
  split; [exact H1 |]. split; [exact H2 |].
  assert (Hi1 : ctxs s1 !! i = Some (MkCtx c false))
    by (unfold s1, Start_state; cbn [ctxs]; apply list_lookup_middle; reflexivity).
  assert (Hdone : ctx_done s2 (Derived i) = true).
  { apply (ctx_done_cancelled s2 i c).
    unfold s2, New_state, Stop_handle_state. cbn [ctxs set_diss set_ctxs].
    rewrite Hi1. cbn [parent].
    apply list_lookup_insert_eq. eapply lookup_lt_Some, Hi1. }
  split.
  - intros k w Hk j.
    pose proof (Start_state_procs d c dd s k w Hk) as Hj. fold s1 i j in Hj.
    split; [exact Hj |]. split.
    + intros ->. rewrite (step_worker_done j w (Derived i) s1 Hj).
      rewrite (ctx_done_background s1 i Hi1). reflexivity.
    + assert (Hj2 : procs s2 !! j = Some (PWorker w (Derived i))) by exact Hj.
      rewrite (step_worker_done j w (Derived i) s2 Hj2), Hdone. reflexivity.
  - intros j p Hj.
    assert (Hj2 : procs s2 !! j = Some (PObserver d)).
    { change (procs s2) with (procs s1). unfold s1, Start_state. cbn [procs].
      rewrite lookup_app_l by (eapply lookup_lt_Some, Hj). exact Hj. }
    unfold step. rewrite Hj2. unfold step_observer.
    erewrite bind_ok by (apply getD_ok; exact H3).
    cbn [ctx with_running with_ctx dd1]. rewrite Hdone. reflexivity.
Qed.

Lemma Stop_releases_started_workers_witness :
  exists s1 d' s2,
    Start 0 init_state = Ok 0 s1 /\
    Stop 0 true s1 = Ok d' s2 /\
    procs s1 !! 2 = Some (PWorker 2 (Derived 0)) /\
    step 2 PickDone s1 = Blocked s1 /\
    step 2 PickDone s2 = Ok tt (set_procs <[2 := PExit]> s2).
Proof.
  destruct (Stop_releases_started_workers 0 Background true _ init_state init_state_wf)
    as (s1 & d' & s2 & H1 & H2 & H3 & _).
  - cbn. unfold max_new. lia.
  - left. reflexivity.
  - exists s1, d', s2. split; [exact H1 |]. split; [exact H2 |].
    destruct (H3 2 2 eq_refl) as (H4 & H5 & H6).
    split; [exact H4 |]. split; [exact (H5 eq_refl) | exact H6].
Defined.

(** [UpScale] on a running dispatcher calls [Start], which replaces the
    lifecycle token and the cancel function; the cancel function of the
    token the running workers hold is dropped.  A later [Stop] cancels only
    the new token: the goroutines started before the [UpScale] can leave
    neither through [ctx.Done()] nor through [kill]. *)
Theorem UpScale_orphans_running_workers (d : nat) (n : Z) (dd : Dispatcher) (s : State) :
  wf_dis s d dd -> (Z.of_nat (length (workers dd)) <= max_new)%Z ->
  (0 <= n <= max_new)%Z ->
  exists s1 s2 d' s3,
    Start d s = Ok d s1 /\
    UpScale d n s1 = Ok d s2 /\
    Stop d true s2 = Ok d' s3 /\
    forall k w, to_start (workers dd) (wkrs s) !! k = Some w ->
      let j := length (procs s) + k in
      procs s3 !! j = Some (PWorker w (Derived (length (ctxs s)))) /\
      step j PickDone s3 = Blocked s3 /\
      step j PickKill s3 = Blocked s3.
Proof.
  intros Hwf Hlen Hnew.
  assert (Hn : (0 <= n <= max_scale)%Z) by (unfold max_new, max_scale in *; lia).
  pose proof (wf_dis_allocated _ _ _ Hwf) as Hall.
  set (i := length (ctxs s)).
  set (dd1 := with_running true (with_ctx (Derived i) (Some i) dd)).
  set (s1 := Start_state d Background dd s).
  pose proof (Start_state_wf d Background dd s Hwf) as Hwf1. fold i dd1 s1 in Hwf1.
  pose proof Hwf1 as (Hd1 & _).
  destruct (UpScale_state_lookup d n dd1 s1 Hd1)
    as (dd2 & Hd2 & Hws2 & _ & Hrun2 & _ & _ & _ & _ & _ & Hc2 & _).
  destruct (Hc2 eq_refl) as [_ Hcancel].
  pose proof (UpScale_state_wf d n dd1 dd2 s1 Hwf1 Hn Hd2) as Hwf2.
  set (s2 := UpScale_state d n dd1 s1) in *.
  assert (Hl2 : (Z.of_nat (length (workers dd2)) <= max_new)%Z).
  { rewrite Hws2, length_app, length_seq. cbn [workers dd1 with_running with_ctx].
    unfold max_scale, max_new in *. lia. }
  set (s3 := New_state (Z.of_nat (length (workers dd2)))
               (Stop_handle_state d (length (ctxs s1)) dd2 s2)).
  exists s1, s2, (length (diss s2)), s3.
  split; [apply StartWithContext_spec; [apply Hwf | exact Hall] |].
  split; [apply UpScale_spec; assumption |].
  split; [apply (Stop_spec d (length (ctxs s1)) true dd2 s2); auto |].
  intros k w Hk j.
  pose proof (Start_state_procs d Background dd s k w Hk) as Hj. fold s1 i j in Hj.
  assert (Hp2 : exists rest, procs s2 = procs s1 ++ rest).
  { unfold s2, UpScale_state. cbn [running dd1 with_running].
    unfold Start_state at 1. cbn [procs set_diss UpScale_grown].
    rewrite <- app_assoc. eauto. }
  destruct Hp2 as [rest Hp2].
  assert (Hj3 : procs s3 !! j = Some (PWorker w (Derived i))).
  { change (procs s3) with (procs s2). rewrite Hp2.
    rewrite lookup_app_l by (eapply lookup_lt_Some, Hj). exact Hj. }
  split; [exact Hj3 |]. split.
  - rewrite (step_worker_done j w (Derived i) s3 Hj3).
    rewrite (ctx_done_background s3 i); [reflexivity |].
    assert (Hc : ctxs s2 = (ctxs s ++ [MkCtx Background false]) ++ [MkCtx Background false]).
    { unfold s2, UpScale_state. cbn [running dd1 with_running].
      unfold Start_state at 1. cbn [ctxs set_diss UpScale_grown]. reflexivity. }
    unfold s3, New_state, Stop_handle_state. cbn [ctxs set_diss set_ctxs].
    rewrite Hc.
    assert (Hlen1 : length (ctxs s1) = S i)
      by (unfold s1, Start_state; cbn [ctxs]; rewrite length_app; cbn; lia).
    rewrite Hlen1.
    assert (Hlast : ((ctxs s ++ [MkCtx Background false]) ++ [MkCtx Background false])
                      !! S i = Some (MkCtx Background false)).
    { rewrite lookup_app_r by (rewrite length_app; cbn; unfold i; lia).
      rewrite length_app. cbn [length].
      replace (S i - (length (ctxs s) + 1)) with 0 by (unfold i; lia). reflexivity. }
    rewrite Hlast. cbn [parent].
    rewrite list_lookup_insert_ne by lia.
    rewrite lookup_app_l by (rewrite length_app; cbn; unfold i; lia).
    apply list_lookup_middle. reflexivity.
  - assert (Hin : w ∈ workers dd2).
    { rewrite Hws2. apply elem_of_app. left.
      apply (to_start_inv (workers dd) (wkrs s) w).
      eapply list_elem_of_lookup_2, Hk. }
    destruct Hwf2 as (_ & _ & _ & Hk2 & _).
    destruct (Hk2 w Hin) as (ww & Hww & Hkill).
    apply (step_worker_kill_blocks j w (Derived i) ww s3 Hj3); [| exact Hkill].
    unfold s3, New_state. cbn [wkrs].
    rewrite lookup_app_l by (eapply lookup_lt_Some; exact Hww). exact Hww.
Qed.

Lemma UpScale_orphans_running_workers_witness :
  exists s1 s2 d' s3,
    Start 0 init_state = Ok 0 s1 /\
    UpScale 0 7 s1 = Ok 0 s2 /\
    Stop 0 true s2 = Ok d' s3 /\
    procs s3 !! 0 = Some (PWorker 0 (Derived 0)) /\
    step 0 PickDone s3 = Blocked s3 /\
    step 0 PickKill s3 = Blocked s3.
Proof.
  destruct (UpScale_orphans_running_workers 0 7 _ init_state init_state_wf)
    as (s1 & s2 & d' & s3 & H1 & H2 & H3 & H4).
  - cbn. unfold max_new. lia.
  - unfold max_new. lia.
  - exists s1, s2, d', s3. split; [exact H1 |]. split; [exact H2 |]. split; [exact H3 |].
    exact (H4 0 0 eq_refl).
Defined.

(** ** Filling the intake queue *)

Lemma Add_blocked_spec (d : nat) (job : Job) (dd : Dispatcher) (c : Chan func)
    (s : State) :
  diss s !! d = Some dd -> (0 <= wg dd)%Z ->
  chans s !! qin dd = Some c -> closed c = false ->
  (cap c <= Z.of_nat (length (buf c)))%Z ->
  Add d job s = Blocked (Add_blocked_state d dd s).
Proof.
  intros Hd Hwg Hc Hopen Hfull. unfold Add.
  unfold bind at 1, make_err_chan at 1. cbn [make_chan Z.ltb Z.compare].
  erewrite bind_ok by (eapply wg_add_ok; [heap_lookup | lia]).
  erewrite bind_ok by (apply getD_ok; heap_lookup).
  cbn [qin with_wg].
  unfold bind, send_func, chan_send. cbn [chans set_diss set_echs].
  rewrite Hc, Hopen.
  destruct (Z.ltb_spec (Z.of_nat (length (buf c))) (cap c)) as [|_]; [lia |].
  reflexivity.
Qed.

Lemma bind_blocked {A B : Type} (m : M A) (k : A -> M B) (s s' : State) :
  m s = Blocked s' -> bind m k s = Blocked s'.
Proof. unfold bind. intros ->. reflexivity. Qed.

Lemma with_wg_id (dd : Dispatcher) : with_wg (wg dd + 0) dd = dd.
Proof. destruct dd. unfold with_wg. cbn. rewrite Z.add_0_r. reflexivity. Qed.

Lemma add_all_spec (d : nat) (jobs : list Job) (dd : Dispatcher) (c : Chan func)
    (s : State) :
  diss s !! d = Some dd -> (0 <= wg dd)%Z ->
  chans s !! qin dd = Some c -> closed c = false ->
  (Z.of_nat (length (buf c)) + Z.of_nat (length jobs) <= cap c)%Z ->
  add_all d jobs s = Ok tt (add_all_state d jobs dd c s).
Proof.
  revert dd c s. induction jobs as [|job rest IH]; intros dd c s Hd Hwg Hc Hopen Hroom.
  - cbn [add_all]. state_eq.
    + rewrite with_wg_id. symmetry. apply list_insert_id, Hd.
    + rewrite app_nil_r. symmetry. apply list_insert_id. rewrite Hc.
      destruct c; reflexivity.
    + symmetry. apply app_nil_r.
  - cbn [add_all length] in *.
    erewrite bind_ok by (apply (Add_spec d job dd c s); auto; lia).
    rewrite (IH (with_wg (wg dd + 1) dd)
                (MkChan (cap c) (buf c ++ [Some (Closure (length (echs s)) job)]) (closed c))).
    + state_eq.
      * rewrite list_insert_insert_eq. f_equal.
        unfold with_wg. cbn. f_equal. lia.
      * rewrite list_insert_insert_eq, length_app, <- app_assoc. cbn.
        replace (length (echs s) + 1) with (S (length (echs s))) by lia. reflexivity.
      * rewrite <- app_assoc. reflexivity.
    + unfold Add_state. cbn [diss]. eapply lookup_insert_same, Hd.
    + cbn. lia.
    + unfold Add_state. cbn [chans qin with_wg]. eapply lookup_insert_same, Hc.
    + exact Hopen.
    + cbn [cap buf]. rewrite length_app. cbn [length]. lia.
Qed.

Lemma add_all_app (d : nat) (l1 l2 : list Job) (s : State) :
  add_all d (l1 ++ l2) s = (add_all d l1 >> add_all d l2) s.
Proof.
  revert s. induction l1 as [|job rest IH]; intros s; [reflexivity |].
  cbn [add_all app]. unfold bind.
  destruct (Add d job s) as [e s'| |]; [| reflexivity | reflexivity].
  rewrite IH. reflexivity.
Qed.

Lemma closures_length (e : nat) (jobs : list Job) : length (closures e jobs) = length jobs.
Proof. revert e. induction jobs; intros e; cbn; [| rewrite IHjobs]; reflexivity. Qed.

Lemma add_all_blocks (d : nat) (l1 l2 : list Job) (job : Job) (dd : Dispatcher)
    (c : Chan func) (s : State) :
  diss s !! d = Some dd -> (0 <= wg dd)%Z ->
  chans s !! qin dd = Some c -> closed c = false ->
  (Z.of_nat (length (buf c)) + Z.of_nat (length l1) = cap c)%Z ->
  add_all d (l1 ++ job :: l2) s =
  Blocked (Add_blocked_state d (with_wg (wg dd + Z.of_nat (length l1)) dd)
             (add_all_state d l1 dd c s)).
Proof.
  intros Hd Hwg Hc Hopen Hfull. rewrite add_all_app.
  erewrite bind_ok by (apply (add_all_spec d l1 dd c s); auto; lia).
  cbn [add_all].
  erewrite bind_blocked; [reflexivity |].
  apply Add_blocked_spec
    with (c := MkChan (cap c) (buf c ++ closures (length (echs s)) l1) (closed c)).
  - unfold add_all_state. cbn [diss]. eapply lookup_insert_same, Hd.
  - cbn. lia.
  - unfold add_all_state. cbn [chans qin with_wg]. eapply lookup_insert_same, Hc.
  - exact Hopen.
  - cbn [cap buf]. rewrite length_app, closures_length. lia.
Qed.

Lemma split_at_room (jobs : list Job) (room : nat) :
  room < length jobs ->
  exists job l2, jobs = take room jobs ++ job :: l2 /\ length (take room jobs) = room.
Proof.
  intros Hgt. destruct (drop room jobs) as [|job l2] eqn:Hdrop.
  { apply (f_equal length) in Hdrop. rewrite length_drop in Hdrop. cbn in Hdrop. lia. }
  exists job, l2. split; [| rewrite length_take; lia].
  rewrite <- Hdrop. symmetry. apply take_drop.
Qed.



(** ** The demo *)

(** The state [Get(3)] returns in from the state of [init]: the instance is
    a second dispatcher, built by the first call through [once]. *)
Lemma Get_3_init :
  exists sG,
    Get 3 init_state = Ok 1 sG /\
    diss sG !! 1 = Some (MkDispatcher false false false [] 2 3 0 3 [3; 4; 5] Background None) /\
    chans sG !! 2 = Some (MkChan 300 [] false) /\
    procs sG = [] /\ log sG = [] /\ ctxs sG = [] /\ echs sG = [].
Proof. eexists. split; [vm_compute; reflexivity |]. repeat split. Qed.

(** The demo never reaches [dispatcher.Start()].  Its loop adds more jobs
    than the intake queue of [Get(3)] holds (300) before anything receives
    from that queue: the call of [Add] after the first 300 suspends.  The
    only goroutine of the pool, the observer, finds nothing to do, so no
    step of any goroutine changes the state; no job has been invoked. *)
Theorem main_suspends_in_Add (jobs : list Job) :
  300 < length jobs ->
  exists s' dd,
    main_to_Start jobs init_state = Blocked s' /\
    diss s' !! 1 = Some dd /\ running dd = false /\ wg dd = 301%Z /\
    chans s' !! qin dd = Some (MkChan 300 (closures 0 (take 300 jobs)) false) /\
    procs s' = [PObserver 1] /\ log s' = [] /\
    forall i p, step i p s' = Ok tt s'.
Proof.
  intros Hlen. destruct Get_3_init as (sG & HG & Hd & Hc & Hp & Hl & Hx & He).
  destruct (split_at_room jobs 300 Hlen) as (job & l2 & Hjobs & Hl1).
  set (l1 := take 300 jobs) in *.
  set (dd0 := MkDispatcher false false false [] 2 3 0 3 [3; 4; 5] Background None) in *.
  set (sO := set_procs (fun l => l ++ [PObserver 1]) sG).
  set (s' := Add_blocked_state 1 (with_wg (wg dd0 + Z.of_nat (length l1)) dd0)
               (add_all_state 1 l1 dd0 (MkChan 300 [] false) sO)).
  assert (Hd' : diss s' !! 1 = Some (with_wg 301 dd0)).
  { unfold s'. cbn [diss Add_blocked_state add_all_state].
    rewrite list_insert_insert_eq.
    replace (wg (with_wg (wg dd0 + Z.of_nat (length l1)) dd0) + 1)%Z with 301%Z
      by (cbn; lia).
    eapply lookup_insert_same. exact Hd. }
  exists s', (with_wg 301 dd0).
  split.
  { unfold main_to_Start. erewrite bind_ok by exact HG.
    erewrite bind_ok by reflexivity. fold sO.
    erewrite bind_blocked; [reflexivity |].
    rewrite Hjobs.
    apply (add_all_blocks 1 l1 l2 job dd0 (MkChan 300 [] false) sO);
      [exact Hd | cbn; lia | exact Hc | reflexivity | cbn; lia]. }
  split; [exact Hd' |]. split; [reflexivity |]. split; [reflexivity |].
  split.
  { unfold s', sO, dd0.
    cbn [chans echs Add_blocked_state add_all_state qin with_wg set_procs].
    rewrite He. eapply lookup_insert_same. exact Hc. }
  assert (Hp' : procs s' = [PObserver 1]).
  { unfold s', sO. cbn [procs Add_blocked_state add_all_state set_procs]. rewrite Hp.
    reflexivity. }
  split; [exact Hp' |]. split; [exact Hl |].
  intros i p. unfold step. rewrite Hp'. destruct i as [|i]; [| reflexivity].
  cbn [lookup list_lookup]. unfold step_observer.
  erewrite bind_ok by (apply getD_ok; exact Hd').
  assert (Hdone : ctx_done s' Background = false).
  { unfold ctx_done. destruct (length (ctxs s')); reflexivity. }
  cbn [ctx with_wg dd0]. rewrite Hdone. reflexivity.
Qed.

Lemma main_suspends_in_Add_witness :
  exists s',
    main_to_Start (replicate 400 failing_job) init_state = Blocked s' /\
    log s' = [] /\ forall i p, step i p s' = Ok tt s'.
Proof.
  destruct (main_suspends_in_Add (replicate 400 failing_job))
    as (s' & dd & H1 & _ & _ & _ & _ & _ & H7 & H8).
  - rewrite length_replicate. lia.
  - exists s'. split; [exact H1 |]. split; [exact H7 | exact H8].
Defined.

(** ** The relay *)






(** ** From [Add] to the completion channel *)




(** ** Rescaling against the direction *)

(** [DownScale(n)] with [n] not below the size of the worker set removes no
    worker and signals none, but still sets the target to [n] and replaces
    the queues; the [AutoScale] that follows grows the set to [n]. *)
Theorem DownScale_above_size_sets_target (d : nat) (n : Z) (dd : Dispatcher)
    (s : State) :
  wf_dis s d dd ->
  (Z.of_nat (length (workers dd)) <= n <= max_scale)%Z ->
  exists s1 d1 s2 d2,
    DownScale d n s = Ok d s1 /\
    diss s1 !! d = Some d1 /\
    workers d1 = workers dd /\ workerCount d1 = n /\ wkrs s1 = wkrs s /\
    qin d1 <> qin dd /\ qout d1 <> qout dd /\
    AutoScale d s1 = Ok d s2 /\
    diss s2 !! d = Some d2 /\
    Z.of_nat (length (workers d2)) = n /\ workerCount d2 = n /\
    workers dd `prefix_of` workers d2.
Proof.
  intros Hwf Hn. pose proof Hwf as (Hd & Hwg & Hlen & Hk & Hc & Hqi & Hqo).
  apply lookup_lt_is_Some in Hqi, Hqo.
  assert (Hn' : (0 <= n <= max_scale)%Z) by lia.
  destruct (DownScale_state_lookup d n dd s Hd)
    as (d1 & Hd1 & Hws & Hwc & Hrun & Hsc & Hi & Ho & Hwg1 & Hq1 & Hctx & Hcan).
  replace (Z.to_nat (Z.of_nat (length (workers dd)) - n)) with 0%nat in Hws by lia.
  cbn [kept] in Hws.
  set (s1 := DownScale_state d n dd s) in *.
  assert (Hw1 : wkrs s1 = wkrs s).
  { unfold s1, DownScale_state. cbn [wkrs].
    replace (Z.to_nat (Z.of_nat (length (workers dd)) - n)) with 0%nat by lia.
    cbn [removed stop_all]. destruct (running dd); reflexivity. }
  assert (Hwf1 : wf_dis s1 d d1).
  { split; [exact Hd1 |]. split; [lia |]. split; [rewrite Hws; exact Hlen |].
    split; [rewrite Hws, Hw1; exact Hk |].
    split; [rewrite Hrun, Hcan; exact Hc |].
    rewrite Hi, Ho. unfold s1, DownScale_state. cbn [chans].
    split; apply lookup_lt_is_Some; rewrite length_app; cbn; lia. }
  destruct (UpScale_state_lookup d n d1 s1 Hd1) as (d2 & Hd2 & Hws2 & Hwc2 & _).
  exists s1, d1, (if (Z.of_nat (length (workers dd)) <? n)%Z
                  then UpScale_state d n d1 s1 else s1),
    (if (Z.of_nat (length (workers dd)) <? n)%Z then d2 else d1).
  split; [apply DownScale_spec; assumption |].
  split; [exact Hd1 |]. split; [exact Hws |]. split; [exact Hwc |].
  split; [exact Hw1 |]. split; [lia |]. split; [lia |].
  assert (HA : AutoScale d s1 =
               Ok d (if (Z.of_nat (length (workers dd)) <? n)%Z
                     then UpScale_state d n d1 s1 else s1)).
  { unfold AutoScale. erewrite bind_ok by (apply getD_ok; exact Hd1).
    rewrite Hwc, Hws.
    destruct (Z.ltb_spec n (Z.of_nat (length (workers dd)))); [lia |].
    destruct (Z.ltb_spec (Z.of_nat (length (workers dd))) n); [| reflexivity].
    apply UpScale_spec; assumption. }
  split; [exact HA |].
  destruct (Z.ltb_spec (Z.of_nat (length (workers dd))) n).
  - split; [exact Hd2 |]. rewrite Hws2, Hws, length_app, length_seq.
    split; [lia |]. split; [exact Hwc2 |]. apply prefix_app_r. reflexivity.
  - split; [exact Hd1 |]. rewrite Hws. split; [lia |]. split; [exact Hwc | reflexivity].
Qed.

Lemma DownScale_above_size_sets_target_witness :
  exists s1 d1 s2 d2,
    DownScale 0 5 init_state = Ok 0 s1 /\
    diss s1 !! 0 = Some d1 /\ workers d1 = [0; 1; 2] /\ workerCount d1 = 5%Z /\
    AutoScale 0 s1 = Ok 0 s2 /\
    diss s2 !! 0 = Some d2 /\ Z.of_nat (length (workers d2)) = 5%Z.
Proof.
  destruct (DownScale_above_size_sets_target 0 5 _ init_state init_state_wf)
    as (s1 & d1 & s2 & d2 & H1 & H2 & H3 & H4 & _ & _ & _ & H8 & H9 & H10 & _).
  - cbn. unfold max_scale. lia.
  - exists s1, d1, s2, d2. repeat split; assumption.
Defined.

(** ** Waiting after a rescale *)

(** Every rescale raises the pending counter by two, one for each draining
    goroutine.  On a running dispatcher [Wait] and the graceful [Stop]
    therefore suspend right after [UpScale] or [DownScale] returns, with no
    job pending; the immediate [Stop] still returns, as long as the worker
    set it rebuilds has at most [max_new] workers. *)
Theorem graceful_Stop_suspends_after_rescale (up : bool) (d : nat) (n : Z)
    (dd : Dispatcher) (s : State) :
  wf_dis s d dd -> running dd = true -> (0 <= n <= max_scale)%Z ->
  (Z.of_nat (length (workers dd)) <= max_scale)%Z ->
  exists s1 d1,
    (if up then UpScale d n else DownScale d n) s = Ok d s1 /\
    diss s1 !! d = Some d1 /\ wg d1 = (wg dd + 2)%Z /\
    Wait d s1 = Blocked s1 /\
    Stop d false s1 = Blocked s1 /\
    ((n <= max_new)%Z -> (Z.of_nat (length (workers dd)) <= max_new)%Z ->
     exists d' s2, Stop d true s1 = Ok d' s2).
Proof.
  intros Hwf Hrun Hn Hlen. pose proof Hwf as (Hd & Hwg & _ & _ & Hc & _).
  assert (HW : forall s1 d1, diss s1 !! d = Some d1 -> running d1 = true ->
            wg d1 = (wg dd + 2)%Z ->
            Wait d s1 = Blocked s1 /\ Stop d false s1 = Blocked s1).
  { intros s1 d1 Hd1 Hr1 Hw1.
    assert (HWait : Wait d s1 = Blocked s1).
    { unfold Wait. erewrite bind_ok by (apply getD_ok; exact Hd1). rewrite Hr1.
      unfold wg_wait. erewrite bind_ok by (apply getD_ok; exact Hd1).
      destruct (Z.eqb_spec (wg d1) 0); [lia | reflexivity]. }
    split; [exact HWait |].
    unfold Stop. erewrite bind_ok by (apply getD_ok; exact Hd1). rewrite Hr1.
    cbn [negb]. unfold bind at 1. unfold bind at 1. rewrite HWait. reflexivity. }
  destruct up.
  - destruct (UpScale_state_lookup d n dd s Hd)
      as (d1 & Hd1 & Hws & _ & Hr1 & _ & _ & _ & Hw1 & _ & Hc1 & _).
    rewrite Hrun in Hr1. destruct (Hc1 Hrun) as [_ Hcan].
    destruct (HW _ _ Hd1 Hr1 Hw1) as [H1 H2].
    eexists _, d1.
    split; [exact (UpScale_spec d n dd s Hwf Hn) |].
    split; [exact Hd1 |]. split; [exact Hw1 |]. split; [exact H1 |].
    split; [exact H2 |].
    intros Hn' Hlen'. eexists _, _.
    apply (Stop_spec d _ true d1 _ Hd1 Hr1 Hcan); [left; reflexivity |].
    rewrite Hws, length_app, length_seq. unfold max_scale, max_new in *. lia.
  - destruct (DownScale_state_lookup d n dd s Hd)
      as (d1 & Hd1 & Hws & _ & Hr1 & _ & _ & _ & Hw1 & _ & _ & Hcan).
    rewrite Hrun in Hr1. destruct (Hc Hrun) as [i Hi]. rewrite Hi in Hcan.
    destruct (HW _ _ Hd1 Hr1 Hw1) as [H1 H2].
    eexists _, d1.
    split; [exact (DownScale_spec d n dd s Hwf Hn) |].
    split; [exact Hd1 |]. split; [exact Hw1 |]. split; [exact H1 |].
    split; [exact H2 |].
    intros Hn' Hlen'. eexists _, _.
    apply (Stop_spec d _ true d1 _ Hd1 Hr1 Hcan); [left; reflexivity |].
    rewrite Hws.
    assert (length (kept (Z.to_nat (Z.of_nat (length (workers dd)) - n)) 0 (workers dd))
            <= length (workers dd)).
    { apply sublist_length, kept_sublist. }
    unfold max_scale, max_new in *. lia.
Qed.

Lemma graceful_Stop_suspends_after_rescale_witness :
  exists s1,
    UpScale 0 7 three_started = Ok 0 s1 /\
    Wait 0 s1 = Blocked s1 /\ Stop 0 false s1 = Blocked s1.
Proof.
  destruct (graceful_Stop_suspends_after_rescale true 0 7 _ three_started
              three_started_wf eq_refl)
    as (s1 & d1 & H1 & _ & _ & H4 & H5 & _).
  - unfold max_scale. lia.
  - cbn. unfold max_scale. lia.
  - exists s1. repeat split; assumption.
Defined.

(** ** The stop signal of [DownScale] *)

(** On a running dispatcher the signal [DownScale] sends ends the goroutine
    of each worker it removes: taking the [kill] branch, the goroutine
    receives the signal and returns.  The goroutine of a worker that is kept
    finds its [kill] channel empty. *)
Theorem DownScale_signal_ends_goroutine (d : nat) (n : Z) (dd : Dispatcher) (s : State) :
  wf_dis s d dd -> NoDup (workers dd) -> running dd = true ->
  (0 <= n <= Z.of_nat (length (workers dd)))%Z -> (n <= max_scale)%Z ->
  let k := length (workers dd) - Z.to_nat n in
  exists s1,
    DownScale d n s = Ok d s1 /\
    forall j w c ww,
      procs s !! j = Some (PWorker w c) -> wkrs s !! w = Some ww ->
      wrunning ww = true ->
      (w ∈ removed k 0 (workers dd) ->
         step j PickKill s1 =
         Ok tt (set_procs <[j := PExit]>
                  (set_wkrs <[w := MkWorker (dis ww) (MkChan 1 [] false) false]> s1))) /\
      (w ∈ kept k 0 (workers dd) -> step j PickKill s1 = Blocked s1).
Proof.
  intros Hwf Hnd Hrun Hn Hmax k.
  pose proof Hwf as (Hd & _ & _ & Hk & _).
  pose proof (wf_dis_allocated _ _ _ Hwf) as Hall.
  assert (Hn' : (0 <= n <= max_scale)%Z) by lia.
  assert (Hkk : Z.to_nat (Z.of_nat (length (workers dd)) - n) = k) by (unfold k; lia).
  assert (Hkl : k <= length (workers dd)) by (unfold k; lia).
  assert (Hidx : 0 < k -> 0 < length (workers dd)) by lia.
  assert (Hgone : forall w, w ∈ removed k 0 (workers dd) -> is_Some (wkrs s !! w))
    by (intros w Hw; apply Hall; eapply removed_allocated, Hw).
  set (s1 := DownScale_state d n dd s).
  assert (Hw1 : wkrs s1 = stop_all (removed k 0 (workers dd)) (wkrs s)).
  { unfold s1, DownScale_state. cbn [wkrs]. rewrite Hrun, Hkk. reflexivity. }
  exists s1. split; [apply DownScale_spec; assumption |].
  intros j w c ww Hj Hw Hflag.
  assert (Hj1 : procs s1 !! j = Some (PWorker w c)).
  { unfold s1, DownScale_state. cbn [procs].
    rewrite lookup_app_l by (eapply lookup_lt_Some, Hj). exact Hj. }
  pose proof (stop_all_lookup _ _ w ww Hgone Hw) as Hlk. rewrite <- Hw1 in Hlk.
  split; intros Hin.
  - rewrite decide_True in Hlk by exact Hin. rewrite Hflag in Hlk.
    unfold step. rewrite Hj1. cbn [step_worker].
    erewrite bind_ok by (apply getW_ok; exact Hlk).
    cbn [kill stopped chan_recv buf].
    erewrite bind_ok by (apply modW_ok; exact Hlk).
    unfold set_proc. reflexivity.
  - rewrite decide_False in Hlk
      by (apply kept_not_removed; [exact Hnd | exact Hkl | exact Hidx | exact Hin]).
    assert (Hws : w ∈ workers dd)
      by (eapply elem_of_sublist; [exact Hin | apply kept_sublist]).
    destruct (Hk w Hws) as (w0 & Hw0 & Hkill).
    assert (w0 = ww) as -> by congruence.
    unfold step. rewrite Hj1. cbn [step_worker].
    erewrite bind_ok by (apply getW_ok; exact Hlk).
    rewrite Hkill. reflexivity.
Qed.

Lemma DownScale_signal_ends_goroutine_witness :
  exists s1,
    DownScale 0 2 three_started = Ok 0 s1 /\
    step 0 PickKill s1 =
      Ok tt (set_procs <[0 := PExit]>
               (set_wkrs <[0 := MkWorker 0 (MkChan 1 [] false) false]> s1)) /\
    step 1 PickKill s1 = Blocked s1.
Proof.
  destruct (DownScale_signal_ends_goroutine 0 2 _ three_started three_started_wf)
    as (s1 & H1 & H2).
  - exact (NoDup_seq 0 3).
  - reflexivity.
  - cbn. lia.
  - unfold max_scale. lia.
  - exists s1. split; [exact H1 |]. split.
    + apply (proj1 (H2 0 0 (Derived 0) (MkWorker 0 (MkChan 1 [] false) true)
                      eq_refl eq_refl eq_refl)).
      cbn. left.
    + apply (proj2 (H2 1 1 (Derived 0) (MkWorker 0 (MkChan 1 [] false) true)
                      eq_refl eq_refl eq_refl)).
      cbn. left.
Defined.

(** ** The package instance *)

(** [AutoScale] writes neither [instance] nor [once]. *)
Lemma AutoScale_instance (d : nat) (dd : Dispatcher) (s : State) :
  wf_dis s d dd -> (0 <= workerCount dd <= max_scale)%Z ->
  exists s' dd',
    AutoScale d s = Ok d s' /\ instance s' = instance s /\ once s' = once s /\
    diss s' !! d = Some dd' /\
    Z.of_nat (length (workers dd')) = workerCount dd /\
    workerCount dd' = workerCount dd.
Proof.
  intros Hwf Hn. pose proof Hwf as (Hd & _ & Hlen & _).
  unfold AutoScale. erewrite bind_ok by (apply getD_ok; exact Hd).
  destruct (Z.ltb_spec (workerCount dd) (Z.of_nat (length (workers dd)))) as [Hlt|Hge].
  - rewrite (DownScale_spec _ _ _ _ Hwf Hn).
    destruct (DownScale_state_lookup d (workerCount dd) dd s Hd)
      as (dd' & Hd' & Hws & Hwc & _).
    exists (DownScale_state d (workerCount dd) dd s), dd'.
    repeat split; auto.
    rewrite Hws, kept_length by lia. lia.
  - destruct (Z.ltb_spec (Z.of_nat (length (workers dd))) (workerCount dd)) as [Hlt|Hge'].
    + rewrite (UpScale_spec _ _ _ _ Hwf Hn).
      destruct (UpScale_state_lookup d (workerCount dd) dd s Hd)
        as (dd' & Hd' & Hws & Hwc & _).
      exists (UpScale_state d (workerCount dd) dd s), dd'.
      repeat split; auto.
      * unfold UpScale_state. destruct (running dd); reflexivity.
      * unfold UpScale_state. destruct (running dd); reflexivity.
      * rewrite Hws, length_app, length_seq. lia.
    + exists s, dd. unfold ret. repeat split; auto. lia.
Qed.

(** [Get] with the [once] already spent returns the instance, rescaled. *)
Lemma Get_again (n : Z) (s : State) (dd : Dispatcher) :
  (n <= max_scale)%Z -> wf_dis s (instance s) dd -> once s = true ->
  exists s' gd,
    Get n s = Ok (instance s) s' /\ instance s' = instance s /\ once s' = true /\
    diss s' !! instance s = Some gd /\
    length (workers gd) = Z.to_nat (Z.max n 1) /\
    workerCount gd = Z.max n 1.
Proof.
  intros Hn Hwf Honce. unfold Get.
  assert ((if (n <? 1)%Z then 1%Z else n) = Z.max n 1) as ->
    by (destruct (Z.ltb_spec n 1); lia).
  set (m := Z.max n 1).
  assert (Hm : (1 <= m <= max_scale)%Z) by (unfold m, max_scale in *; lia).
  unfold bind at 1. rewrite Honce.
  unfold bind at 1, get_instance at 1.
  pose proof (wf_dis_set_workerCount _ _ _ m Hwf) as Hwf1.
  destruct Hwf as (Hd & _).
  erewrite bind_ok by (apply modD_ok; exact Hd).
  erewrite bind_ok by (apply getD_ok; heap_lookup).
  cbn [workers with_workerCount].
  destruct (Z.eqb_spec (Z.of_nat (length (workers dd))) m) as [Heq|Hne].
  - unfold bind at 1, ret at 1.
    exists (set_diss <[instance s := with_workerCount m dd]> s),
           (with_workerCount m dd).
    split; [reflexivity |]. split; [reflexivity |]. split; [exact Honce |].
    split; [cbn; eapply lookup_insert_same, Hd |].
    cbn. split; [lia | reflexivity].
  - destruct (AutoScale_instance _ _ _ Hwf1)
      as (s' & dd' & HA & Hi & Ho & Hd' & Hl & Hc).
    { cbn. lia. }
    erewrite bind_ok; cycle 1.
    { erewrite bind_ok by exact HA. reflexivity. }
    cbn in Hi, Ho, Hl, Hc.
    exists s', dd'. unfold get_instance. rewrite Hi.
    split; [reflexivity |]. split; [reflexivity |]. split; [congruence |].
    split; [exact Hd' |]. split; [lia | exact Hc].
Qed.

(** The state after the [once.Do] of the first [Get]. *)
Lemma Get_first (n : Z) (s : State) :
  (n <= max_new)%Z -> once s = false ->
  Get n s =
  Ok (length (diss s)) (set_once true (set_instance (length (diss s))
                                         (New_state n s))).
Proof.
  intros Hn Honce. unfold Get.
  assert ((if (n <? 1)%Z then 1%Z else n) = Z.max n 1) as ->
    by (destruct (Z.ltb_spec n 1); lia).
  set (m := Z.max n 1).
  assert (Hm : (1 <= m <= max_new)%Z) by (unfold m, max_new in *; lia).
  assert (HNew : New_state m s = New_state n s).
  { unfold New_state. replace (Z.max m 1) with (Z.max n 1) by (unfold m; lia).
    reflexivity. }
  unfold bind at 1. rewrite Honce.
  rewrite (bind_ok _ _ _ _ _ (New_spec m s ltac:(lia))).
  unfold bind at 1, get_instance at 1.
  cbn [instance set_once set_instance].
  erewrite bind_ok by (apply modD_ok; cbn; apply New_state_lookup).
  erewrite bind_ok
    by (apply getD_ok; cbn; eapply lookup_insert_same, New_state_lookup).
  cbn [workers with_workerCount].
  rewrite length_seq.
  destruct (Z.eqb_spec (Z.of_nat (Z.to_nat (Z.max m 1))) m) as [_|Hne]; [| lia].
  unfold bind at 1, ret at 1. unfold get_instance. cbn [instance set_diss set_once set_instance].
  rewrite <- HNew. f_equal. apply state_ext; try reflexivity.
  cbn [diss set_diss set_once set_instance].
  apply list_insert_id. rewrite New_state_lookup. f_equal.
  unfold with_workerCount. cbn. f_equal. unfold m. lia.
Qed.

(** [Get] is a singleton accessor.  Its first call (with a worker count
    [New] accepts) builds a new dispatcher through [once] and makes it the
    instance, dropping the one [init] built; every later call returns that
    same dispatcher, rescaled to the count asked for. *)
Theorem Get_is_a_singleton (n m : Z) (s : State) :
  once s = false -> (n <= max_new)%Z -> (m <= max_scale)%Z ->
  exists d s1 s2 g1 g2,
    Get n s = Ok d s1 /\ d = length (diss s) /\
    instance s1 = d /\ once s1 = true /\
    diss s1 !! d = Some g1 /\ length (workers g1) = Z.to_nat (Z.max n 1) /\
    Get m s1 = Ok d s2 /\
    instance s2 = d /\ once s2 = true /\
    diss s2 !! d = Some g2 /\ length (workers g2) = Z.to_nat (Z.max m 1) /\
    workerCount g2 = Z.max m 1.
Proof.
  intros Honce Hn Hm.
  set (s1 := set_once true (set_instance (length (diss s)) (New_state n s))).
  assert (Hwf : wf_dis s1 (instance s1)
            (MkDispatcher false false false [] (length (chans s)) (S (length (chans s)))
               0 (Z.max n 1) (seq (length (wkrs s)) (Z.to_nat (Z.max n 1)))
               Background None)).
  { pose proof (New_state_wf n s ltac:(unfold int_max, max_new, max_scale in *; lia)) as H.
    exact H. }
  destruct (Get_again m s1 _ Hm Hwf eq_refl)
    as (s2 & g2 & H1 & H2 & H3 & H4 & H5 & H6).
  exists (length (diss s)), s1, s2,
    (MkDispatcher false false false [] (length (chans s)) (S (length (chans s)))
       0 (Z.max n 1) (seq (length (wkrs s)) (Z.to_nat (Z.max n 1))) Background None), g2.
  split; [apply Get_first; assumption |].
  split; [reflexivity |]. split; [reflexivity |]. split; [reflexivity |].
  split; [apply Hwf |]. split; [apply length_seq |].
  split; [exact H1 |]. split; [exact H2 |]. split; [exact H3 |].
  split; [exact H4 |]. split; [exact H5 | exact H6].
Qed.

Lemma Get_is_a_singleton_witness :
  exists s1 s2 g2,
    Get 3 init_state = Ok 1 s1 /\ instance init_state = 0 /\
    Get 5 s1 = Ok 1 s2 /\ instance s2 = 1 /\
    diss s2 !! 1 = Some g2 /\ length (workers g2) = 5.
Proof.
  destruct (Get_is_a_singleton 3 5 init_state eq_refl)
    as (d & s1 & s2 & g1 & g2 & H1 & -> & _ & _ & _ & _ & H7 & H8 & _ & H10 & H11 & _).
  - unfold max_new. lia.
  - unfold max_scale. lia.
  - exists s1, s2, g2. repeat split; assumption.
Defined.

(** ** Without the relay no job is ever run *)

Lemma apart_grow (qs : list (nat * nat)) (cs extra : list (Chan func)) :
  apart qs cs -> apart qs (cs ++ extra).
Proof.
  intros (Ha & Hd & He). split; [| split].
  - intros p Hp. destruct (Ha p Hp). rewrite length_app. lia.
  - exact Hd.
  - intros p c Hp Hc. destruct (Ha p Hp) as [_ Hlt].
    rewrite lookup_app_l in Hc by exact Hlt. eapply He; eauto.
Qed.

(** A dispatcher built with two new channels. *)
Lemma apart_new (qs : list (nat * nat)) (cs : list (Chan func)) (e1 e2 : Chan func) :
  apart qs cs -> buf e2 = [] ->
  apart (qs ++ [(length cs, S (length cs))]) (cs ++ [e1; e2]).
Proof.
  intros H He2. pose proof (apart_grow qs cs [e1; e2] H) as (Ha & Hd & He).
  destruct H as (Ha0 & _).
  split; [| split].
  - intros p Hp. apply elem_of_app in Hp as [Hp|Hp]; [apply Ha, Hp |].
    apply list_elem_of_singleton in Hp as ->. cbn. rewrite length_app. cbn. lia.
  - intros p q Hp Hq.
    apply elem_of_app in Hp as [Hp|Hp]; apply elem_of_app in Hq as [Hq|Hq].
    + apply Hd; assumption.
    + apply list_elem_of_singleton in Hq as ->. cbn. destruct (Ha0 p Hp). lia.
    + apply list_elem_of_singleton in Hp as ->. cbn. destruct (Ha0 q Hq). lia.
    + apply list_elem_of_singleton in Hp as ->.
      apply list_elem_of_singleton in Hq as ->. cbn. lia.
  - intros p c Hp Hc. apply elem_of_app in Hp as [Hp|Hp]; [eapply He; eauto |].
    apply list_elem_of_singleton in Hp as ->. cbn in Hc.
    rewrite lookup_app_r in Hc by lia.
    replace (S (length cs) - length cs) with 1 in Hc by lia.
    cbn in Hc. injection Hc as <-. exact He2.
Qed.

Lemma elem_of_insert_inv {A : Type} (l : list A) (i : nat) (x y : A) :
  y ∈ <[i := x]> l -> y = x \/ y ∈ l.
Proof.
  intros Hy. apply list_elem_of_lookup in Hy as [j Hj].
  apply list_lookup_insert_Some in Hj as [(_ & -> & _)|[_ Hj]]; [left; reflexivity |].
  right. eapply list_elem_of_lookup_2, Hj.
Qed.

(** The queue pair of one dispatcher replaced by two new channels. *)
Lemma apart_rescale (qs : list (nat * nat)) (cs : list (Chan func)) (d : nat)
    (e1 e2 : Chan func) :
  apart qs cs -> buf e2 = [] ->
  apart (<[d := (length cs, S (length cs))]> qs) (cs ++ [e1; e2]).
Proof.
  intros H He2. pose proof (apart_grow qs cs [e1; e2] H) as (Ha & Hd & He).
  destruct H as (Ha0 & _).
  split; [| split].
  - intros p Hp. apply elem_of_insert_inv in Hp as [->|Hp]; [| apply Ha, Hp].
    cbn. rewrite length_app. cbn. lia.
  - intros p q Hp Hq.
    apply elem_of_insert_inv in Hp as [->|Hp];
      apply elem_of_insert_inv in Hq as [->|Hq]; cbn.
    + lia.
    + destruct (Ha0 q Hq). lia.
    + destruct (Ha0 p Hp). lia.
    + apply Hd; assumption.
  - intros p c Hp Hc. apply elem_of_insert_inv in Hp as [->|Hp]; [| eapply He; eauto].
    cbn in Hc. rewrite lookup_app_r in Hc by lia.
    replace (S (length cs) - length cs) with 1 in Hc by lia.
    cbn in Hc. injection Hc as <-. exact He2.
Qed.

(** The contents of one channel replaced, an output queue only by nothing. *)
Lemma apart_insert (qs : list (nat * nat)) (cs : list (Chan func)) (ch : nat)
    (c : Chan func) :
  apart qs cs -> (forall p, p ∈ qs -> p.2 = ch -> buf c = []) ->
  apart qs (<[ch := c]> cs).
Proof.
  intros (Ha & Hd & He) Hc. split; [| split].
  - intros p Hp. rewrite length_insert. apply Ha, Hp.
  - exact Hd.
  - intros p c' Hp Hc'. destruct (decide (ch = p.2)) as [Heq|Hne].
    + subst ch. apply list_lookup_insert_Some in Hc' as [(_ & <- & _)|[Hne _]];
        [eapply Hc; eauto | congruence].
    + rewrite list_lookup_insert_ne in Hc' by exact Hne. eapply He; eauto.
Qed.

Lemma qpairs_insert_same (l : list Dispatcher) (d : nat) (dd x : Dispatcher) :
  l !! d = Some dd -> qpair x = qpair dd ->
  qpair <$> <[d := x]> l = qpair <$> l.
Proof.
  intros Hd Hx. rewrite list_fmap_insert, Hx. apply list_insert_id.
  rewrite list_lookup_fmap, Hd. reflexivity.
Qed.

Lemma qpair_elem (s : State) (d : nat) (dd : Dispatcher) :
  diss s !! d = Some dd -> qpair dd ∈ qpair <$> diss s.
Proof. intros Hd. apply list_elem_of_fmap_2. eapply list_elem_of_lookup_2, Hd. Qed.

(** An output queue of a quiet heap lets no worker through. *)
Lemma quiet_qout_empty (s : State) (d : nat) (dd : Dispatcher) (c : Chan func) :
  quiet s -> diss s !! d = Some dd -> chans s !! qout dd = Some c -> buf c = [].
Proof.
  intros (_ & _ & _ & _ & _ & He) Hd Hc.
  apply (He (qpair dd) c (qpair_elem s d dd Hd) Hc).
Qed.

(** *** The states the calls return in are quiet *)

Lemma quiet_same_queues (s s' : State) :
  quiet s -> log s' = log s -> echs s' = echs s -> chans s' = chans s ->
  qpair <$> diss s' = qpair <$> diss s -> Forall relay_free (procs s') ->
  quiet s'.
Proof.
  intros (H1 & H2 & H3 & H4) Hl He Hc Hq Hp. unfold quiet.
  rewrite Hl, He, Hc, Hq. auto.
Qed.

Lemma quiet_New_state (n : Z) (s : State) : quiet s -> quiet (New_state n s).
Proof.
  intros (H1 & H2 & H3 & H4). unfold quiet, New_state. cbn [log echs procs diss chans].
  split; [exact H1 |]. split; [exact H2 |]. split; [exact H3 |].
  rewrite fmap_app. cbn [fmap list_fmap qpair qin qout].
  apply apart_new; [exact H4 | reflexivity].
Qed.

Lemma quiet_Start_state (d : nat) (c : ctxref) (dd : Dispatcher) (s : State) :
  quiet s -> diss s !! d = Some dd -> quiet (Start_state d c dd s).
Proof.
  intros Hq Hd. apply (quiet_same_queues s); try reflexivity; [exact Hq | |].
  - unfold Start_state. cbn [diss]. apply (qpairs_insert_same _ _ dd); auto.
  - unfold Start_state. cbn [procs]. apply Forall_app_2; [apply Hq |].
    apply Forall_forall. intros p Hp. apply list_elem_of_fmap_1 in Hp as (w & -> & _).
    exact I.
Qed.

Lemma quiet_Stop_handle_state (d i : nat) (dd : Dispatcher) (s : State) :
  quiet s -> diss s !! d = Some dd -> quiet (Stop_handle_state d i dd s).
Proof.
  intros Hq Hd. apply (quiet_same_queues s); try reflexivity; [exact Hq | | apply Hq].
  unfold Stop_handle_state. cbn [diss set_diss set_ctxs].
  apply (qpairs_insert_same _ _ dd); auto.
Qed.

Lemma quiet_Add_state (d : nat) (job : Job) (dd : Dispatcher) (c : Chan func)
    (s : State) :
  quiet s -> diss s !! d = Some dd -> quiet (Add_state d job dd c s).
Proof.
  intros (H1 & H2 & H3 & H4) Hd. unfold quiet, Add_state.
  cbn [log echs procs diss chans].
  split; [exact H1 |].
  split; [apply Forall_app_2; [exact H2 | repeat constructor] |].
  split; [exact H3 |].
  rewrite (qpairs_insert_same _ _ dd) by auto.
  apply apart_insert; [exact H4 |].
  intros p Hp Heq. exfalso.
  destruct H4 as (_ & Hne & _).
  apply (Hne (qpair dd) p (qpair_elem s d dd Hd) Hp). cbn. congruence.
Qed.

Lemma quiet_Add_blocked_state (d : nat) (dd : Dispatcher) (s : State) :
  quiet s -> diss s !! d = Some dd -> quiet (Add_blocked_state d dd s).
Proof.
  intros (H1 & H2 & H3 & H4) Hd. unfold quiet, Add_blocked_state.
  cbn [log echs procs diss chans].
  split; [exact H1 |].
  split; [apply Forall_app_2; [exact H2 | repeat constructor] |].
  split; [exact H3 |].
  rewrite (qpairs_insert_same _ _ dd) by auto. exact H4.
Qed.

Lemma relay_free_drains (d i o : nat) : Forall relay_free [PDrainIn d i []; PDrainOut d o []].
Proof. repeat constructor. Qed.

Lemma relay_free_workers (ws : list nat) (c : ctxref) :
  Forall relay_free (map (fun w => PWorker w c) ws).
Proof.
  apply Forall_forall. intros p Hp. apply list_elem_of_fmap_1 in Hp as (w & -> & _).
  exact I.
Qed.

Lemma quiet_UpScale_state (d : nat) (n : Z) (dd : Dispatcher) (s : State) :
  quiet s -> diss s !! d = Some dd -> quiet (UpScale_state d n dd s).
Proof.
  intros (H1 & H2 & H3 & H4) Hd.
  assert (Hq : qpair <$> diss (UpScale_state d n dd s) =
               <[d := (length (chans s), S (length (chans s)))]> (qpair <$> diss s)).
  { unfold UpScale_state. destruct (running dd);
      cbn [diss set_diss Start_state UpScale_grown];
      rewrite ?list_insert_insert_eq, list_fmap_insert; reflexivity. }
  assert (Hc : chans (UpScale_state d n dd s) =
               chans s ++ [MkChan (Z.min (n * 10000) bufferSizeLimit) [] false;
                           MkChan (Z.min (n * 10000) bufferSizeLimit) [] false]).
  { unfold UpScale_state. destruct (running dd); reflexivity. }
  unfold quiet. rewrite Hq, Hc.
  split; [unfold UpScale_state; destruct (running dd); exact H1 |].
  split; [unfold UpScale_state; destruct (running dd); exact H2 |].
  split; [| apply apart_rescale; [exact H4 | reflexivity]].
  unfold UpScale_state. destruct (running dd);
    cbn [procs set_diss Start_state UpScale_grown].
  - apply Forall_app_2; [apply Forall_app_2; [exact H3 | apply relay_free_drains] |].
    apply relay_free_workers.
  - apply Forall_app_2; [exact H3 | apply relay_free_drains].
Qed.

Lemma quiet_DownScale_state (d : nat) (n : Z) (dd : Dispatcher) (s : State) :
  quiet s -> diss s !! d = Some dd -> quiet (DownScale_state d n dd s).
Proof.
  intros (H1 & H2 & H3 & H4) Hd. unfold quiet, DownScale_state.
  cbn [log echs procs diss chans].
  split; [exact H1 |]. split; [exact H2 |].
  split; [apply Forall_app_2; [exact H3 | apply relay_free_drains] |].
  rewrite list_fmap_insert. apply apart_rescale; [exact H4 | reflexivity].
Qed.

(** *** The calls *)

Lemma jkeep_bind {A B : Type} (m : M A) (k : A -> M B) :
  inv m -> jkeep m -> (forall a, jkeep (k a)) -> jkeep (bind m k).
Proof.
  intros Hi Hm Hk s Hs Hq. unfold bind.
  specialize (Hi s Hs). specialize (Hm s Hs Hq).
  destruct (m s) as [a s'| |]; [| exact Hm | exact I].
  apply Hk; assumption.
Qed.

Lemma jkeep_ret {A : Type} (a : A) : jkeep (ret a).
Proof. intros s _ Hq. exact Hq. Qed.

Lemma jkeep_forget {A : Type} (m : M A) : inv m -> jkeep m -> jkeep (forget m).
Proof.
  intros Hi Hm. unfold forget. apply jkeep_bind; [exact Hi | exact Hm |].
  intros _. apply jkeep_ret.
Qed.

Lemma jkeep_New (n : Z) : jkeep (New n).
Proof.
  intros s _ Hq. destruct (Z.le_gt_cases n max_new) as [Hn|Hn].
  - rewrite (New_spec n s Hn). apply quiet_New_state, Hq.
  - destruct (New_panics_above n s Hn) as [s' ->]. exact I.
Qed.

Lemma jkeep_StartWithContext (d : nat) (c : ctxref) : jkeep (StartWithContext d c).
Proof.
  intros s Hs Hq. destruct (diss s !! d) as [dd|] eqn:Hd.
  - rewrite (StartWithContext_spec d c dd s Hd).
    + apply quiet_Start_state; assumption.
    + eapply wf_dis_allocated, wf_state_dis; eauto.
  - unfold StartWithContext, bind, getD. rewrite Hd. exact I.
Qed.

Lemma Wait_state (d : nat) (s : State) : res_state (Wait d s) = s.
Proof.
  unfold Wait, bind, getD. destruct (diss s !! d) as [dd|] eqn:Hd; [| reflexivity].
  destruct (running dd); [| reflexivity].
  unfold wg_wait, bind, getD. rewrite Hd. destruct (wg dd =? 0)%Z; reflexivity.
Qed.

Lemma jkeep_Wait (d : nat) : jkeep (Wait d).
Proof.
  intros s _ Hq. pose proof (Wait_state d s) as H.
  destruct (Wait d s); cbn in H; subst; auto.
Qed.

Lemma jkeep_Stop (d : nat) (b : bool) : jkeep (Stop d b).
Proof.
  intros s Hs Hq. destruct (diss s !! d) as [dd|] eqn:Hd.
  2:{ unfold Stop, bind, getD. rewrite Hd. exact I. }
  pose proof (proj2 Hs d dd Hd) as (_ & Hlen & _ & _ & _ & Hc & _).
  destruct (running dd) eqn:Hrun.
  2:{ unfold Stop. erewrite bind_ok by (apply getD_ok; exact Hd).
      rewrite Hrun. exact Hq. }
  destruct (Hc eq_refl) as [i Hi].
  assert (Hdone : forall imm, imm = true \/ wg dd = 0%Z ->
            match Stop d imm s with
            | Ok _ s' | Blocked s' => quiet s'
            | Panic _ => True
            end).
  { intros imm Himm.
    destruct (Z.le_gt_cases (Z.of_nat (length (workers dd))) max_new) as [Hle|Hgt].
    - rewrite (Stop_spec d i imm dd s Hd Hrun Hi Himm Hle).
      apply quiet_New_state, quiet_Stop_handle_state; assumption.
    - destruct (Stop_panics_above d i imm dd s Hd Hrun Hi Himm Hgt) as [s' ->].
      exact I. }
  destruct b.
  - apply Hdone. left. reflexivity.
  - destruct (Z.eq_dec (wg dd) 0%Z) as [Hz|Hnz].
    + apply Hdone. right. exact Hz.
    + unfold Stop. erewrite bind_ok by (apply getD_ok; exact Hd).
      rewrite Hrun. cbn [negb]. unfold bind at 1. unfold bind at 1.
      unfold Wait. erewrite bind_ok by (apply getD_ok; exact Hd). rewrite Hrun.
      unfold wg_wait. erewrite bind_ok by (apply getD_ok; exact Hd).
      destruct (Z.eqb_spec (wg dd) 0); [contradiction |]. exact Hq.
Qed.

Lemma jkeep_Add (d : nat) (job : Job) : jkeep (Add d job).
Proof.
  intros s Hs Hq. destruct (diss s !! d) as [dd|] eqn:Hd.
  - pose proof (proj2 Hs d dd Hd) as (Hwg & _ & _ & _ & _ & _ & [c Hc] & _).
    pose proof (proj1 Hs _ _ Hc) as Hopen.
    destruct (Z.lt_ge_cases (Z.of_nat (length (buf c))) (cap c)) as [Hroom|Hfull].
    + rewrite (Add_spec d job dd c s Hd Hwg Hc Hopen Hroom).
      apply quiet_Add_state; assumption.
    + rewrite (Add_blocked_spec d job dd c s Hd Hwg Hc Hopen Hfull).
      apply quiet_Add_blocked_state; assumption.
  - unfold Add, bind, make_err_chan, wg_add, bind, modD, bind, getD.
    cbn [make_chan Z.ltb Z.compare diss set_echs]. rewrite Hd. exact I.
Qed.

Lemma scale_panics_arith (n : Z) :
  sane_count n -> (n < 0)%Z -> (bufsize (int_mul (int_mul n 100) 100) < 0)%Z.
Proof.
  intros Hn Hneg. unfold sane_count, max_scale in Hn.
  rewrite (int_mul_small n) by (unfold int_min, int_max; lia).
  rewrite int_mul_small by (unfold int_min, int_max; lia).
  unfold bufsize, bufferSizeLimit. lia.
Qed.

Lemma jkeep_UpScale (d : nat) (n : Z) : sane_count n -> jkeep (UpScale d n).
Proof.
  intros Hn s Hs Hq. destruct (diss s !! d) as [dd|] eqn:Hd.
  - destruct (Z.lt_ge_cases n 0) as [Hneg|Hpos].
    + rewrite (UpScale_panics d n dd s Hd); [exact I |].
      apply scale_panics_arith; assumption.
    + assert (Hr : (0 <= n <= max_scale)%Z) by (unfold sane_count in Hn; lia).
      rewrite (UpScale_spec d n dd s (wf_state_dis _ _ _ Hs Hd) Hr).
      apply quiet_UpScale_state; assumption.
  - unfold UpScale, ScaleBuffer, bind, getD. rewrite Hd. exact I.
Qed.

Lemma jkeep_DownScale (d : nat) (n : Z) : sane_count n -> jkeep (DownScale d n).
Proof.
  intros Hn s Hs Hq. destruct (diss s !! d) as [dd|] eqn:Hd.
  - destruct (Z.lt_ge_cases n 0) as [Hneg|Hpos].
    + rewrite (DownScale_panics d n dd s Hd); [exact I |].
      apply scale_panics_arith; assumption.
    + assert (Hr : (0 <= n <= max_scale)%Z) by (unfold sane_count in Hn; lia).
      rewrite (DownScale_spec d n dd s (wf_state_dis _ _ _ Hs Hd) Hr).
      apply quiet_DownScale_state; assumption.
  - unfold DownScale, ScaleBuffer, bind, getD. rewrite Hd. exact I.
Qed.

Lemma jkeep_AutoScale (d : nat) : jkeep (AutoScale d).
Proof.
  intros s Hs Hq. unfold AutoScale.
  destruct (diss s !! d) as [dd|] eqn:Hd.
  2:{ unfold bind, getD. rewrite Hd. exact I. }
  erewrite bind_ok by (apply getD_ok; exact Hd).
  pose proof (proj2 Hs d dd Hd) as (_ & _ & Hsane & _).
  destruct (_ <? _)%Z; [apply jkeep_DownScale; assumption |].
  destruct (_ <? _)%Z; [apply jkeep_UpScale; assumption | exact Hq].
Qed.

Lemma jkeep_Reset (d : nat) : jkeep (Reset d).
Proof.
  unfold Reset. apply jkeep_bind; [apply inv_Stop | apply jkeep_Stop |].
  intros _ s Hs Hq. destruct (diss s !! d) as [dd|] eqn:Hd.
  2:{ unfold bind, getD. rewrite Hd. exact I. }
  erewrite bind_ok by (apply getD_ok; exact Hd).
  apply jkeep_New; assumption.
Qed.

Lemma jkeep_modD_same (d : nat) (f : Dispatcher -> Dispatcher) :
  (forall dd, qpair (f dd) = qpair dd) -> jkeep (modD d f).
Proof.
  intros Hf s _ Hq. unfold modD, bind, getD.
  destruct (diss s !! d) as [dd|] eqn:Hd; [| exact I].
  apply (quiet_same_queues s); try reflexivity; [exact Hq | | apply Hq].
  cbn [diss set_diss]. apply (qpairs_insert_same _ _ dd); auto.
Qed.

Lemma jkeep_Get (n : Z) : sane_count n -> jkeep (Get n).
Proof.
  intros Hn. unfold Get.
  assert ((if (n <? 1)%Z then 1%Z else n) = Z.max n 1) as ->
    by (destruct (Z.ltb_spec n 1); lia).
  assert (Hm : (1 <= Z.max n 1 <= max_scale)%Z)
    by (unfold sane_count, max_scale in *; lia).
  apply jkeep_bind.
  { intros s Hs. destruct (once s); [exact Hs |].
    unfold bind. pose proof (inv_New (Z.max n 1) (proj2 Hm) s Hs) as HN.
    destruct (New (Z.max n 1) s) as [d s'| |]; [| exact HN | exact I].
    eapply wf_state_frame; [exact HN | reflexivity ..]. }
  { intros s Hs Hq. destruct (once s); [exact Hq |].
    unfold bind.
    destruct (Z.le_gt_cases (Z.max n 1) max_new) as [Hle|Hgt].
    - rewrite (New_spec (Z.max n 1) s Hle).
      apply (quiet_same_queues (New_state (Z.max n 1) s)); try reflexivity;
        [apply quiet_New_state, Hq | apply (quiet_New_state (Z.max n 1) _ Hq)].
    - destruct (New_panics_above (Z.max n 1) s Hgt) as [s' ->]. exact I. }
  intros _. apply jkeep_bind; [apply inv_get_instance | intros s _ Hq; exact Hq |].
  intros inst. apply jkeep_bind.
  { apply inv_modD. intros s dd (H1 & H2 & H3 & H4).
    split; [exact H1 |]. split; [exact H2 |].
    split; [unfold sane_count; cbn; lia | exact H4]. }
  { apply jkeep_modD_same. reflexivity. }
  intros _. apply jkeep_bind; [apply inv_getD | |].
  { intros s _ Hq. unfold getD. destruct (diss s !! inst); [exact Hq | exact I]. }
  intros dd. apply jkeep_bind; [| | intros _ s _ Hq; exact Hq].
  - destruct (_ =? _)%Z; [apply inv_ret |].
    apply inv_bind; [apply inv_AutoScale | intros; apply inv_ret].
  - destruct (_ =? _)%Z; [apply jkeep_ret |].
    apply jkeep_bind; [apply inv_AutoScale | apply jkeep_AutoScale |].
    intros _. apply jkeep_ret.
Qed.

Lemma jkeep_StartWorkerObserver (d : nat) : jkeep (StartWorkerObserver d).
Proof.
  intros s _ Hq. unfold StartWorkerObserver, bind, spawn, ret.
  apply (quiet_same_queues s); try reflexivity; [exact Hq |].
  cbn [procs set_procs]. apply Forall_app_2; [apply Hq | repeat constructor].
Qed.

(** *** The goroutines *)

Lemma quiet_set_proc (s : State) (i : nat) (p : Proc) :
  quiet s -> relay_free p -> quiet (set_procs <[i := p]> s).
Proof.
  intros Hq Hp. apply (quiet_same_queues s); try reflexivity; [exact Hq |].
  cbn [procs set_procs]. apply Forall_insert; [apply Hq | exact Hp].
Qed.

(** A worker of a quiet heap receives no job: its [select] finds the output
    queue empty. *)
Lemma quiet_worker_waits (i w : nat) (c : ctxref) (s : State) :
  wf_state s -> quiet s ->
  match step_worker i w c PickJob s with
  | Ok _ _ => False
  | Blocked s' => s' = s
  | Panic _ => True
  end.
Proof.
  intros Hs Hq. cbn [step_worker]. unfold bind at 1, getW.
  destruct (wkrs s !! w) as [ww|]; [| exact I].
  unfold bind at 1, getD. destruct (diss s !! dis ww) as [dd|] eqn:Hd; [| exact I].
  unfold bind at 1, recv_func.
  destruct (chans s !! qout dd) as [co|] eqn:Hco; [| exact I].
  unfold chan_recv. rewrite (quiet_qout_empty s _ dd co Hq Hd Hco).
  rewrite (proj1 Hs _ _ Hco). reflexivity.
Qed.

Lemma jkeep_step_worker (i w : nat) (c : ctxref) (p : pick) :
  jkeep (step_worker i w c p).
Proof.
  intros s Hs Hq. destruct p.
  - cbn [step_worker]. unfold bind, getW.
    destruct (wkrs s !! w) as [ww|] eqn:Hw; [| exact I].
    unfold chan_recv. destruct (buf (kill ww)) as [|x rest].
    + destruct (closed (kill ww)); [| exact Hq].
      apply quiet_set_proc; [exact Hq | exact I].
    + unfold modW, bind, getW. rewrite Hw.
      apply (quiet_set_proc (set_wkrs _ s)); [| exact I].
      apply (quiet_same_queues s); try reflexivity; [exact Hq | apply Hq].
  - cbn [step_worker]. destruct (ctx_done s c); [| exact Hq].
    apply quiet_set_proc; [exact Hq | exact I].
  - pose proof (quiet_worker_waits i w c s Hs Hq) as H.
    destruct (step_worker i w c PickJob s); [contradiction | subst; exact Hq | exact I].
Qed.

Lemma quiet_recv (s : State) (ch : nat) (c : Chan func) (job : func) (rest : list func) :
  quiet s -> chans s !! ch = Some c -> buf c = job :: rest ->
  quiet (set_chans <[ch := MkChan (cap c) rest (closed c)]> s).
Proof.
  intros (H1 & H2 & H3 & H4) Hc Hb. unfold quiet.
  cbn [log echs procs diss chans set_chans].
  split; [exact H1 |]. split; [exact H2 |]. split; [exact H3 |].
  apply apart_insert; [exact H4 |].
  intros p Hp Heq. exfalso. destruct H4 as (_ & _ & He).
  subst ch. rewrite (He p c Hp Hc) in Hb. discriminate.
Qed.

Lemma jkeep_step_drain (i old : nat) (k : func -> Proc) (after : M unit) :
  (forall job, relay_free (k job)) ->
  jkeep (let! r := recv_func old in
         match r with
         | Some job => set_proc i (k job)
         | None => after
         end).
Proof.
  intros Hk s Hs Hq. unfold bind, recv_func.
  destruct (chans s !! old) as [c|] eqn:Hc; [| exact I].
  unfold chan_recv. destruct (buf c) as [|job rest] eqn:Hb.
  - rewrite (proj1 Hs _ _ Hc). exact Hq.
  - unfold set_proc. apply quiet_set_proc; [| apply Hk].
    eapply quiet_recv; eauto.
Qed.

Lemma jkeep_step_observer (i d : nat) : jkeep (step_observer i d).
Proof.
  intros s Hs Hq. unfold step_observer.
  destruct (diss s !! d) as [dd|] eqn:Hd.
  2:{ unfold bind, getD. rewrite Hd. exact I. }
  erewrite bind_ok by (apply getD_ok; exact Hd).
  destruct (ctx_done s (ctx dd)).
  - apply quiet_set_proc; [exact Hq | exact I].
  - destruct (_ && _); [| exact Hq].
    assert (Hp : jkeep (AutoScale d >> ret tt)).
    { apply jkeep_bind; [apply inv_AutoScale | apply jkeep_AutoScale |].
      intros _. apply jkeep_ret. }
    apply Hp; assumption.
Qed.

Lemma jkeep_step (i : nat) (p : pick) : jkeep (step i p).
Proof.
  intros s Hs Hq. unfold step.
  destruct (procs s !! i) as [[w c|d old tmp|d old tmp|d|d out job|d|]|] eqn:Hi;
    try exact Hq.
  - apply jkeep_step_worker; assumption.
  - apply (jkeep_step_drain i old (fun job => PDrainIn d old (tmp ++ [job])));
      [intros; exact I | assumption | assumption].
  - apply (jkeep_step_drain i old (fun job => PDrainOut d old (tmp ++ [job])));
      [intros; exact I | assumption | assumption].
  - destruct Hq as (_ & _ & Hp & _).
    destruct (Forall_lookup_1 _ _ _ _ Hp Hi).
  - destruct Hq as (_ & _ & Hp & _).
    destruct (Forall_lookup_1 _ _ _ _ Hp Hi).
  - apply jkeep_step_observer; assumption.
Qed.

Lemma jkeep_act (a : Action) : sane a -> ~ starts_relay a -> jkeep (act a).
Proof.
  destruct a; cbn [act sane starts_relay]; intros Hsane Hrelay.
  - apply jkeep_forget; [apply inv_New | apply jkeep_New];
      unfold sane_count, max_scale, max_new in *; lia.
  - apply jkeep_forget; [apply inv_Get | apply jkeep_Get]; assumption.
  - apply jkeep_forget; [apply inv_StartWithContext | apply jkeep_StartWithContext].
  - apply jkeep_forget; [apply inv_Stop | apply jkeep_Stop].
  - apply jkeep_forget; [apply inv_Add | apply jkeep_Add].
  - apply jkeep_Wait.
  - apply jkeep_forget; [apply inv_UpScale | apply jkeep_UpScale]; assumption.
  - apply jkeep_forget; [apply inv_DownScale | apply jkeep_DownScale]; assumption.
  - apply jkeep_forget; [apply inv_AutoScale | apply jkeep_AutoScale].
  - apply jkeep_forget; [apply inv_Reset | apply jkeep_Reset].
  - contradiction Hrelay.
  - apply jkeep_forget; [apply inv_StartWorkerObserver | apply jkeep_StartWorkerObserver].
  - apply jkeep_step.
Qed.

Lemma init_state_quiet : quiet init_state.
Proof.
  assert (He : quiet empty_state).
  { split; [reflexivity |]. split; [constructor |]. split; [constructor |].
    split; [| split].
    - intros p Hp. apply not_elem_of_nil in Hp. contradiction.
    - intros p q Hp. apply not_elem_of_nil in Hp. contradiction.
    - intros p c Hp. apply not_elem_of_nil in Hp. contradiction. }
  apply (quiet_same_queues (New_state 3 empty_state)); try reflexivity;
    [apply quiet_New_state, He | constructor].
Qed.

Lemma reachable_without_relay_quiet (s : State) :
  reachable_without_relay s -> wf_state s /\ quiet s.
Proof.
  intros Hr. induction Hr as [|a s s' _ [Hs Hq] Hsane Hnr Hact|a s s' _ [Hs Hq] Hsane Hnr Hact].
  - split; [exact init_state_wf_state | exact init_state_quiet].
  - pose proof (inv_act a Hsane s Hs) as H1.
    pose proof (jkeep_act a Hsane Hnr s Hs Hq) as H2.
    rewrite Hact in H1, H2. auto.
  - pose proof (inv_act a Hsane s Hs) as H1.
    pose proof (jkeep_act a Hsane Hnr s Hs Hq) as H2.
    rewrite Hact in H1, H2. auto.
Qed.

(** Jobs are run only if the caller starts [QueueRunner].  [Add] sends to
    the intake queue, the workers receive from the output queue, and only
    the goroutine of [QueueRunner] moves a job from one to the other; no
    function of the package starts it.  In every state a program reaches
    without calling [QueueRunner], no job has been invoked, no completion
    channel holds a result, every output queue is empty, and a worker
    goroutine that selects a job does not get one. *)
Theorem no_job_runs_without_QueueRunner (s : State) :
  reachable_without_relay s ->
  log s = [] /\
  (forall e c, echs s !! e = Some c -> buf c = []) /\
  (forall d dd c, diss s !! d = Some dd -> chans s !! qout dd = Some c -> buf c = []) /\
  (forall i w c s', procs s !! i = Some (PWorker w c) -> step i PickJob s <> Ok tt s').
Proof.
  intros Hr. destruct (reachable_without_relay_quiet s Hr) as [Hs Hq].
  split; [apply Hq |].
  split; [intros e c He; destruct Hq as (_ & H2 & _);
          exact (Forall_lookup_1 _ _ _ _ H2 He) |].
  split; [intros d dd c; apply quiet_qout_empty; exact Hq |].
  intros i w c s' Hi Hstep. unfold step in Hstep. rewrite Hi in Hstep.
  pose proof (quiet_worker_waits i w c s Hs Hq) as H.
  rewrite Hstep in H. exact H.
Qed.

Lemma no_job_runs_without_QueueRunner_witness :
  log one_pending = [] /\
  forall s', step 0 PickJob one_pending <> Ok tt s'.
Proof.
  assert (Hr : reachable_without_relay one_pending).
  { apply (rwr_ok (CallAdd 0 failing_job) three_started);
      [| exact I | intros H; exact H |].
    - apply (rwr_ok (CallStart 0 Background) init_state);
        [apply rwr_init | exact I | intros H; exact H |].
      cbn [act]. unfold forget. rewrite (bind_ok _ _ _ _ _ three_started_reached).
      reflexivity.
    - cbn [act]. unfold forget. rewrite (bind_ok _ _ _ _ _ one_pending_reached).
      reflexivity. }
  destruct (no_job_runs_without_QueueRunner one_pending Hr) as (H1 & _ & _ & H4).
  split; [exact H1 |]. intros s'. apply (H4 0 0 (Derived 0)). reflexivity.
Defined.

(** ** What [New] builds *)



(** ** Jobs pending at a rescale *)

(** A rescale leaves the jobs that were pending out of reach.  [UpScale] and
    [DownScale] give the dispatcher two new empty queues; the old queues
    keep their jobs and the overflow list keeps its entries, but the relay
    of [QueueRunner] now finds the intake queue empty and every worker of
    the dispatcher finds the output queue empty. *)
Theorem rescale_strands_pending_jobs (up : bool) (d : nat) (n : Z) (dd : Dispatcher)
    (cin cout : Chan func) (s : State) :
  wf_dis s d dd -> open_chans s ->
  chans s !! qin dd = Some cin -> chans s !! qout dd = Some cout ->
  (0 <= n <= max_scale)%Z ->
  exists s1 d1,
    (if up then UpScale d n else DownScale d n) s = Ok d s1 /\
    diss s1 !! d = Some d1 /\
    chans s1 !! qin dd = Some cin /\ chans s1 !! qout dd = Some cout /\
    chans s1 !! qin d1 = Some (MkChan (Z.min (n * 10000) bufferSizeLimit) [] false) /\
    chans s1 !! qout d1 = Some (MkChan (Z.min (n * 10000) bufferSizeLimit) [] false) /\
    queue d1 = queue dd /\
    (forall i, procs s1 !! i = Some (PRelay d) -> step i PickJob s1 = Blocked s1) /\
    (forall j w c ww, procs s1 !! j = Some (PWorker w c) ->
       wkrs s1 !! w = Some ww -> dis ww = d -> step j PickJob s1 = Blocked s1).
Proof.
  intros Hwf Hopen Hcin Hcout Hn. pose proof Hwf as (Hd & _).
  assert (Hgen : forall s1 d1,
            diss s1 !! d = Some d1 ->
            qin d1 = length (chans s) -> qout d1 = S (length (chans s)) ->
            queue d1 = queue dd ->
            chans s1 = chans s ++ [MkChan (Z.min (n * 10000) bufferSizeLimit) [] false;
                                   MkChan (Z.min (n * 10000) bufferSizeLimit) [] false] ->
            diss s1 !! d = Some d1 /\
            chans s1 !! qin dd = Some cin /\ chans s1 !! qout dd = Some cout /\
            chans s1 !! qin d1 =
              Some (MkChan (Z.min (n * 10000) bufferSizeLimit) [] false) /\
            chans s1 !! qout d1 =
              Some (MkChan (Z.min (n * 10000) bufferSizeLimit) [] false) /\
            queue d1 = queue dd /\
            (forall i, procs s1 !! i = Some (PRelay d) ->
               step i PickJob s1 = Blocked s1) /\
            (forall j w c ww, procs s1 !! j = Some (PWorker w c) ->
               wkrs s1 !! w = Some ww -> dis ww = d ->
               step j PickJob s1 = Blocked s1)).
  { intros s1 d1 Hd1 Hi Ho Hq Hc.
    assert (Hni : chans s1 !! qin d1 =
                  Some (MkChan (Z.min (n * 10000) bufferSizeLimit) [] false))
      by (rewrite Hc, Hi; apply list_lookup_middle; reflexivity).
    assert (Hno : chans s1 !! qout d1 =
                  Some (MkChan (Z.min (n * 10000) bufferSizeLimit) [] false)).
    { rewrite Hc, Ho, lookup_app_r by lia.
      replace (S (length (chans s)) - length (chans s)) with 1 by lia. reflexivity. }
    split; [exact Hd1 |].
    split; [rewrite Hc, lookup_app_l by (eapply lookup_lt_Some, Hcin); exact Hcin |].
    split; [rewrite Hc, lookup_app_l by (eapply lookup_lt_Some, Hcout); exact Hcout |].
    split; [exact Hni |]. split; [exact Hno |]. split; [exact Hq |].
    split.
    - intros i Hp. unfold step. rewrite Hp. unfold step_relay.
      erewrite bind_ok by (apply getD_ok; exact Hd1).
      unfold bind, recv_func. rewrite Hni. reflexivity.
    - intros j w c ww Hp Hw Hdis. unfold step. rewrite Hp. cbn [step_worker].
      erewrite bind_ok by (apply getW_ok; exact Hw). rewrite Hdis.
      erewrite bind_ok by (apply getD_ok; exact Hd1).
      unfold bind, recv_func. rewrite Hno. reflexivity. }
  destruct up.
  - destruct (UpScale_state_lookup d n dd s Hd)
      as (d1 & Hd1 & _ & _ & _ & _ & Hi & Ho & _ & Hq & _).
    exists (UpScale_state d n dd s), d1.
    split; [apply UpScale_spec; assumption |].
    apply Hgen; auto.
    unfold UpScale_state. destruct (running dd); reflexivity.
  - destruct (DownScale_state_lookup d n dd s Hd)
      as (d1 & Hd1 & _ & _ & _ & _ & Hi & Ho & _ & Hq & _).
    exists (DownScale_state d n dd s), d1.
    split; [apply DownScale_spec; assumption |].
    apply Hgen; auto.
Qed.

Lemma one_pending_wf :
  wf_dis one_pending 0
    (MkDispatcher true false false [] 0 1 1 3 [0; 1; 2] (Derived 0) (Some 0)).
Proof.
  split; [reflexivity |]. split; [cbn; lia |]. split; [cbn; unfold int_max; lia |].
  split.
  { intros w Hw. cbn in Hw.
    repeat (apply elem_of_cons in Hw as [->|Hw]; [eexists; split; reflexivity |]).
    apply not_elem_of_nil in Hw. contradiction. }
  split; [intros _; eexists; reflexivity |].
  split; eexists; reflexivity.
Qed.

Lemma one_pending_open : open_chans one_pending.
Proof.
  intros i c Hi. destruct i as [|[|i]]; cbn in Hi; [| | discriminate];
    injection Hi as <-; reflexivity.
Qed.

Lemma rescale_strands_pending_jobs_witness :
  exists s1 d1,
    UpScale 0 7 one_pending = Ok 0 s1 /\
    diss s1 !! 0 = Some d1 /\
    chans s1 !! 0 = Some (MkChan 300 [Some (Closure 0 failing_job)] false) /\
    chans s1 !! qin d1 = Some (MkChan 70000 [] false).
Proof.
  destruct (rescale_strands_pending_jobs true 0 7
              (MkDispatcher true false false [] 0 1 1 3 [0; 1; 2] (Derived 0) (Some 0))
              (MkChan 300 [Some (Closure 0 failing_job)] false) (MkChan 300 [] false)
              one_pending one_pending_wf one_pending_open eq_refl eq_refl)
    as (s1 & d1 & H1 & H2 & H3 & _ & H5 & _).
  - unfold max_scale. lia.
  - exists s1, d1. repeat split; assumption.
Defined.
